(** * Debounced toggle over the Matter attribute bus

    A shallow embedding of the Arduino/esp-matter sketches of the
    repository: the single on/off light (auto-curtain/src/main.cpp and the
    two sketches of unnamed/part_001, which share its code), the
    two-endpoint plug-in unit (TwoEndpointsPluginUnit.cpp) and the
    window-covering sketch (unnamed/part_000).

    Every sketch is a pair [setup]/[loop] plus the callback
    [on_attribute_update].  The sketches are written here as programs over
    the calls they make (Arduino core, globals, esp-matter); a separate
    interpreter gives those calls their meaning on a [world]. *)

From Stdlib Require Import ZArith Lia.
From stdpp Require Import base numbers option list strings gmap functions.

Local Open Scope Z_scope.

(** ** Machine integers (ESP32: [int] and [unsigned long] are 32 bits) *)

(** Conversion to [unsigned long]. *)
Definition wrap32 (x : Z) : Z := x mod 2 ^ 32.

(** Conversion to [int]. *)
Definition to_int (x : Z) : Z := (x + 2 ^ 31) mod 2 ^ 32 - 2 ^ 31.

(** [unsigned long - int]: the [int] is converted, the difference wraps. *)
Definition usub (a b : Z) : Z := wrap32 (a - b).

(** C's [!x] on an integer. *)
Definition lnot (x : Z) : bool := x =? 0.

(** ** Identifiers supplied by the Matter SDK headers

    The numbers are those of the Matter application cluster specification;
    the sketches only name them. *)

Definition OnOff_Id : Z := 6.                                  (* 0x0006 *)
Definition OnOff_Attributes_OnOff_Id : Z := 0.                 (* 0x0000 *)
Definition WindowCovering_Id : Z := 258.                       (* 0x0102 *)
Definition WindowCovering_Attributes_OperationalStatus_Id : Z := 10. (* 0x000A *)

Definition ESP_OK : Z := 0.
Definition ESP_FAIL : Z := -1.
Definition ESP_ERR_INVALID_ARG : Z := 258.

Inductive callback_type_t := PRE_UPDATE | POST_UPDATE | READ | WRITE.

#[global] Instance callback_type_eq_dec : EqDecision callback_type_t.
Proof. solve_decision. Defined.

(** ** Attribute values: [esp_matter_attr_val_t]

    A type tag and a union; [raw] is the first byte of the union, which is
    what both [val.b] and [val.u8] denote. *)

Inductive esp_matter_val_type_t :=
| ESP_MATTER_VAL_TYPE_INVALID
| ESP_MATTER_VAL_TYPE_BOOLEAN
| ESP_MATTER_VAL_TYPE_BITMAP8.

Record esp_matter_attr_val_t := AttrVal {
  type : esp_matter_val_type_t;
  raw : Z
}.

#[global] Instance val_type_eq_dec : EqDecision esp_matter_val_type_t.
Proof. solve_decision. Defined.

#[global] Instance attr_val_eq_dec : EqDecision esp_matter_attr_val_t.
Proof. solve_decision. Defined.

(** [v.val.b] and the assignment [v.val.b = b]. *)
Definition val_b (v : esp_matter_attr_val_t) : bool := negb (raw v =? 0).
Definition set_val_b (v : esp_matter_attr_val_t) (b : bool) : esp_matter_attr_val_t :=
  AttrVal (type v) (Z.b2z b).

(** [v.val.u8] and the assignment [v.val.u8 = x]. *)
Definition val_u8 (v : esp_matter_attr_val_t) : Z := raw v mod 256.
Definition set_val_u8 (v : esp_matter_attr_val_t) (x : Z) : esp_matter_attr_val_t :=
  AttrVal (type v) (x mod 256).

(** [esp_matter_invalid(NULL)], [esp_matter_bool(b)], [esp_matter_bitmap8(x)]. *)
Definition esp_matter_invalid : esp_matter_attr_val_t :=
  AttrVal ESP_MATTER_VAL_TYPE_INVALID 0.
Definition esp_matter_bool (b : bool) : esp_matter_attr_val_t :=
  AttrVal ESP_MATTER_VAL_TYPE_BOOLEAN (Z.b2z b).
Definition esp_matter_bitmap8 (x : Z) : esp_matter_attr_val_t :=
  AttrVal ESP_MATTER_VAL_TYPE_BITMAP8 (x mod 256).

(** ** Handles

    An attribute is addressed by its path (endpoint, cluster, attribute);
    a handle is either NULL or the path it was resolved from. *)

Definition path : Type := Z * Z * Z.
Definition endpoint_t : Type := option Z.
Definition cluster_t : Type := option (Z * Z).
Definition attribute_t : Type := option path.

(** ** Board pins, global variables *)

Inductive pin := D0 | D1 | D8 | D9.

#[global] Instance pin_eq_dec : EqDecision pin.
Proof. solve_decision. Defined.

Definition LOW : Z := 0.
Definition HIGH : Z := 1.

(** The integer globals of the sketches and their handle globals. *)
Inductive var :=
| last_toggle
| light_endpoint_id
| plugin_unit_endpoint_id_1
| plugin_unit_endpoint_id_2
| curtain_endpoint_id.

Inductive refvar := attribute_ref | attribute_ref_1 | attribute_ref_2.

#[global] Instance var_eq_dec : EqDecision var.
Proof. solve_decision. Defined.

#[global] Instance refvar_eq_dec : EqDecision refvar.
Proof. solve_decision. Defined.

(** The device types the sketches instantiate, with the one default of
    their config struct that the sketches set and later read. *)
Inductive device :=
| on_off_light (on_off : bool)
| on_off_plugin_unit (on_off : bool)
| window_covering_device (operational_status : Z).

Inductive printable := PStr (s : string) | PNum (n : Z) | PNewline.

(** ** Programs

    The calls a sketch makes, indexed by the type of their result, and
    the programs built from them. *)

Inductive event : Type -> Type :=
| Millis : event Z
| DigitalRead (p : pin) : event Z
| DigitalWrite (p : pin) (level : bool) : event unit
| PinMode (p : pin) (output : bool) : event unit
| SerialPrint (x : printable) : event unit
| ReadVar (x : var) : event Z
| AssignVar (x : var) (v : Z) : event unit
| ReadRef (r : refvar) : event attribute_t
| AssignRef (r : refvar) (a : attribute_t) : event unit
| NodeCreate : event unit
| EndpointCreate (d : device) : event endpoint_t
| EndpointGetId (e : endpoint_t) : event Z
| ClusterGet (e : endpoint_t) (cluster_id : Z) : event cluster_t
| AttributeGet (c : cluster_t) (attribute_id : Z) : event attribute_t
| AttributeGetVal (a : attribute_t) (out : esp_matter_attr_val_t) : event esp_matter_attr_val_t
| AttributeUpdate (endpoint_id cluster_id attribute_id : Z) (v : esp_matter_attr_val_t) : event Z.

Inductive prog (A : Type) : Type :=
| Ret (a : A)
| Vis {X : Type} (e : event X) (k : X -> prog A).

Arguments Ret {A} a.
Arguments Vis {A X} e k.

Fixpoint bind {A B : Type} (m : prog A) (f : A -> prog B) : prog B :=
  match m with
  | Ret a => f a
  | Vis e k => Vis e (fun x => bind (k x) f)
  end.

Definition call {X : Type} (e : event X) : prog X := Vis e Ret.

#[global] Instance prog_ret : MRet prog := @Ret.
#[global] Instance prog_bind : MBind prog := fun A B f m => bind m f.

Definition callback_t : Type :=
  callback_type_t -> Z -> Z -> Z -> esp_matter_attr_val_t -> prog Z.

(** ** The world the programs run in *)

Inductive origin := ByLoop | ByController.

#[global] Instance origin_eq_dec : EqDecision origin.
Proof. solve_decision. Defined.

(** What an outside observer sees happen, newest first in [trace]. *)
Inductive obs :=
| OMillis (c : Z)                       (* [millis()] was read at true time [c] *)
| OPinWrite (p : pin) (level : bool)    (* [digitalWrite(p, level)] *)
| OSerial (x : printable)
| OCommit (o : origin) (a : path) (v : esp_matter_attr_val_t).

Record world := World {
  clock : Z;                                   (* milliseconds since boot, unbounded *)
  pin_in : pin -> Z;                           (* level present on each input pin *)
  pin_out : pin -> bool;                       (* level last driven on each pin *)
  ints : var -> Z;
  refs : refvar -> attribute_t;
  store : gmap path esp_matter_attr_val_t;     (* attribute store of the Matter stack *)
  next_endpoint_id : Z;
  trace : list obs
}.

Definition with_clock (c : Z) (w : world) : world :=
  World c (pin_in w) (pin_out w) (ints w) (refs w) (store w) (next_endpoint_id w) (trace w).
Definition with_pin_in (f : pin -> Z) (w : world) : world :=
  World (clock w) f (pin_out w) (ints w) (refs w) (store w) (next_endpoint_id w) (trace w).
Definition with_pin_out (f : pin -> bool) (w : world) : world :=
  World (clock w) (pin_in w) f (ints w) (refs w) (store w) (next_endpoint_id w) (trace w).
Definition with_ints (f : var -> Z) (w : world) : world :=
  World (clock w) (pin_in w) (pin_out w) f (refs w) (store w) (next_endpoint_id w) (trace w).
Definition with_refs (f : refvar -> attribute_t) (w : world) : world :=
  World (clock w) (pin_in w) (pin_out w) (ints w) f (store w) (next_endpoint_id w) (trace w).
Definition with_store (s : gmap path esp_matter_attr_val_t) (w : world) : world :=
  World (clock w) (pin_in w) (pin_out w) (ints w) (refs w) s (next_endpoint_id w) (trace w).
Definition with_next_endpoint_id (n : Z) (w : world) : world :=
  World (clock w) (pin_in w) (pin_out w) (ints w) (refs w) (store w) n (trace w).
Definition log (o : obs) (w : world) : world :=
  World (clock w) (pin_in w) (pin_out w) (ints w) (refs w) (store w) (next_endpoint_id w)
        (o :: trace w).

(** Static storage is zero-initialised; the buttons are released (the
    inputs are active-low); nothing exists in the Matter data model yet. *)
Definition boot : world :=
  World 0 (fun _ => HIGH) (fun _ => false) (fun _ => 0) (fun _ => None) ∅ 0 [].

(** The primary attribute each device type brings into the data model. *)
Definition device_attribute (d : device) : Z * Z * esp_matter_attr_val_t :=
  match d with
  | on_off_light b => (OnOff_Id, OnOff_Attributes_OnOff_Id, esp_matter_bool b)
  | on_off_plugin_unit b => (OnOff_Id, OnOff_Attributes_OnOff_Id, esp_matter_bool b)
  | window_covering_device s =>
      (WindowCovering_Id, WindowCovering_Attributes_OperationalStatus_Id, esp_matter_bitmap8 s)
  end.

(** Does endpoint [ep] carry cluster [cl]? *)
Definition has_cluster (w : world) (ep cl : Z) : bool :=
  bool_decide (map_Exists (fun (k : path) _ => k.1 = (ep, cl)) (store w)).

(** ** Meaning of the calls

    [handle0] covers every call except the commit of [attribute::update],
    which needs the registered callback and is [framework_commit] below.
    A callback runs under [handle0]: an update requested from inside the
    callback is refused there (none of the callbacks requests one). *)

Definition handle0 {X : Type} (e : event X) (w : world) : X * world :=
  match e in event X return X * world with
  | Millis => (wrap32 (clock w), log (OMillis (clock w)) w)
  | DigitalRead p => (pin_in w p, w)
  | DigitalWrite p l => (tt, log (OPinWrite p l) (with_pin_out (<[p:=l]> (pin_out w)) w))
  | PinMode _ _ => (tt, w)
  | SerialPrint x => (tt, log (OSerial x) w)
  | ReadVar x => (ints w x, w)
  | AssignVar x v => (tt, with_ints (<[x:=v]> (ints w)) w)
  | ReadRef r => (refs w r, w)
  | AssignRef r a => (tt, with_refs (<[r:=a]> (refs w)) w)
  | NodeCreate => (tt, with_next_endpoint_id (next_endpoint_id w + 1) w)
  | EndpointCreate d =>
      let id := next_endpoint_id w in
      let '(cl, attr, v) := device_attribute d in
      (Some id, with_next_endpoint_id (id + 1) (with_store (<[(id, cl, attr):=v]> (store w)) w))
  | EndpointGetId e => (default 65535 e, w)
  | ClusterGet e cl =>
      (match e with
       | Some ep => if has_cluster w ep cl then Some (ep, cl) else None
       | None => None
       end, w)
  | AttributeGet c attr =>
      (match c with
       | Some (ep, cl) => if bool_decide (is_Some (store w !! (ep, cl, attr)))
                          then Some (ep, cl, attr) else None
       | None => None
       end, w)
  | AttributeGetVal a out =>
      (match a with
       | Some k => default out (store w !! k)
       | None => out
       end, w)
  | AttributeUpdate _ _ _ _ => (ESP_FAIL, w)
  end.

Fixpoint interp0 {A : Type} (p : prog A) (w : world) : A * world :=
  match p with
  | Ret a => (a, w)
  | Vis e k => let '(x, w1) := handle0 e w in interp0 (k x) w1
  end.

(** What the environment does between two calls of the loop task: time
    passes, a button changes level, a controller writes an attribute. *)
Inductive env_action :=
| Tick (d : N)
| SetPin (p : pin) (level : Z)
| RemoteWrite (endpoint_id cluster_id attribute_id : Z) (v : esp_matter_attr_val_t).

(** One batch of environment actions per call of the program. *)
Definition schedule : Type := list (list env_action).

Section Semantics.

(** The callback registered with [node::create]. *)
Variable callback : callback_t.

(** Modelled from the spec: the commit path of the esp-matter stack,
    which is not part of this repository.  The callback is notified
    before the value is committed (PRE_UPDATE) and can veto it, then the
    value is stored and the callback notified again (POST_UPDATE).  A path
    that does not exist in the data model is refused. *)
Definition framework_commit (o : origin) (ep cl attr : Z)
    (v : esp_matter_attr_val_t) (w : world) : Z * world :=
  match store w !! (ep, cl, attr) with
  | None => (ESP_ERR_INVALID_ARG, w)
  | Some _ =>
      let '(r, w1) := interp0 (callback PRE_UPDATE ep cl attr v) w in
      if r =? ESP_OK then
        let w2 := log (OCommit o (ep, cl, attr) v)
                      (with_store (<[(ep, cl, attr):=v]> (store w1)) w1) in
        let '(_, w3) := interp0 (callback POST_UPDATE ep cl attr v) w2 in
        (ESP_OK, w3)
      else (r, w1)
  end.

Definition handle {X : Type} (e : event X) (w : world) : X * world :=
  match e in event X return X * world with
  | AttributeUpdate ep cl attr v => framework_commit ByLoop ep cl attr v w
  | e' => handle0 e' w
  end.

Definition apply_env (w : world) (a : env_action) : world :=
  match a with
  | Tick d => with_clock (clock w + Z.of_N d) w
  | SetPin p l => with_pin_in (<[p:=l]> (pin_in w)) w
  | RemoteWrite ep cl attr v => (framework_commit ByController ep cl attr v w).2
  end.

Definition apply_envs (w : world) (b : list env_action) : world :=
  fold_left apply_env b w.

(** Run a program to completion; before each of its calls the environment
    performs the next batch of the schedule (none once it is exhausted). *)
Fixpoint run {A : Type} (p : prog A) (s : schedule) (w : world) : A * world :=
  match p with
  | Ret a => (a, w)
  | Vis e k =>
      let '(x, w1) := handle e (apply_envs w (hd [] s)) in
      run (k x) (tl s) w1
  end.

(** The Arduino runtime calls [loop] again and again; each call gets its
    own schedule. *)
Definition run_polls (loop : prog unit) (ss : list schedule) (w : world) : world :=
  fold_left (fun w s => (run loop s w).2) ss w.

End Semantics.

(** ** The sketches

    Left out of every [setup], having no bearing on what follows:
    [Serial.begin], [esp_log_level_set], [set_custom_dac_provider],
    [esp_matter::start] and the printing of the onboarding codes. *)

Definition OUTPUT : bool := true.
Definition INPUT : bool := false.

Definition print (x : printable) : prog unit := call (SerialPrint x).
Definition println (x : printable) : prog unit := print x;; print PNewline.

(** *** The on/off light: auto-curtain/src/main.cpp, and with the same
    code both sketches of unnamed/part_001 *)
Module Light.

Definition LED_PIN : pin := D0.
Definition TOGGLE_BUTTON_PIN : pin := D9.
Definition DEBOUNCE_DELAY : Z := 500.
Definition CLUSTER_ID : Z := OnOff_Id.
Definition ATTRIBUTE_ID : Z := OnOff_Attributes_OnOff_Id.

Definition on_attribute_update : callback_t :=
  fun type endpoint_id cluster_id attribute_id val =>
  id ← call (ReadVar light_endpoint_id);
  (if bool_decide (type = PRE_UPDATE) && (endpoint_id =? id) &&
      (cluster_id =? CLUSTER_ID) && (attribute_id =? ATTRIBUTE_ID)
   then
     let new_state := val_b val in
     call (DigitalWrite LED_PIN new_state)
   else mret tt);;
  mret ESP_OK.

Definition setup : prog unit :=
  call (PinMode LED_PIN OUTPUT);;
  call (PinMode TOGGLE_BUTTON_PIN INPUT);;
  call NodeCreate;;
  endpoint ← call (EndpointCreate (on_off_light false));
  c ← call (ClusterGet endpoint CLUSTER_ID);
  a ← call (AttributeGet c ATTRIBUTE_ID);
  call (AssignRef attribute_ref a);;
  id ← call (EndpointGetId endpoint);
  call (AssignVar light_endpoint_id id).

Definition get_onoff_attribute_value : prog esp_matter_attr_val_t :=
  let onoff_value := esp_matter_invalid in
  a ← call (ReadRef attribute_ref);
  call (AttributeGetVal a onoff_value).

Definition set_onoff_attribute_value (onoff_value : esp_matter_attr_val_t) : prog unit :=
  id ← call (ReadVar light_endpoint_id);
  call (AttributeUpdate id CLUSTER_ID ATTRIBUTE_ID onoff_value);;
  mret tt.

(** The read-invert-set block inside [loop] (main.cpp lines 167-169). *)
Definition toggle : prog unit :=
  onoff_value ← get_onoff_attribute_value;
  set_onoff_attribute_value (set_val_b onoff_value (negb (val_b onoff_value))).

Definition loop : prog unit :=
  now ← call Millis;
  lt ← call (ReadVar last_toggle);
  if DEBOUNCE_DELAY <? usub now lt then
    level ← call (DigitalRead TOGGLE_BUTTON_PIN);
    if lnot level then
      t ← call Millis;
      call (AssignVar last_toggle (to_int t));;
      toggle
    else mret tt
  else mret tt.

End Light.

(** *** The plug-in unit with two endpoints: TwoEndpointsPluginUnit.cpp *)
Module TwoEndpoints.

Definition LED_PIN_1 : pin := D0.
Definition LED_PIN_2 : pin := D1.
Definition TOGGLE_BUTTON_PIN_1 : pin := D9.
Definition TOGGLE_BUTTON_PIN_2 : pin := D8.
Definition DEBOUNCE_DELAY : Z := 500.
Definition CLUSTER_ID : Z := OnOff_Id.
Definition ATTRIBUTE_ID : Z := OnOff_Attributes_OnOff_Id.

Definition on_attribute_update : callback_t :=
  fun type endpoint_id cluster_id attribute_id val =>
  (if bool_decide (type = PRE_UPDATE) &&
      (cluster_id =? CLUSTER_ID) && (attribute_id =? ATTRIBUTE_ID)
   then
     let new_state := val_b val in
     id_1 ← call (ReadVar plugin_unit_endpoint_id_1);
     if endpoint_id =? id_1 then
       call (DigitalWrite LED_PIN_1 new_state)
     else
       id_2 ← call (ReadVar plugin_unit_endpoint_id_2);
       if endpoint_id =? id_2 then
         call (DigitalWrite LED_PIN_2 new_state)
       else mret tt
   else mret tt);;
  mret ESP_OK.

Definition setup : prog unit :=
  call (PinMode LED_PIN_1 OUTPUT);;
  call (PinMode LED_PIN_2 OUTPUT);;
  call (PinMode TOGGLE_BUTTON_PIN_1 INPUT);;
  call (PinMode TOGGLE_BUTTON_PIN_2 INPUT);;
  call NodeCreate;;
  endpoint_1 ← call (EndpointCreate (on_off_plugin_unit false));
  endpoint_2 ← call (EndpointCreate (on_off_plugin_unit false));
  c_1 ← call (ClusterGet endpoint_1 CLUSTER_ID);
  a_1 ← call (AttributeGet c_1 ATTRIBUTE_ID);
  call (AssignRef attribute_ref_1 a_1);;
  c_2 ← call (ClusterGet endpoint_2 CLUSTER_ID);
  a_2 ← call (AttributeGet c_2 ATTRIBUTE_ID);
  call (AssignRef attribute_ref_2 a_2);;
  id_1 ← call (EndpointGetId endpoint_1);
  call (AssignVar plugin_unit_endpoint_id_1 id_1);;
  id_2 ← call (EndpointGetId endpoint_2);
  call (AssignVar plugin_unit_endpoint_id_2 id_2).

Definition get_onoff_attribute_value (attribute_ref : attribute_t)
  : prog esp_matter_attr_val_t :=
  let onoff_value := esp_matter_invalid in
  call (AttributeGetVal attribute_ref onoff_value).

Definition set_onoff_attribute_value (onoff_value : esp_matter_attr_val_t)
    (plugin_unit_endpoint_id : Z) : prog unit :=
  call (AttributeUpdate plugin_unit_endpoint_id CLUSTER_ID ATTRIBUTE_ID onoff_value);;
  mret tt.

(** The read-invert-set block of each button (lines 176-178, 184-186). *)
Definition toggle (r : refvar) (x : var) : prog unit :=
  a ← call (ReadRef r);
  onoff_value ← get_onoff_attribute_value a;
  id ← call (ReadVar x);
  set_onoff_attribute_value (set_val_b onoff_value (negb (val_b onoff_value))) id.

Definition loop : prog unit :=
  now ← call Millis;
  lt ← call (ReadVar last_toggle);
  if DEBOUNCE_DELAY <? usub now lt then
    level_1 ← call (DigitalRead TOGGLE_BUTTON_PIN_1);
    (if lnot level_1 then
       t ← call Millis;
       call (AssignVar last_toggle (to_int t));;
       toggle attribute_ref_1 plugin_unit_endpoint_id_1
     else mret tt);;
    level_2 ← call (DigitalRead TOGGLE_BUTTON_PIN_2);
    if lnot level_2 then
      t ← call Millis;
      call (AssignVar last_toggle (to_int t));;
      toggle attribute_ref_2 plugin_unit_endpoint_id_2
    else mret tt
  else mret tt.

End TwoEndpoints.

(** *** The window covering: unnamed/part_000 *)
Module Curtain.

Definition LED_PIN : pin := D0.
Definition TOGGLE_BUTTON_PIN : pin := D9.
Definition DEBOUNCE_DELAY : Z := 500.

Definition CURTAIN_CLUSTER_ID : Z := WindowCovering_Id.
Definition CURTAIN_ATTRIBUTE_ID : Z := WindowCovering_Attributes_OperationalStatus_Id.

(** [bool new_state = val->val.b] is compiled to a copy of the byte the
    union holds, and [Serial.println(new_state)] to [println(int)] of that
    byte: an operational status of 5 is printed as 5.  The [digitalWrite]
    of the light sketch is commented out here (line 98). *)
Definition on_attribute_update : callback_t :=
  fun type endpoint_id cluster_id attribute_id val =>
  (if bool_decide (type = PRE_UPDATE) then
     print (PStr "Update on endpoint: ");;
     print (PNum endpoint_id);;
     print (PStr " cluster: ");;
     print (PNum cluster_id);;
     print (PStr " attribute: ");;
     println (PNum attribute_id);;
     id ← call (ReadVar curtain_endpoint_id);
     if (endpoint_id =? id) &&
        (cluster_id =? CURTAIN_CLUSTER_ID) && (attribute_id =? CURTAIN_ATTRIBUTE_ID)
     then
       let new_state := val_u8 val in
       print (PStr "New state: ");;
       println (PNum new_state)
     else mret tt
   else mret tt);;
  mret ESP_OK.

Definition get_curtain_attribute_value : prog esp_matter_attr_val_t :=
  let curtain_value := esp_matter_invalid in
  a ← call (ReadRef attribute_ref);
  call (AttributeGetVal a curtain_value).

Section Undeclared.

(** [setup] and [set_curtain_attribute_value] use the names [CLUSTER_ID]
    and [ATTRIBUTE_ID], which the sketch does not declare: the
    declarations that gave them the on/off identifiers are commented out
    (lines 29-30).  What uses them takes them as parameters. *)
Variables CLUSTER_ID ATTRIBUTE_ID : Z.

Definition setup : prog unit :=
  call (PinMode LED_PIN OUTPUT);;
  call (PinMode TOGGLE_BUTTON_PIN INPUT);;
  call NodeCreate;;
  endpoint ← call (EndpointCreate (window_covering_device 0));
  c ← call (ClusterGet endpoint CLUSTER_ID);
  a ← call (AttributeGet c ATTRIBUTE_ID);
  call (AssignRef attribute_ref a);;
  id ← call (EndpointGetId endpoint);
  call (AssignVar curtain_endpoint_id id).

Definition set_curtain_attribute_value (curtain_value : esp_matter_attr_val_t) : prog unit :=
  id ← call (ReadVar curtain_endpoint_id);
  call (AttributeUpdate id CLUSTER_ID ATTRIBUTE_ID curtain_value);;
  mret tt.

(** The read-invert-set block inside [loop] (lines 210-212). *)
Definition toggle : prog unit :=
  curtain_value ← get_curtain_attribute_value;
  set_curtain_attribute_value
    (set_val_u8 curtain_value (Z.b2z (lnot (val_u8 curtain_value)))).

Definition loop : prog unit :=
  now ← call Millis;
  lt ← call (ReadVar last_toggle);
  if DEBOUNCE_DELAY <? usub now lt then
    level ← call (DigitalRead TOGGLE_BUTTON_PIN);
    if lnot level then
      t ← call Millis;
      call (AssignVar last_toggle (to_int t));;
      toggle
    else mret tt
  else mret tt.

End Undeclared.

End Curtain.

(** *** The light with a setup payload of its own: the second sketch of
    unnamed/part_001

    Its callback, accessors and [loop] are those of [Light], line for
    line; [setup] reports its progress on the serial port and ends with
    [GenerateCustomQRCode] instead of the stock onboarding codes.  The
    validity checks of the setup payload belong to the Matter SDK and are
    parameters here.  [ResetProvisioning] and [ResetNodeId] are defined by
    the sketch and called nowhere. *)
Module CustomLight.

Definition LED_PIN : pin := D0.
Definition TOGGLE_BUTTON_PIN : pin := D9.
Definition CLUSTER_ID : Z := OnOff_Id.
Definition ATTRIBUTE_ID : Z := OnOff_Attributes_OnOff_Id.

Definition CHIP_DEVICE_CONFIG_USE_TEST_SETUP_PIN_CODE : Z := 20241214.
Definition CHIP_DEVICE_CONFIG_USE_TEST_SETUP_DISCRIMINATOR : Z := 3841.   (* 0xF01 *)

Inductive RendezvousInformationFlag := kBLE.

(** The fields of [chip::PayloadContents] the sketch assigns. *)
Record PayloadContents := Payload {
  vendorID : Z;
  productID : Z;
  setUpPINCode : Z;
  discriminator : Z;
  rendezvousInformation : option RendezvousInformationFlag
}.

Section SDK.

Variables isValidManualCode isValidQRCodePayload : PayloadContents -> bool.
Variable IsValidSetupPIN : Z -> bool.

(** [Serial.println] of a [bool] prints 0 or 1.  The closing
    [PrintOnboardingCodes(payload)] writes to the log of the SDK, not to
    the serial port of the sketch. *)
Definition GenerateCustomQRCode : prog unit :=
  let payload :=
    Payload 1217 5678 CHIP_DEVICE_CONFIG_USE_TEST_SETUP_PIN_CODE
            CHIP_DEVICE_CONFIG_USE_TEST_SETUP_DISCRIMINATOR (Some kBLE) in
  print (PStr "isValidManualCode: ");;
  println (PNum (Z.b2z (isValidManualCode payload)));;
  print (PStr "isValidQRCodePayload: ");;
  println (PNum (Z.b2z (isValidQRCodePayload payload)));;
  print (PStr "IsValidSetupPIN: ");;
  println (PNum (Z.b2z (IsValidSetupPIN (setUpPINCode payload))));;
  println (PNum (Z.b2z (IsValidSetupPIN CHIP_DEVICE_CONFIG_USE_TEST_SETUP_PIN_CODE))).

Definition setup : prog unit :=
  println (PStr "--- Start Settings ---");;
  call (PinMode LED_PIN OUTPUT);;
  call (PinMode TOGGLE_BUTTON_PIN INPUT);;
  println (PStr "Start Matter Settings");;
  println (PStr "Setup Node");;
  call NodeCreate;;
  println (PStr "Setup Light Endpoint");;
  endpoint ← call (EndpointCreate (on_off_light false));
  c ← call (ClusterGet endpoint CLUSTER_ID);
  a ← call (AttributeGet c ATTRIBUTE_ID);
  call (AssignRef attribute_ref a);;
  id ← call (EndpointGetId endpoint);
  call (AssignVar light_endpoint_id id);;
  println (PStr "Setup DAC");;
  println (PStr "Start Matter Device");;
  println (PStr "Print Onboarding Codes");;
  GenerateCustomQRCode;;
  println (PStr "--- Settings Complete ---").

End SDK.

End CustomLight.

(** ** Reading the trace and the schedule *)

Definition pin_writes (t : list obs) : list (pin * bool) :=
  omap (fun o => match o with OPinWrite p l => Some (p, l) | _ => None end) t.

Definition commits_by (who : origin) (t : list obs) : list (path * esp_matter_attr_val_t) :=
  omap (fun o => match o with
                 | OCommit o' a v => if decide (o' = who) then Some (a, v) else None
                 | _ => None
                 end) t.

Definition serial_out (t : list obs) : list printable :=
  omap (fun o => match o with OSerial x => Some x | _ => None end) t.

(** Number of toggles the poller has committed so far. *)
Definition toggles (w : world) : Z := Z.of_nat (length (commits_by ByLoop (trace w))).

Definition is_remote_write (a : env_action) : bool :=
  match a with RemoteWrite _ _ _ _ => true | _ => false end.

(** A schedule in which no controller writes. *)
Definition no_remote_write (s : schedule) : Prop :=
  Forall (Forall (fun a => is_remote_write a = false)) s.

(** Every call a program can make, on every path, satisfies [P]. *)
Inductive all_events (P : forall X, event X -> Prop) {A : Type} : prog A -> Prop :=
| all_events_ret (a : A) : all_events P (Ret a)
| all_events_vis {X : Type} (e : event X) (k : X -> prog A) :
    P X e -> (forall x, all_events P (k x)) -> all_events P (Vis e k).

(** The calls of the poll loop: reads of the clock, of a pin, of the
    globals and of an attribute; the write of [last_toggle]; the request
    to update an attribute. *)
Definition poller_call (X : Type) (e : event X) : Prop :=
  match e with
  | Millis | DigitalRead _ | ReadVar _ | ReadRef _
  | AttributeGetVal _ _ | AttributeUpdate _ _ _ _ => True
  | AssignVar x _ => x = last_toggle
  | _ => False
  end.

(** A callback that only reports success. *)
Definition silent_callback : callback_t := fun _ _ _ _ _ => mret ESP_OK.

(** ** The bound channels of each sketch: attribute path and output pin *)

Definition Light_channels (w : world) : list (path * pin) :=
  [((ints w light_endpoint_id, Light.CLUSTER_ID, Light.ATTRIBUTE_ID), Light.LED_PIN)].

Definition TwoEndpoints_channels (w : world) : list (path * pin) :=
  [((ints w plugin_unit_endpoint_id_1, TwoEndpoints.CLUSTER_ID, TwoEndpoints.ATTRIBUTE_ID),
    TwoEndpoints.LED_PIN_1);
   ((ints w plugin_unit_endpoint_id_2, TwoEndpoints.CLUSTER_ID, TwoEndpoints.ATTRIBUTE_ID),
    TwoEndpoints.LED_PIN_2)].

Definition Curtain_channels (w : world) : list (path * pin) :=
  [((ints w curtain_endpoint_id, Curtain.CURTAIN_CLUSTER_ID, Curtain.CURTAIN_ATTRIBUTE_ID),
    Curtain.LED_PIN)].

(** The world each sketch's [setup] leaves behind. *)
Definition Light_ready : world := (run Light.on_attribute_update Light.setup [] boot).2.
Definition TwoEndpoints_ready : world :=
  (run TwoEndpoints.on_attribute_update TwoEndpoints.setup [] boot).2.
Definition Curtain_ready (CLUSTER_ID ATTRIBUTE_ID : Z) : world :=
  (run Curtain.on_attribute_update (Curtain.setup CLUSTER_ID ATTRIBUTE_ID) [] boot).2.

(** [digitalWrite(p, l)] on a world. *)
Definition drive (p : pin) (l : bool) (w : world) : world :=
  log (OPinWrite p l) (with_pin_out (<[p:=l]> (pin_out w)) w).

(** * Vocabulary of the properties *)

(** The lines the window-covering callback prints for every PRE_UPDATE,
    and those of its curtain branch. *)
Definition Curtain_header (ep cl attr : Z) : list obs :=
  [OSerial PNewline; OSerial (PNum attr); OSerial (PStr " attribute: ");
   OSerial (PNum cl); OSerial (PStr " cluster: ");
   OSerial (PNum ep); OSerial (PStr "Update on endpoint: ")].

Definition Curtain_new_state (v : esp_matter_attr_val_t) : list obs :=
  [OSerial PNewline; OSerial (PNum (val_u8 v)); OSerial (PStr "New state: ")].

Definition say (l : list obs) (w : world) : world :=
  World (clock w) (pin_in w) (pin_out w) (ints w) (refs w) (store w)
        (next_endpoint_id w) (l ++ trace w).

Definition callback_call (X : Type) (e : event X) : Prop :=
  match e with
  | ReadVar _ | DigitalWrite _ _ | SerialPrint _ => True
  | _ => False
  end.

Inductive callback_shape : prog Z -> Prop :=
| shape_ret : callback_shape (Ret ESP_OK)
| shape_vis {X : Type} (e : event X) (k : X -> prog Z) :
    callback_call X e -> (forall x, callback_shape (k x)) -> callback_shape (Vis e k).

Definition well_behaved (cb : callback_t) : Prop :=
  forall type ep cl attr v, callback_shape (cb type ep cl attr v).

(** The part of the trace the poller writes: its clock readings and its
    own commits. *)
Definition on_timeline (o : obs) : bool :=
  match o with
  | OMillis _ => true
  | OCommit ByLoop _ _ => true
  | _ => false
  end.

Definition timeline (t : list obs) : list obs := List.filter on_timeline t.

(** Everything but the pins driven and the trace is the same. *)
Definition same_mem (w w' : world) : Prop :=
  clock w' = clock w /\ pin_in w' = pin_in w /\ ints w' = ints w /\
  refs w' = refs w /\ store w' = store w /\ next_endpoint_id w' = next_endpoint_id w.

(** The value committed and the world it is committed in. *)
Definition commit (o : origin) (a : path) (v : esp_matter_attr_val_t) (w : world) : world :=
  log (OCommit o a v) (with_store (<[a:=v]> (store w)) w).

Definition Light_path (w : world) : path :=
  (ints w light_endpoint_id, Light.CLUSTER_ID, Light.ATTRIBUTE_ID).

Definition Light_bound (w : world) : Prop :=
  refs w attribute_ref = Some (Light_path w) /\ is_Some (store w !! Light_path w).

(** [read_current]: the getter, run on its own. *)
Definition Light_read (w : world) : esp_matter_attr_val_t :=
  (run Light.on_attribute_update Light.get_onoff_attribute_value [] w).1.

Definition flip (v : esp_matter_attr_val_t) : esp_matter_attr_val_t :=
  set_val_b v (negb (val_b v)).

Definition TwoEndpoints_path (w : world) (x : var) : path :=
  (ints w x, TwoEndpoints.CLUSTER_ID, TwoEndpoints.ATTRIBUTE_ID).

Definition TwoEndpoints_bound (w : world) (r : refvar) (x : var) : Prop :=
  refs w r = Some (TwoEndpoints_path w x) /\ is_Some (store w !! TwoEndpoints_path w x).

(** [read_current] of a channel: [get_onoff_attribute_value(attribute_ref_i)]. *)
Definition TwoEndpoints_read (r : refvar) (w : world) : esp_matter_attr_val_t :=
  (run TwoEndpoints.on_attribute_update
       (a ← call (ReadRef r); TwoEndpoints.get_onoff_attribute_value a) [] w).1.

(** The world after a poll of the light sketch that toggles. *)
Definition Light_fired (v : esp_matter_attr_val_t) (W : world) : world :=
  commit ByLoop (Light_path W) (flip v)
    (drive Light.LED_PIN (val_b (flip v))
       (with_ints (<[last_toggle := to_int (wrap32 (clock W))]> (ints W))
          (log (OMillis (clock W)) (log (OMillis (clock W)) W)))).


(** The poller would fire on a press now. *)
Definition Light_armed (w : world) : Prop :=
  Light.DEBOUNCE_DELAY < usub (wrap32 (clock w)) (ints w last_toggle).

(** One millisecond passes, then [loop] runs. *)
Definition tick_ms : schedule := [[Tick 1]].

(** The button goes down as a poll starts, stays down while [loop] runs
    once every millisecond, [H] polls in all, is let go one millisecond
    after the last of them, and [rest] more polls follow. *)
Definition press_hold_release (btn : pin) (H rest : nat) : list schedule :=
  [[SetPin btn LOW]] :: repeat tick_ms (H - 1) ++
  [[Tick 1; SetPin btn HIGH]] :: repeat tick_ms rest.

Definition Light_polls (ss : list schedule) (w : world) : world :=
  run_polls Light.on_attribute_update Light.loop ss w.

(** One second after [setup], nothing pressed yet. *)
Definition Light_idle : world :=
  apply_envs Light.on_attribute_update Light_ready [Tick 1000].

(** Nothing has been toggled and [last_toggle] still holds its boot value. *)
Definition untouched (w : world) : Prop :=
  ints w last_toggle = 0 /\ commits_by ByLoop (trace w) = [] /\ 0 <= clock w.

(** The calls of [setup]: it configures pins, builds the data model and
    assigns the endpoint and handle globals, never [last_toggle]. *)
Definition setup_call (X : Type) (e : event X) : Prop :=
  match e with
  | PinMode _ _ | NodeCreate | EndpointCreate _ | EndpointGetId _
  | ClusterGet _ _ | AttributeGet _ _ | AssignRef _ _ => True
  | AssignVar x _ => x <> last_toggle
  | _ => False
  end.

(** The pins driven and the globals other than [last_toggle] are as they
    were. *)
Definition poller_frame (w w' : world) : Prop :=
  pin_out w' = pin_out w /\ pin_writes (trace w') = pin_writes (trace w) /\
  refs w' = refs w /\ (forall x, x <> last_toggle -> ints w' x = ints w x).

Definition TwoEndpoints_poll (s : schedule) (w : world) : world :=
  (run TwoEndpoints.on_attribute_update TwoEndpoints.loop s w).2.

Definition TwoEndpoints_armed (w : world) : Prop :=
  TwoEndpoints.DEBOUNCE_DELAY < usub (wrap32 (clock w)) (ints w last_toggle).

(** [last_toggle = millis()]. *)
Definition stamp (W : world) : world :=
  with_ints (<[last_toggle := to_int (wrap32 (clock W))]> (ints W))
            (log (OMillis (clock W)) W).

(** The world after one button's branch of [loop] has run. *)
Definition TwoEndpoints_fired (x : var) (led : pin) (v : esp_matter_attr_val_t)
    (W : world) : world :=
  commit ByLoop (TwoEndpoints_path W x) (flip v) (drive led (val_b (flip v)) (stamp W)).

Definition TwoEndpoints_ids_distinct (w : world) : Prop :=
  ints w plugin_unit_endpoint_id_1 <> ints w plugin_unit_endpoint_id_2.

Definition TwoEndpoints_idle : world :=
  apply_envs TwoEndpoints.on_attribute_update TwoEndpoints_ready [Tick 1000].

(** The batches of [press_hold_release]. *)
Definition press_batch (btn : pin) (b : list env_action) : Prop :=
  b = [SetPin btn LOW] \/ b = [Tick 1] \/ b = [Tick 1; SetPin btn HIGH].

(** After [j] polls of a press of [btn], in worlds that are [good]: the
    last trigger was at [L], [n] toggles so far, one every 501 polls. *)
Definition held_at (good : world -> Prop) (btn : pin) (T0 j n : Z) (w : world) : Prop :=
  good w /\ pin_in w btn = LOW /\
  exists L, ints w last_toggle = to_int (wrap32 L) /\ 0 <= clock w - L <= 500 /\
            toggles w = T0 + n /\ 501 * (n - 1) + (clock w - L) = j - 1.

Definition released_at (good : world -> Prop) (btn : pin) (T : Z) (w : world) : Prop :=
  good w /\ pin_in w btn = HIGH /\ toggles w = T.

Definition TwoEndpoints_good (other : pin) (w : world) : Prop :=
  TwoEndpoints_bound w attribute_ref_1 plugin_unit_endpoint_id_1 /\
  TwoEndpoints_bound w attribute_ref_2 plugin_unit_endpoint_id_2 /\
  TwoEndpoints_ids_distinct w /\ pin_in w other = HIGH.

(** A button, the other button, and the endpoint and LED of its channel. *)
Definition TwoEndpoints_button (btn other : pin) (x : var) (led : pin) : Prop :=
  (btn, other, x, led) =
    (TwoEndpoints.TOGGLE_BUTTON_PIN_1, TwoEndpoints.TOGGLE_BUTTON_PIN_2,
     plugin_unit_endpoint_id_1, TwoEndpoints.LED_PIN_1) \/
  (btn, other, x, led) =
    (TwoEndpoints.TOGGLE_BUTTON_PIN_2, TwoEndpoints.TOGGLE_BUTTON_PIN_1,
     plugin_unit_endpoint_id_2, TwoEndpoints.LED_PIN_2).

(** The number [n] of toggles of a press held for [H] ms. *)
Definition refire_count (H : nat) (n : Z) : Prop :=
  n = (Z.of_nat H + Light.DEBOUNCE_DELAY) / (Light.DEBOUNCE_DELAY + 1) /\
  ((H <= 501)%nat -> n = 1) /\
  ((501 < H <= 1002)%nat -> n = 2) /\
  (forall k : Z, 1 <= k <= 500 -> Z.of_nat H = Light.DEBOUNCE_DELAY * k -> n = k).

(** The clock reading made last. *)
Fixpoint last_millis (t : list obs) : Z :=
  match t with
  | [] => 0
  | OMillis c :: _ => c
  | _ :: t' => last_millis t'
  end.

(** The toggles the poller committed, newest first, each with the time
    recorded for it: the reading of [millis()] made just before, which is
    the one [loop] assigns to [last_toggle]. *)
Fixpoint triggers (t : list obs) : list (path * Z) :=
  match t with
  | [] => []
  | OCommit ByLoop a _ :: t' => (a, last_millis t') :: triggers t'
  | _ :: t' => triggers t'
  end.

(** The times at which channel [a] was triggered, newest first. *)
Definition times_of (a : path) (l : list (path * Z)) : list Z :=
  omap (fun x : path * Z => if decide (x.1 = a) then Some x.2 else None) l.

(** Consecutive times differ by more than [window]. *)
Fixpoint spaced (window : Z) (l : list Z) : Prop :=
  match l with
  | t2 :: r => match r with
               | t1 :: _ => window < t2 - t1
               | [] => True
               end /\ spaced window r
  | [] => True
  end.

(** No trigger is later than [L]. *)
Definition bounded (L : Z) (T : list obs) : Prop :=
  forall a t, (a, t) ∈ triggers T -> t <= L.

(** Every channel's triggers are more than 500 ms apart. *)
Definition well_spaced (T : list obs) : Prop :=
  forall a, spaced 500 (times_of a (triggers T)).

(** [last_toggle] holds a clock reading [L] of the past, no trigger is
    later than [L], and every channel's triggers are well spaced. *)
Definition debounce_inv (w : world) : Prop :=
  exists L, ints w last_toggle = to_int (wrap32 L) /\ L <= clock w /\
            bounded L (timeline (trace w)) /\ well_spaced (timeline (trace w)).

(** The poller has not triggered channel [a] since 500 ms before [c0]. *)
Definition armed_for (c0 : Z) (a : path) (T : list obs) : Prop :=
  forall t, (a, t) ∈ triggers T -> t + 500 < c0.

(** The invariant inside a poll that passed the debounce comparison at
    time [c0]. *)
Definition mid (c0 : Z) (w : world) : Prop :=
  exists L, ints w last_toggle = to_int (wrap32 L) /\ L <= clock w /\ c0 <= clock w /\
            bounded L (timeline (trace w)) /\ well_spaced (timeline (trace w)).

Definition same_ids (w w' : world) : Prop :=
  forall y, y <> last_toggle -> ints w' y = ints w y.

(** The shape the loops share: the debounce comparison guarding the
    body, and in the body one branch per button. *)
Definition debounced (q : prog unit) : prog unit :=
  now ← call Millis;
  lt ← call (ReadVar last_toggle);
  if 500 <? usub now lt then q else mret tt.

Definition stamp_and_toggle (r : refvar) (x : var) : prog unit :=
  t ← call Millis;
  call (AssignVar last_toggle (to_int t));;
  TwoEndpoints.toggle r x.

Definition button_branch (btn : pin) (r : refvar) (x : var) : prog unit :=
  level ← call (DigitalRead btn);
  if lnot level then stamp_and_toggle r x else mret tt.

Definition all_commits (t : list obs) : list (origin * path * esp_matter_attr_val_t) :=
  omap (fun o => match o with OCommit o' a v => Some (o', a, v) | _ => None end) t.


(** ** Vocabulary of the whole-program properties *)

(** The calls of a [setup], the reports on the serial port included. *)
Definition bringup_call (X : Type) (e : event X) : Prop :=
  match e with
  | SerialPrint _ => True
  | _ => setup_call X e
  end.

(** What a [setup] works on: everything but the clock and the levels on
    the input pins. *)
Definition setup_view (w : world) :
    (pin -> bool) * (var -> Z) * (refvar -> attribute_t) *
    gmap path esp_matter_attr_val_t * Z * list obs :=
  (pin_out w, ints w, refs w, store w, next_endpoint_id w, trace w).

(** [get_curtain_attribute_value], run on its own. *)
Definition Curtain_read (w : world) : esp_matter_attr_val_t :=
  (run Curtain.on_attribute_update Curtain.get_curtain_attribute_value [] w).1.

(** The path the window-covering sketch resolves in [setup] and asks to
    update in [set_curtain_attribute_value], under the identifiers given
    to [CLUSTER_ID] and [ATTRIBUTE_ID]; and the path its callback matches. *)
Definition Curtain_requested_path (CLUSTER_ID ATTRIBUTE_ID : Z) (w : world) : path :=
  (ints w curtain_endpoint_id, CLUSTER_ID, ATTRIBUTE_ID).

Definition Curtain_path (w : world) : path :=
  (ints w curtain_endpoint_id, Curtain.CURTAIN_CLUSTER_ID, Curtain.CURTAIN_ATTRIBUTE_ID).

(** [curtain_value.val.u8 = !curtain_value.val.u8]. *)
Definition inverted_u8 (v : esp_matter_attr_val_t) : esp_matter_attr_val_t :=
  set_val_u8 v (Z.b2z (lnot (val_u8 v))).

(** The resolution in [setup] has failed: the handle is NULL and the
    requested path is not in the data model; and the poller has committed
    nothing. *)
Definition Curtain_unbound (CLUSTER_ID ATTRIBUTE_ID : Z) (w : world) : Prop :=
  refs w attribute_ref = None /\
  store w !! Curtain_requested_path CLUSTER_ID ATTRIBUTE_ID w = None /\
  commits_by ByLoop (trace w) = [].

Definition Curtain_armed (w : world) : Prop :=
  Curtain.DEBOUNCE_DELAY < usub (wrap32 (clock w)) (ints w last_toggle).

(** A call that drives no pin outside [P]. *)
Definition drives_only (P : pin -> Prop) (X : Type) (e : event X) : Prop :=
  match e with
  | DigitalWrite p _ => P p
  | _ => True
  end.

(** Every pin driven so far is in [P]; the others are as at boot. *)
Definition pins_kept (P : pin -> Prop) (w : world) : Prop :=
  Forall (fun pl : pin * bool => P pl.1) (pin_writes (trace w)) /\
  forall p, ~ P p -> pin_out w p = false.

(** Channel ([r], [x], [led]): the handle [r] is bound to the on/off
    attribute of endpoint [x], which exists, and [led] shows its value. *)
Definition channel_synced (r : refvar) (x : var) (led : pin) (w : world) : Prop :=
  exists v, refs w r = Some (TwoEndpoints_path w x) /\
            store w !! TwoEndpoints_path w x = Some v /\ pin_out w led = val_b v.

Definition Light_synced (w : world) : Prop :=
  channel_synced attribute_ref light_endpoint_id Light.LED_PIN w.

Definition TwoEndpoints_synced (w : world) : Prop :=
  TwoEndpoints_ids_distinct w /\
  channel_synced attribute_ref_1 plugin_unit_endpoint_id_1 TwoEndpoints.LED_PIN_1 w /\
  channel_synced attribute_ref_2 plugin_unit_endpoint_id_2 TwoEndpoints.LED_PIN_2 w.

(** A controller writes [v] to the attribute at [a]. *)
Definition remote_write (a : path) (v : esp_matter_attr_val_t) : env_action :=
  RemoteWrite a.1.1 a.1.2 a.2 v.

(** * Properties *)

(** ** The callbacks, as equations *)

Lemma Light_callback_eq type ep cl attr v w :
  interp0 (Light.on_attribute_update type ep cl attr v) w =
  (ESP_OK,
   if bool_decide (type = PRE_UPDATE) && (ep =? ints w light_endpoint_id) &&
      (cl =? Light.CLUSTER_ID) && (attr =? Light.ATTRIBUTE_ID)
   then drive Light.LED_PIN (val_b v) w else w).
Proof.
  unfold Light.on_attribute_update. cbn.
  destruct (bool_decide (type = PRE_UPDATE) && (ep =? ints w light_endpoint_id) &&
            (cl =? Light.CLUSTER_ID) && (attr =? Light.ATTRIBUTE_ID)); reflexivity.
Qed.

Lemma TwoEndpoints_callback_eq type ep cl attr v w :
  interp0 (TwoEndpoints.on_attribute_update type ep cl attr v) w =
  (ESP_OK,
   if bool_decide (type = PRE_UPDATE) &&
      (cl =? TwoEndpoints.CLUSTER_ID) && (attr =? TwoEndpoints.ATTRIBUTE_ID)
   then
     if ep =? ints w plugin_unit_endpoint_id_1
     then drive TwoEndpoints.LED_PIN_1 (val_b v) w
     else if ep =? ints w plugin_unit_endpoint_id_2
          then drive TwoEndpoints.LED_PIN_2 (val_b v) w
          else w
   else w).
Proof.
  unfold TwoEndpoints.on_attribute_update. cbn.
  destruct (bool_decide (type = PRE_UPDATE) &&
            (cl =? TwoEndpoints.CLUSTER_ID) && (attr =? TwoEndpoints.ATTRIBUTE_ID));
    [|reflexivity].
  cbn. destruct (ep =? ints w plugin_unit_endpoint_id_1); [reflexivity|].
  cbn. destruct (ep =? ints w plugin_unit_endpoint_id_2); reflexivity.
Qed.

Lemma Curtain_callback_eq type ep cl attr v w :
  interp0 (Curtain.on_attribute_update type ep cl attr v) w =
  (ESP_OK,
   if bool_decide (type = PRE_UPDATE) then
     if (ep =? ints w curtain_endpoint_id) &&
        (cl =? Curtain.CURTAIN_CLUSTER_ID) && (attr =? Curtain.CURTAIN_ATTRIBUTE_ID)
     then say (Curtain_new_state v ++ Curtain_header ep cl attr) w
     else say (Curtain_header ep cl attr) w
   else w).
Proof.
  unfold Curtain.on_attribute_update.
  destruct (bool_decide (type = PRE_UPDATE)); [|reflexivity].
  cbn.
  destruct ((ep =? ints w curtain_endpoint_id) &&
            (cl =? Curtain.CURTAIN_CLUSTER_ID) && (attr =? Curtain.CURTAIN_ATTRIBUTE_ID));
    reflexivity.
Qed.

(** ** What any of the callbacks can do

    A callback of these sketches reads globals, drives pins and prints,
    and returns [ESP_OK]. *)

Lemma same_mem_refl w : same_mem w w.
Proof. repeat split. Qed.

Lemma same_mem_trans w1 w2 w3 : same_mem w1 w2 -> same_mem w2 w3 -> same_mem w1 w3.
Proof. unfold same_mem. intuition congruence. Qed.

Ltac shape_tac :=
  repeat first
    [ apply shape_ret
    | apply shape_vis; [exact I | intros ?]
    | match goal with |- context [if ?c then _ else _] => destruct c end
    | progress cbn ].

Lemma Light_callback_well_behaved : well_behaved Light.on_attribute_update.
Proof. intros type ep cl attr v. unfold Light.on_attribute_update. shape_tac. Qed.

Lemma TwoEndpoints_callback_well_behaved : well_behaved TwoEndpoints.on_attribute_update.
Proof. intros type ep cl attr v. unfold TwoEndpoints.on_attribute_update. shape_tac. Qed.

Lemma Curtain_callback_well_behaved : well_behaved Curtain.on_attribute_update.
Proof. intros type ep cl attr v. unfold Curtain.on_attribute_update. shape_tac. Qed.

Lemma silent_callback_well_behaved : well_behaved silent_callback.
Proof. intros type ep cl attr v. apply shape_ret. Qed.

Lemma callback_frame p :
  callback_shape p ->
  forall w, (interp0 p w).1 = ESP_OK /\ same_mem w (interp0 p w).2 /\
            timeline (trace (interp0 p w).2) = timeline (trace w).
Proof.
  induction 1 as [|X e k He Hk IH]; intros w.
  - cbn. auto using same_mem_refl.
  - destruct e; try contradiction; cbn.
    + destruct (IH tt (drive p level w)) as (Hr & Hm & Ht).
      split; [exact Hr|]. split; [|exact Ht].
      eapply same_mem_trans; [|exact Hm]. repeat split.
    + destruct (IH tt (log (OSerial x) w)) as (Hr & Hm & Ht).
      split; [exact Hr|]. split; [|exact Ht].
      eapply same_mem_trans; [|exact Hm]. repeat split.
    + apply IH.
Qed.

(** ** The commit path and the environment, for a well-behaved callback *)

Section Framework.

Variable cb : callback_t.
Hypothesis cb_ok : well_behaved cb.

Lemma commit_refused o ep cl attr v w :
  store w !! (ep, cl, attr) = None ->
  framework_commit cb o ep cl attr v w = (ESP_ERR_INVALID_ARG, w).
Proof. intros H. unfold framework_commit. rewrite H. reflexivity. Qed.

Lemma commit_accepted o ep cl attr v w :
  is_Some (store w !! (ep, cl, attr)) ->
  let r := framework_commit cb o ep cl attr v w in
  r.1 = ESP_OK /\
  clock r.2 = clock w /\ pin_in r.2 = pin_in w /\ ints r.2 = ints w /\
  refs r.2 = refs w /\ next_endpoint_id r.2 = next_endpoint_id w /\
  store r.2 = <[(ep, cl, attr):=v]> (store w) /\
  timeline (trace r.2) =
    (if decide (o = ByLoop) then [OCommit ByLoop (ep, cl, attr) v] else []) ++
    timeline (trace w).
Proof.
  intros [old Hold]. unfold framework_commit. rewrite Hold.
  destruct (callback_frame _ (cb_ok PRE_UPDATE ep cl attr v) w) as (Hr & Hm & Ht).
  destruct (interp0 (cb PRE_UPDATE ep cl attr v) w) as [r w1]. cbn in Hr, Hm, Ht.
  subst r. cbn [Z.eqb ESP_OK].
  set (w2 := log _ _).
  destruct (callback_frame _ (cb_ok POST_UPDATE ep cl attr v) w2) as (Hr' & Hm' & Ht').
  destruct (interp0 (cb POST_UPDATE ep cl attr v) w2) as [r' w3]. cbn in Hr', Hm', Ht'.
  cbn. destruct Hm as (?&?&?&?&?&?), Hm' as (?&?&?&?&?&?).
  subst w2; cbn in *.
  repeat split; try congruence.
  rewrite Ht'. unfold timeline in *.
  destruct o; case_decide; try done; cbn; congruence.
Qed.

Lemma commit_frame o ep cl attr v w :
  let r := framework_commit cb o ep cl attr v w in
  clock r.2 = clock w /\ pin_in r.2 = pin_in w /\ ints r.2 = ints w /\
  refs r.2 = refs w /\ next_endpoint_id r.2 = next_endpoint_id w.
Proof.
  destruct (store w !! (ep, cl, attr)) as [old|] eqn:E.
  - destruct (commit_accepted o ep cl attr v w) as (?&?&?&?&?&?&?); [eauto|].
    cbn. auto.
  - cbn. rewrite commit_refused by done. auto.
Qed.

Lemma remote_commit_timeline ep cl attr v w :
  timeline (trace (framework_commit cb ByController ep cl attr v w).2) = timeline (trace w).
Proof.
  destruct (store w !! (ep, cl, attr)) as [old|] eqn:E.
  - destruct (commit_accepted ByController ep cl attr v w) as (?&?&?&?&?&?&?&Ht); [eauto|].
    exact Ht.
  - rewrite commit_refused by done. reflexivity.
Qed.

(** The environment never touches the globals nor the poller's part of
    the trace, and time only moves forward. *)
Lemma apply_env_frame w a :
  ints (apply_env cb w a) = ints w /\ refs (apply_env cb w a) = refs w /\
  clock w <= clock (apply_env cb w a) /\
  timeline (trace (apply_env cb w a)) = timeline (trace w).
Proof.
  destruct a as [d|p l|ep cl attr v]; cbn.
  - repeat split. lia.
  - repeat split. lia.
  - destruct (commit_frame ByController ep cl attr v w) as (Hc&?&?&?&?).
    cbn in *. rewrite remote_commit_timeline. repeat split; try done. lia.
Qed.

Lemma apply_envs_frame b w :
  ints (apply_envs cb w b) = ints w /\ refs (apply_envs cb w b) = refs w /\
  clock w <= clock (apply_envs cb w b) /\
  timeline (trace (apply_envs cb w b)) = timeline (trace w).
Proof.
  revert w. induction b as [|a b IH]; intros w; cbn.
  - repeat split. lia.
  - destruct (IH (apply_env cb w a)) as (?&?&?&?).
    destruct (apply_env_frame w a) as (?&?&?&?).
    unfold apply_envs in *. repeat split; try congruence. lia.
Qed.

(** Without a controller write the attribute store, the pins driven and
    the trace stay as they are. *)
Lemma apply_envs_quiet b w :
  Forall (fun a => is_remote_write a = false) b ->
  store (apply_envs cb w b) = store w /\ trace (apply_envs cb w b) = trace w /\
  pin_out (apply_envs cb w b) = pin_out w.
Proof.
  intros Hb. revert w. induction Hb as [|a b Ha Hb IH]; intros w; cbn; [done|].
  destruct (IH (apply_env cb w a)) as (?&?&?).
  unfold apply_envs in *.
  destruct a; try discriminate; cbn in *; auto.
Qed.

End Framework.

(** ** The attribute-update callback *)

Lemma pin_writes_drive p l w :
  pin_writes (trace (drive p l w)) = (p, l) :: pin_writes (trace w).
Proof. reflexivity. Qed.

Lemma pin_writes_say_serial l w :
  Forall (fun o => match o with OSerial _ => True | _ => False end) l ->
  pin_writes (trace (say l w)) = pin_writes (trace w).
Proof.
  induction 1 as [|o l Ho Hl IH]; [reflexivity|].
  destruct o; try contradiction. exact IH.
Qed.

(** C5: an invocation of the callback whose (endpoint, cluster, attribute)
    triple matches no bound channel returns [ESP_OK] and changes nothing,
    in particular it writes no pin, whatever the phase of the update; in
    the window-covering sketch the callback never writes a pin at all. *)
Theorem routing_miss_is_a_no_op
    (type : callback_type_t) (ep cl attr : Z) (v : esp_matter_attr_val_t) (w : world) :
  ((ep, cl, attr) ∉ (Light_channels w).*1 ->
   interp0 (Light.on_attribute_update type ep cl attr v) w = (ESP_OK, w)) /\
  ((ep, cl, attr) ∉ (TwoEndpoints_channels w).*1 ->
   interp0 (TwoEndpoints.on_attribute_update type ep cl attr v) w = (ESP_OK, w)) /\
  ((ep, cl, attr) ∉ (Curtain_channels w).*1 ->
   (interp0 (Curtain.on_attribute_update type ep cl attr v) w).1 = ESP_OK /\
   pin_writes (trace (interp0 (Curtain.on_attribute_update type ep cl attr v) w).2) =
   pin_writes (trace w) /\
   pin_out (interp0 (Curtain.on_attribute_update type ep cl attr v) w).2 = pin_out w).
Proof.
  split; [|split].
  - intros Hmiss. rewrite Light_callback_eq.
    destruct (Z.eqb_spec ep (ints w light_endpoint_id)),
             (Z.eqb_spec cl Light.CLUSTER_ID), (Z.eqb_spec attr Light.ATTRIBUTE_ID);
      rewrite ?andb_false_r; try reflexivity.
    exfalso. apply Hmiss. subst. cbn. left.
  - intros Hmiss. rewrite TwoEndpoints_callback_eq.
    destruct (Z.eqb_spec cl TwoEndpoints.CLUSTER_ID),
             (Z.eqb_spec attr TwoEndpoints.ATTRIBUTE_ID);
      rewrite ?andb_false_r; try reflexivity.
    destruct (bool_decide (type = PRE_UPDATE)); [|reflexivity]. cbn.
    destruct (Z.eqb_spec ep (ints w plugin_unit_endpoint_id_1)).
    { exfalso. apply Hmiss. subst. cbn. left. }
    destruct (Z.eqb_spec ep (ints w plugin_unit_endpoint_id_2)); [|reflexivity].
    exfalso. apply Hmiss. subst. cbn. right. left.
  - intros _. rewrite Curtain_callback_eq. cbn [fst snd].
    split; [reflexivity|].
    destruct (bool_decide (type = PRE_UPDATE)); [|done].
    destruct (_ && _); split; try reflexivity;
      apply pin_writes_say_serial; repeat constructor.
Qed.

Lemma routing_miss_is_a_no_op_witness :
  interp0 (Light.on_attribute_update PRE_UPDATE 2 6 0 (esp_matter_bool true)) Light_ready
    = (ESP_OK, Light_ready) /\
  interp0 (TwoEndpoints.on_attribute_update PRE_UPDATE 1 258 10 (esp_matter_bool true))
          TwoEndpoints_ready
    = (ESP_OK, TwoEndpoints_ready).
Proof.
  split.
  - destruct (routing_miss_is_a_no_op PRE_UPDATE 2 6 0 (esp_matter_bool true) Light_ready)
      as (HL & _ & _).
    apply HL. vm_compute. intros H. inversion H as [|? ? ? H']; subst. inversion H'.
  - destruct (routing_miss_is_a_no_op PRE_UPDATE 1 258 10 (esp_matter_bool true)
                                      TwoEndpoints_ready) as (_ & HT & _).
    apply HT. vm_compute. intros H.
    inversion H as [|? ? ? H']; subst. inversion H' as [|? ? ? H'']; subst. inversion H''.
Defined.

(** C4, as the code has it: in the light and in the two-endpoint sketch
    a PRE_UPDATE invocation whose triple is that of a bound channel does
    exactly one [digitalWrite], of [v.val.b] on that channel's pin (the two
    endpoints being distinct, as [setup] leaves them); in the
    window-covering sketch it writes no pin and prints, after the line of
    the update, "New state: " and the byte of [v]. *)
Theorem matching_pre_update_drives_the_pin
    (a : path) (p : pin) (v : esp_matter_attr_val_t) (w : world) :
  ((a, p) ∈ Light_channels w ->
   interp0 (Light.on_attribute_update PRE_UPDATE a.1.1 a.1.2 a.2 v) w =
     (ESP_OK, drive p (val_b v) w) /\
   pin_writes (trace (drive p (val_b v) w)) = (p, val_b v) :: pin_writes (trace w)) /\
  ((a, p) ∈ TwoEndpoints_channels w ->
   ints w plugin_unit_endpoint_id_1 ≠ ints w plugin_unit_endpoint_id_2 ->
   interp0 (TwoEndpoints.on_attribute_update PRE_UPDATE a.1.1 a.1.2 a.2 v) w =
     (ESP_OK, drive p (val_b v) w) /\
   pin_writes (trace (drive p (val_b v) w)) = (p, val_b v) :: pin_writes (trace w)) /\
  ((a, p) ∈ Curtain_channels w ->
   interp0 (Curtain.on_attribute_update PRE_UPDATE a.1.1 a.1.2 a.2 v) w =
     (ESP_OK, say (Curtain_new_state v ++ Curtain_header a.1.1 a.1.2 a.2) w) /\
   pin_writes (trace (say (Curtain_new_state v ++ Curtain_header a.1.1 a.1.2 a.2) w)) =
     pin_writes (trace w)).
Proof.
  split; [|split].
  - intros Hin. apply list_elem_of_singleton in Hin. injection Hin as -> ->.
    split; [|reflexivity]. rewrite Light_callback_eq. cbn [fst snd].
    rewrite !Z.eqb_refl. reflexivity.
  - intros Hin Hne. split; [|reflexivity]. rewrite TwoEndpoints_callback_eq.
    apply elem_of_cons in Hin as [Hin|Hin].
    + injection Hin as -> ->. cbn [fst snd]. rewrite !Z.eqb_refl. reflexivity.
    + apply list_elem_of_singleton in Hin. injection Hin as -> ->. cbn [fst snd].
      rewrite !Z.eqb_refl.
      destruct (Z.eqb_spec (ints w plugin_unit_endpoint_id_2)
                           (ints w plugin_unit_endpoint_id_1)); [congruence|].
      reflexivity.
  - intros Hin. apply list_elem_of_singleton in Hin. injection Hin as -> ->.
    split.
    + rewrite Curtain_callback_eq. cbn [fst snd]. rewrite !Z.eqb_refl. reflexivity.
    + apply pin_writes_say_serial. repeat constructor.
Qed.

Lemma matching_pre_update_drives_the_pin_witness :
  interp0 (Light.on_attribute_update PRE_UPDATE 1 6 0 (esp_matter_bool true)) Light_ready =
    (ESP_OK, drive D0 true Light_ready) /\
  interp0 (TwoEndpoints.on_attribute_update PRE_UPDATE 2 6 0 (esp_matter_bool true))
          TwoEndpoints_ready =
    (ESP_OK, drive D1 true TwoEndpoints_ready) /\
  pin_writes (trace (interp0 (Curtain.on_attribute_update PRE_UPDATE 1 258 10
                                (esp_matter_bitmap8 5))
                       (Curtain_ready OnOff_Id OnOff_Attributes_OnOff_Id)).2) = [] /\
  serial_out (trace (interp0 (Curtain.on_attribute_update PRE_UPDATE 1 258 10
                                (esp_matter_bitmap8 5))
                       (Curtain_ready OnOff_Id OnOff_Attributes_OnOff_Id)).2) =
    [PNewline; PNum 5; PStr "New state: ";
     PNewline; PNum 10; PStr " attribute: "; PNum 258; PStr " cluster: ";
     PNum 1; PStr "Update on endpoint: "].
Proof.
  split; [|split].
  - destruct (matching_pre_update_drives_the_pin (1, 6, 0) D0 (esp_matter_bool true)
                Light_ready) as (HL & _ & _).
    apply HL. vm_compute. left.
  - destruct (matching_pre_update_drives_the_pin (2, 6, 0) D1 (esp_matter_bool true)
                TwoEndpoints_ready) as (_ & HT & _).
    apply HT.
    + vm_compute. right. left.
    + vm_compute. discriminate.
  - destruct (matching_pre_update_drives_the_pin (1, 258, 10) D0 (esp_matter_bitmap8 5)
                (Curtain_ready OnOff_Id OnOff_Attributes_OnOff_Id)) as (_ & _ & H).
    destruct H as [H1 H2]; [vm_compute; left|].
    split.
    + refine (eq_trans (f_equal (fun r => pin_writes (trace r.2)) H1) (eq_trans H2 _)).
      reflexivity.
    + refine (eq_trans (f_equal (fun r => serial_out (trace r.2)) H1) _).
      reflexivity.
Defined.

(** C4 as stated fails on the window-covering sketch: the callback is
    invoked in the PRE_UPDATE phase with the triple of the bound curtain
    channel and no pin is written. *)
Lemma curtain_match_writes_no_pin :
  ~ (forall (a : path) (p : pin) (v : esp_matter_attr_val_t) (w : world),
        (a, p) ∈ Curtain_channels w ->
        pin_writes (trace (interp0 (Curtain.on_attribute_update PRE_UPDATE a.1.1 a.1.2 a.2 v)
                                   w).2) =
        (p, val_b v) :: pin_writes (trace w)).
Proof.
  intros H.
  specialize (H (1, 258, 10) D0 (esp_matter_bitmap8 1)
                (Curtain_ready OnOff_Id OnOff_Attributes_OnOff_Id)).
  assert (Hin : ((1, 258, 10), D0) ∈
                Curtain_channels (Curtain_ready OnOff_Id OnOff_Attributes_OnOff_Id))
    by (vm_compute; left).
  specialize (H Hin). vm_compute in H. discriminate H.
Qed.

(** ** Running programs symbolically *)

Arguments apply_envs : simpl never.
Arguments framework_commit : simpl never.
Arguments wrap32 : simpl never.
Arguments to_int : simpl never.
Arguments usub : simpl never.

Lemma no_remote_write_hd s :
  no_remote_write s -> Forall (fun a => is_remote_write a = false) (hd [] s).
Proof. intros H. destruct H; [constructor|assumption]. Qed.

Lemma no_remote_write_tl s : no_remote_write s -> no_remote_write (tl s).
Proof. intros H. destruct H; [constructor|assumption]. Qed.

Lemma Light_commit_eq o ep cl attr v w :
  is_Some (store w !! (ep, cl, attr)) ->
  framework_commit Light.on_attribute_update o ep cl attr v w =
  (ESP_OK,
   commit o (ep, cl, attr) v
     (if (ep =? ints w light_endpoint_id) && (cl =? Light.CLUSTER_ID) &&
         (attr =? Light.ATTRIBUTE_ID)
      then drive Light.LED_PIN (val_b v) w else w)).
Proof.
  intros [old Hold]. unfold framework_commit. rewrite Hold.
  rewrite Light_callback_eq. cbn [Z.eqb ESP_OK]. rewrite Light_callback_eq.
  reflexivity.
Qed.

Lemma TwoEndpoints_commit_eq o ep cl attr v w :
  is_Some (store w !! (ep, cl, attr)) ->
  framework_commit TwoEndpoints.on_attribute_update o ep cl attr v w =
  (ESP_OK,
   commit o (ep, cl, attr) v
     (if (cl =? TwoEndpoints.CLUSTER_ID) && (attr =? TwoEndpoints.ATTRIBUTE_ID) then
        if ep =? ints w plugin_unit_endpoint_id_1
        then drive TwoEndpoints.LED_PIN_1 (val_b v) w
        else if ep =? ints w plugin_unit_endpoint_id_2
             then drive TwoEndpoints.LED_PIN_2 (val_b v) w
             else w
      else w)).
Proof.
  intros [old Hold]. unfold framework_commit. rewrite Hold.
  rewrite TwoEndpoints_callback_eq. cbn [Z.eqb ESP_OK]. rewrite TwoEndpoints_callback_eq.
  reflexivity.
Qed.

Lemma Curtain_commit_eq o ep cl attr v w :
  is_Some (store w !! (ep, cl, attr)) ->
  framework_commit Curtain.on_attribute_update o ep cl attr v w =
  (ESP_OK,
   commit o (ep, cl, attr) v
     (if (ep =? ints w curtain_endpoint_id) &&
         (cl =? Curtain.CURTAIN_CLUSTER_ID) && (attr =? Curtain.CURTAIN_ATTRIBUTE_ID)
      then say (Curtain_new_state v ++ Curtain_header ep cl attr) w
      else say (Curtain_header ep cl attr) w)).
Proof.
  intros [old Hold]. unfold framework_commit. rewrite Hold.
  rewrite Curtain_callback_eq. cbn [Z.eqb ESP_OK]. rewrite Curtain_callback_eq.
  reflexivity.
Qed.

Section Quiet.

Variable cb : callback_t.
Hypothesis cb_ok : well_behaved cb.

(** What a batch without controller writes leaves in place. *)
Lemma envs_quiet_facts b w :
  Forall (fun a => is_remote_write a = false) b ->
  ints (apply_envs cb w b) = ints w /\ refs (apply_envs cb w b) = refs w /\
  store (apply_envs cb w b) = store w /\ trace (apply_envs cb w b) = trace w /\
  pin_out (apply_envs cb w b) = pin_out w /\ clock w <= clock (apply_envs cb w b).
Proof.
  intros Hb.
  destruct (apply_envs_frame cb cb_ok b w) as (?&?&?&?).
  destruct (apply_envs_quiet cb b w Hb) as (?&?&?).
  auto 10.
Qed.

End Quiet.

Create HintDb quiet.
#[local] Hint Resolve no_remote_write_hd no_remote_write_tl : quiet.
#[local] Hint Resolve Light_callback_well_behaved TwoEndpoints_callback_well_behaved
  Curtain_callback_well_behaved silent_callback_well_behaved : quiet.

(** Name the world after the next batch of a schedule without controller
    writes, and record what it shares with the world before. *)
Ltac quiet_step :=
  match goal with
  | |- context [apply_envs ?cb ?w (hd [] ?s)] =>
      let W := fresh "W" in
      let HW := fresh "HW" in
      assert (HW := envs_quiet_facts cb ltac:(auto with quiet) (hd [] s) w
                      ltac:(auto with quiet));
      set (W := apply_envs cb w (hd [] s)) in *;
      destruct HW as (?&?&?&?&?&?)
  end.

(** Rewrite with the recorded equations, newest world first. *)
Ltac chase :=
  repeat match goal with
    | H : ints ?a = ints ?b |- _ => rewrite H
    | H : refs ?a = refs ?b |- _ => rewrite H
    | H : store ?a = store ?b |- _ => rewrite H
    | H : trace ?a = trace ?b |- _ => rewrite H
    | H : pin_out ?a = pin_out ?b |- _ => rewrite H
    end.

(** ** Bound channels and what a toggle does to them *)

Lemma Light_read_eq w :
  Light_bound w -> store w !! Light_path w = Some (Light_read w).
Proof.
  intros [Href [v Hv]]. unfold Light_read. cbn. unfold apply_envs. cbn.
  rewrite Href, Hv. reflexivity.
Qed.

Lemma Light_toggle_quiet s w v :
  Light_bound w -> store w !! Light_path w = Some v -> no_remote_write s ->
  let w' := (run Light.on_attribute_update Light.toggle s w).2 in
  store w' = <[Light_path w := flip v]> (store w) /\
  ints w' = ints w /\ refs w' = refs w /\
  trace w' = OCommit ByLoop (Light_path w) (flip v)
             :: OPinWrite Light.LED_PIN (val_b (flip v)) :: trace w /\
  pin_out w' = <[Light.LED_PIN := val_b (flip v)]> (pin_out w).
Proof.
  intros [Href Hsome] Hv Hs. cbn.
  repeat quiet_step. chase.
  rewrite Href. fold (Light_path w). rewrite Hv. cbn [default from_option id].
  fold (flip v).
  rewrite Light_commit_eq by (chase; exact Hsome).
  chase. rewrite !Z.eqb_refl. cbn. chase. auto.
Qed.

Lemma Light_toggle_read s w :
  Light_bound w -> no_remote_write s ->
  let w' := (run Light.on_attribute_update Light.toggle s w).2 in
  Light_bound w' /\ Light_read w' = flip (Light_read w).
Proof.
  intros Hb Hs w'.
  destruct (Light_toggle_quiet s w _ Hb (Light_read_eq w Hb) Hs) as (Hst & Hi & Hr & _).
  fold w' in Hst, Hi, Hr.
  assert (Hp : Light_path w' = Light_path w) by (unfold Light_path; rewrite Hi; reflexivity).
  assert (Hb' : Light_bound w').
  { unfold Light_bound. rewrite Hp, Hr, Hst, lookup_insert_eq. split; [apply Hb|eauto]. }
  split; [exact Hb'|].
  apply (inj Some). rewrite <- Light_read_eq by exact Hb'.
  rewrite Hp, Hst, lookup_insert_eq. reflexivity.
Qed.

Lemma TwoEndpoints_read_eq r x w :
  TwoEndpoints_bound w r x -> store w !! TwoEndpoints_path w x = Some (TwoEndpoints_read r w).
Proof.
  intros [Href [v Hv]]. unfold TwoEndpoints_read. cbn. unfold apply_envs. cbn.
  rewrite Href, Hv. reflexivity.
Qed.

Lemma TwoEndpoints_toggle_quiet r x s w v :
  TwoEndpoints_bound w r x -> store w !! TwoEndpoints_path w x = Some v ->
  no_remote_write s ->
  let w' := (run TwoEndpoints.on_attribute_update (TwoEndpoints.toggle r x) s w).2 in
  store w' = <[TwoEndpoints_path w x := flip v]> (store w) /\
  ints w' = ints w /\ refs w' = refs w /\
  commits_by ByLoop (trace w') =
    (TwoEndpoints_path w x, flip v) :: commits_by ByLoop (trace w) /\
  pin_writes (trace w') =
    (if ints w x =? ints w plugin_unit_endpoint_id_1
     then [(TwoEndpoints.LED_PIN_1, val_b (flip v))]
     else if ints w x =? ints w plugin_unit_endpoint_id_2
          then [(TwoEndpoints.LED_PIN_2, val_b (flip v))]
          else []) ++ pin_writes (trace w).
Proof.
  intros [Href Hsome] Hv Hs. cbn.
  repeat quiet_step. chase.
  rewrite Href. fold (TwoEndpoints_path w x). rewrite Hv. cbn [default from_option id].
  fold (flip v).
  rewrite TwoEndpoints_commit_eq by (chase; exact Hsome).
  chase. rewrite !Z.eqb_refl. cbn [andb].
  destruct (ints w x =? ints w plugin_unit_endpoint_id_1);
    [|destruct (ints w x =? ints w plugin_unit_endpoint_id_2)];
    cbn; chase; auto.
Qed.

Lemma TwoEndpoints_toggle_read r x s w :
  TwoEndpoints_bound w r x -> no_remote_write s ->
  let w' := (run TwoEndpoints.on_attribute_update (TwoEndpoints.toggle r x) s w).2 in
  TwoEndpoints_bound w' r x /\ TwoEndpoints_read r w' = flip (TwoEndpoints_read r w).
Proof.
  intros Hb Hs w'.
  destruct (TwoEndpoints_toggle_quiet r x s w _ Hb (TwoEndpoints_read_eq r x w Hb) Hs)
    as (Hst & Hi & Hr & _).
  fold w' in Hst, Hi, Hr.
  assert (Hp : TwoEndpoints_path w' x = TwoEndpoints_path w x)
    by (unfold TwoEndpoints_path; rewrite Hi; reflexivity).
  assert (Hb' : TwoEndpoints_bound w' r x).
  { unfold TwoEndpoints_bound. rewrite Hp, Hr, Hst, lookup_insert_eq.
    split; [apply Hb|eauto]. }
  split; [exact Hb'|].
  apply (inj Some). rewrite <- (TwoEndpoints_read_eq r x) by exact Hb'.
  rewrite Hp, Hst, lookup_insert_eq. reflexivity.
Qed.

Lemma val_b_flip v : val_b (flip v) = negb (val_b v).
Proof. unfold flip, set_val_b, val_b. cbn. destruct (raw v =? 0); reflexivity. Qed.

(** C1: on every bound channel, when no controller writes in between,
    the read-invert-commit block followed by a read of the attribute gives
    the negation of what the read gave just before: for the light (and
    the sketches sharing its code) and for both channels of the
    two-endpoint sketch. *)
Theorem toggle_then_read_negates (s : schedule) (w : world) :
  no_remote_write s ->
  (Light_bound w ->
   val_b (Light_read (run Light.on_attribute_update Light.toggle s w).2) =
   negb (val_b (Light_read w))) /\
  (TwoEndpoints_bound w attribute_ref_1 plugin_unit_endpoint_id_1 ->
   val_b (TwoEndpoints_read attribute_ref_1
            (run TwoEndpoints.on_attribute_update
                 (TwoEndpoints.toggle attribute_ref_1 plugin_unit_endpoint_id_1) s w).2) =
   negb (val_b (TwoEndpoints_read attribute_ref_1 w))) /\
  (TwoEndpoints_bound w attribute_ref_2 plugin_unit_endpoint_id_2 ->
   val_b (TwoEndpoints_read attribute_ref_2
            (run TwoEndpoints.on_attribute_update
                 (TwoEndpoints.toggle attribute_ref_2 plugin_unit_endpoint_id_2) s w).2) =
   negb (val_b (TwoEndpoints_read attribute_ref_2 w))).
Proof.
  intros Hs. split; [|split]; intros Hb.
  - destruct (Light_toggle_read s w Hb Hs) as [_ ->]. apply val_b_flip.
  - destruct (TwoEndpoints_toggle_read _ _ s w Hb Hs) as [_ ->]. apply val_b_flip.
  - destruct (TwoEndpoints_toggle_read _ _ s w Hb Hs) as [_ ->]. apply val_b_flip.
Qed.

Lemma toggle_then_read_negates_witness :
  val_b (Light_read (run Light.on_attribute_update Light.toggle [[Tick 3]] Light_ready).2) =
    negb (val_b (Light_read Light_ready)) /\
  val_b (TwoEndpoints_read attribute_ref_2
           (run TwoEndpoints.on_attribute_update
                (TwoEndpoints.toggle attribute_ref_2 plugin_unit_endpoint_id_2)
                [[SetPin D8 LOW]] TwoEndpoints_ready).2) =
    negb (val_b (TwoEndpoints_read attribute_ref_2 TwoEndpoints_ready)).
Proof.
  split.
  - destruct (toggle_then_read_negates [[Tick 3]] Light_ready) as (H & _ & _).
    + repeat constructor.
    + apply H. split; [reflexivity|]. vm_compute. eauto.
  - destruct (toggle_then_read_negates [[SetPin D8 LOW]] TwoEndpoints_ready) as (_ & _ & H).
    + repeat constructor.
    + apply H. split; [reflexivity|]. vm_compute. eauto.
Defined.

(** ** One poll under a schedule that acts once, before the poll *)

Lemma apply_envs_nil cb w : apply_envs cb w [] = w.
Proof. reflexivity. Qed.

Lemma Light_poll_single b w v :
  Light_bound w -> store w !! Light_path w = Some v ->
  Forall (fun a => is_remote_write a = false) b ->
  let W := apply_envs Light.on_attribute_update w b in
  (run Light.on_attribute_update Light.loop [b] w).2 =
  if (Light.DEBOUNCE_DELAY <? usub (wrap32 (clock W)) (ints W last_toggle)) &&
     lnot (pin_in W Light.TOGGLE_BUTTON_PIN)
  then Light_fired v W else log (OMillis (clock W)) W.
Proof.
  intros [Href Hsome] Hv Hb W.
  destruct (envs_quiet_facts _ Light_callback_well_behaved b w Hb) as (Hi & Hr & Hs & _).
  fold W in Hi, Hr, Hs.
  unfold Light.loop. cbn. rewrite !apply_envs_nil. fold W. cbn.
  destruct (Light.DEBOUNCE_DELAY <? usub (wrap32 (clock W)) (ints W last_toggle));
    [|reflexivity].
  cbn. rewrite !apply_envs_nil. cbn.
  destruct (lnot (pin_in W Light.TOGGLE_BUTTON_PIN)); [|reflexivity].
  cbn. rewrite !apply_envs_nil. cbn.
  rewrite Hr, Href, Hs. fold (Light_path w). rewrite Hv. cbn [default from_option id].
  fold (flip v).
  rewrite Light_commit_eq by (cbn; rewrite Hs, Hi; exact Hsome).
  cbn. rewrite !Z.eqb_refl. cbn. unfold Light_fired, Light_path. rewrite Hi. reflexivity.
Qed.

(** ** The debounce comparison *)

Lemma usub_wrap (c L : Z) : usub (wrap32 c) (to_int (wrap32 L)) = (c - L) mod 2 ^ 32.
Proof.
  unfold usub, wrap32, to_int.
  rewrite (Z.mod_eq c), (Z.mod_eq L), (Z.mod_eq (_ + 2 ^ 31)) by lia.
  set (qc := c / 2 ^ 32). set (qL := L / 2 ^ 32). set (q := _ / 2 ^ 32).
  replace (_ - _) with (c - L + (qL + q - qc) * 2 ^ 32) by ring.
  apply Z_mod_plus_full.
Qed.

Lemma usub_elapsed (c L : Z) :
  0 <= c - L < 2 ^ 32 -> usub (wrap32 c) (to_int (wrap32 L)) = c - L.
Proof. intros H. rewrite usub_wrap. apply Z.mod_small. exact H. Qed.

Lemma usub_le_elapsed (c L : Z) :
  L <= c -> usub (wrap32 c) (to_int (wrap32 L)) <= c - L.
Proof. intros H. rewrite usub_wrap. apply Z.mod_le; lia. Qed.

Lemma to_int_zero : to_int (wrap32 0) = 0.
Proof. reflexivity. Qed.

(** ** Polls of the light sketch *)

Lemma Light_bound_env b w :
  Forall (fun a => is_remote_write a = false) b -> Light_bound w ->
  Light_bound (apply_envs Light.on_attribute_update w b) /\
  toggles (apply_envs Light.on_attribute_update w b) = toggles w /\
  ints (apply_envs Light.on_attribute_update w b) = ints w.
Proof.
  intros Hb [Href Hsome].
  destruct (envs_quiet_facts _ Light_callback_well_behaved b w Hb) as (Hi & Hr & Hs & Ht & _).
  unfold Light_bound, Light_path, toggles. rewrite Hi, Hr, Hs, Ht. auto.
Qed.

Lemma Light_fired_facts v W :
  Light_bound W ->
  Light_bound (Light_fired v W) /\
  pin_in (Light_fired v W) = pin_in W /\ clock (Light_fired v W) = clock W /\
  ints (Light_fired v W) last_toggle = to_int (wrap32 (clock W)) /\
  toggles (Light_fired v W) = toggles W + 1 /\
  store (Light_fired v W) !! Light_path W = Some (flip v).
Proof.
  intros [Href Hsome].
  assert (Hp : Light_path (Light_fired v W) = Light_path W) by reflexivity.
  assert (Hst : store (Light_fired v W) = <[Light_path W := flip v]> (store W))
    by reflexivity.
  split.
  { unfold Light_bound. rewrite Hp, Hst, lookup_insert_eq. split; [exact Href|eauto]. }
  do 3 (split; [reflexivity|]). split.
  - unfold toggles.
    change (commits_by ByLoop (trace (Light_fired v W)))
      with ((Light_path W, flip v) :: commits_by ByLoop (trace W)).
    cbn [length]. lia.
  - rewrite Hst. apply lookup_insert_eq.
Qed.

Lemma Light_idle_bound : Light_bound Light_idle.
Proof. split; [reflexivity|]. vm_compute. eauto. Qed.

Lemma Light_idle_armed : Light_armed Light_idle.
Proof. vm_compute. reflexivity. Qed.

(** ** Facts that hold of every run *)

Lemma commits_by_timeline t : commits_by ByLoop (timeline t) = commits_by ByLoop t.
Proof.
  induction t as [|o t IH]; [reflexivity|].
  destruct o as [c|p l|x|[|] a v]; try exact IH.
  change ((a, v) :: commits_by ByLoop (timeline t) = (a, v) :: commits_by ByLoop t).
  rewrite IH. reflexivity.
Qed.

Section Runs.

Variable cb : callback_t.
Hypothesis cb_ok : well_behaved cb.

Lemma handle_clock {X : Type} (e : event X) w : clock (handle cb e w).2 = clock w.
Proof.
  destruct e; try reflexivity.
  - cbn. destruct (device_attribute d) as [[cl attr] v]. reflexivity.
  - cbn. apply (commit_frame cb cb_ok).
Qed.

(** Time never runs backwards. *)
Lemma run_clock_mono {A : Type} (p : prog A) :
  forall s w, clock w <= clock (run cb p s w).2.
Proof.
  induction p as [a|X e k IH]; intros s w; cbn; [lia|].
  destruct (apply_envs_frame cb cb_ok (hd [] s) w) as (_ & _ & Hc & _).
  pose proof (handle_clock e (apply_envs cb w (hd [] s))) as He.
  destruct (handle cb e (apply_envs cb w (hd [] s))) as [x w1]. cbn in He.
  specialize (IH x (tl s) w1). lia.
Qed.

Lemma run_polls_clock_mono (loop : prog unit) ss :
  forall w, clock w <= clock (run_polls cb loop ss w).
Proof.
  induction ss as [|s ss IH]; intros w; cbn; [lia|].
  specialize (IH (run cb loop s w).2). pose proof (run_clock_mono loop s w).
  unfold run_polls in IH. lia.
Qed.

(** A loop of the shape all sketches share: the debounce comparison
    guarding the rest of the body. *)
Lemma gate_first_window (q : prog unit) s w :
  untouched w ->
  let w' := (run cb (now ← call Millis;
                     lt ← call (ReadVar last_toggle);
                     if 500 <? usub now lt then q else mret tt) s w).2 in
  clock w' <= 500 -> untouched w'.
Proof.
  intros (Hl & Ht & Hc). cbn.
  destruct (apply_envs_frame cb cb_ok (hd [] s) w) as (Hi0 & _ & Hc0 & Ht0).
  set (W0 := apply_envs cb w (hd [] s)) in *.
  set (W0' := log (OMillis (clock W0)) W0).
  destruct (apply_envs_frame cb cb_ok (hd [] (tl s)) W0') as (Hi1 & _ & Hc1 & Ht1).
  set (W1 := apply_envs cb W0' (hd [] (tl s))) in *.
  rewrite Hi1. change (ints W0') with (ints W0). rewrite Hi0, Hl.
  destruct (Z.ltb_spec 500 (usub (wrap32 (clock W0)) 0)) as [Hfire|Hno].
  - intros Hle. exfalso.
    pose proof (run_clock_mono q (tl (tl s)) W1) as Hm.
    change (clock W0') with (clock W0) in Hc1.
    rewrite <- to_int_zero, usub_elapsed in Hfire by lia. lia.
  - intros _. cbn. unfold untouched.
    rewrite Hi1. change (ints W0') with (ints W0). rewrite Hi0.
    change (clock W0') with (clock W0) in Hc1.
    split; [exact Hl|]. split; [|lia].
    rewrite <- commits_by_timeline, Ht1. subst W0'. cbn.
    change (List.filter on_timeline (trace W0)) with (timeline (trace W0)).
    rewrite Ht0. cbn. unfold commits_by in *.
    change (omap ?f (timeline (trace w))) with (commits_by ByLoop (timeline (trace w))).
    rewrite commits_by_timeline. exact Ht.
Qed.

End Runs.

(** ** The first debounce window after boot *)

Ltac events_tac :=
  repeat first
    [ apply all_events_ret
    | apply all_events_vis; [first [exact I | reflexivity | discriminate] | intros ?]
    | match goal with |- context [if ?c then _ else _] => destruct c end
    | progress cbn ].

Lemma Light_setup_calls : all_events setup_call Light.setup.
Proof. unfold Light.setup. events_tac. Qed.

Lemma TwoEndpoints_setup_calls : all_events setup_call TwoEndpoints.setup.
Proof. unfold TwoEndpoints.setup. events_tac. Qed.

Lemma Curtain_setup_calls C A : all_events setup_call (Curtain.setup C A).
Proof. unfold Curtain.setup. events_tac. Qed.

Section FirstWindow.

Variable cb : callback_t.
Hypothesis cb_ok : well_behaved cb.

Lemma untouched_env b w : untouched w -> untouched (apply_envs cb w b).
Proof.
  intros (Hl & Ht & Hc).
  destruct (apply_envs_frame cb cb_ok b w) as (Hi & _ & Hc' & Ht').
  unfold untouched. rewrite Hi, <- commits_by_timeline, Ht', commits_by_timeline.
  split; [exact Hl|]. split; [exact Ht|lia].
Qed.

Lemma setup_untouched (p : prog unit) :
  all_events setup_call p -> forall s w, untouched w -> untouched (run cb p s w).2.
Proof.
  induction 1 as [a|X e k He Hk IH]; intros s w Hw; [exact Hw|].
  cbn. apply (untouched_env (hd [] s)) in Hw.
  set (W := apply_envs cb w (hd [] s)) in *.
  assert (Hh : untouched (handle cb e W).2).
  { destruct Hw as (Hl & Ht & Hc).
    destruct e; try contradiction; cbn; try (split; [exact Hl|split; [exact Ht|exact Hc]]).
    - split; [|split; [exact Ht|exact Hc]].
      cbn in He. change ((<[x:=v]> (ints W)) last_toggle = 0).
      rewrite fn_lookup_insert_ne by exact He. exact Hl.
    - destruct (device_attribute d) as [[cl attr] v]. cbn.
      split; [exact Hl|split; [exact Ht|exact Hc]]. }
  destruct (handle cb e W) as [x w1]. apply IH. exact Hh.
Qed.

Lemma polls_first_window (q : prog unit) ss :
  let loop := (now ← call Millis;
               lt ← call (ReadVar last_toggle);
               if 500 <? usub now lt then q else mret tt) in
  forall w, untouched w -> clock (run_polls cb loop ss w) <= 500 ->
            untouched (run_polls cb loop ss w).
Proof.
  intros loop. induction ss as [|s ss IH]; intros w Hw Hc; [exact Hw|].
  change (run_polls cb loop (s :: ss) w)
    with (run_polls cb loop ss (run cb loop s w).2) in *.
  apply IH; [|exact Hc].
  apply (gate_first_window cb cb_ok q s w Hw).
  pose proof (run_polls_clock_mono cb cb_ok loop ss (run cb loop s w).2) as Hm.
  fold loop. lia.
Qed.

End FirstWindow.

Lemma boot_untouched : untouched boot.
Proof. repeat split. cbn. lia. Qed.

(** C10: in every sketch [last_toggle] is zero at boot and [setup] leaves
    it so; whatever the buttons and the controllers do, as long as the
    clock has not passed [DEBOUNCE_DELAY] = 500 ms no poll toggles
    anything, and [last_toggle] is still zero.  (In the window-covering
    sketch, whatever [CLUSTER_ID] and [ATTRIBUTE_ID] stand for.) *)
Theorem first_window_is_suppressed
    (CLUSTER_ID ATTRIBUTE_ID : Z) (s0 : schedule) (ss : list schedule) :
  ints boot last_toggle = 0 /\
  (let w := run_polls Light.on_attribute_update Light.loop ss
              (run Light.on_attribute_update Light.setup s0 boot).2 in
   clock w <= Light.DEBOUNCE_DELAY ->
   toggles w = 0 /\ ints w last_toggle = 0) /\
  (let w := run_polls TwoEndpoints.on_attribute_update TwoEndpoints.loop ss
              (run TwoEndpoints.on_attribute_update TwoEndpoints.setup s0 boot).2 in
   clock w <= TwoEndpoints.DEBOUNCE_DELAY ->
   toggles w = 0 /\ ints w last_toggle = 0) /\
  (let w := run_polls Curtain.on_attribute_update
              (Curtain.loop CLUSTER_ID ATTRIBUTE_ID) ss
              (run Curtain.on_attribute_update
                   (Curtain.setup CLUSTER_ID ATTRIBUTE_ID) s0 boot).2 in
   clock w <= Curtain.DEBOUNCE_DELAY ->
   toggles w = 0 /\ ints w last_toggle = 0).
Proof.
  split; [reflexivity|]. split; [|split]; intros w Hc; subst w.
  - refine ((fun H : untouched _ => _) (polls_first_window _ Light_callback_well_behaved
              _ ss _ (setup_untouched _ Light_callback_well_behaved _ Light_setup_calls
                        s0 boot boot_untouched) Hc)).
    destruct H as (Hl & Ht & _). split; [|exact Hl].
    exact (f_equal (fun l => Z.of_nat (length l)) Ht).
  - refine ((fun H : untouched _ => _) (polls_first_window _
              TwoEndpoints_callback_well_behaved
              _ ss _ (setup_untouched _ TwoEndpoints_callback_well_behaved _
                        TwoEndpoints_setup_calls s0 boot boot_untouched) Hc)).
    destruct H as (Hl & Ht & _). split; [|exact Hl].
    exact (f_equal (fun l => Z.of_nat (length l)) Ht).
  - refine ((fun H : untouched _ => _) (polls_first_window _ Curtain_callback_well_behaved
              _ ss _ (setup_untouched _ Curtain_callback_well_behaved _
                        (Curtain_setup_calls CLUSTER_ID ATTRIBUTE_ID)
                        s0 boot boot_untouched) Hc)).
    destruct H as (Hl & Ht & _). split; [|exact Hl].
    exact (f_equal (fun l => Z.of_nat (length l)) Ht).
Qed.

Lemma first_window_is_suppressed_witness :
  toggles (run_polls Light.on_attribute_update Light.loop
             [[[Tick 100; SetPin D9 LOW]]; [[Tick 400]]] Light_ready) = 0 /\
  toggles (run_polls TwoEndpoints.on_attribute_update TwoEndpoints.loop
             [[[Tick 100; SetPin D9 LOW; SetPin D8 LOW]]; [[Tick 400]]]
             TwoEndpoints_ready) = 0 /\
  toggles (run_polls Curtain.on_attribute_update
             (Curtain.loop OnOff_Id OnOff_Attributes_OnOff_Id)
             [[[Tick 100; SetPin D9 LOW]]; [[Tick 400]]]
             (Curtain_ready OnOff_Id OnOff_Attributes_OnOff_Id)) = 0.
Proof.
  split; [|split].
  - destruct (first_window_is_suppressed OnOff_Id OnOff_Attributes_OnOff_Id [] [[[Tick 100; SetPin D9 LOW]]; [[Tick 400]]])
      as (_ & H & _ & _).
    apply H. vm_compute. discriminate.
  - destruct (first_window_is_suppressed OnOff_Id OnOff_Attributes_OnOff_Id []
                [[[Tick 100; SetPin D9 LOW; SetPin D8 LOW]]; [[Tick 400]]])
      as (_ & _ & H & _).
    apply H. vm_compute. discriminate.
  - destruct (first_window_is_suppressed OnOff_Id OnOff_Attributes_OnOff_Id [] [[[Tick 100; SetPin D9 LOW]]; [[Tick 400]]])
      as (_ & _ & _ & H).
    apply H. vm_compute. discriminate.
Defined.

(** ** The setter of the window-covering sketch *)

Lemma Curtain_read_eq w :
  Curtain_read w =
  match refs w attribute_ref with
  | Some k => default esp_matter_invalid (store w !! k)
  | None => esp_matter_invalid
  end.
Proof. unfold Curtain_read. cbn. rewrite !apply_envs_nil. reflexivity. Qed.

(** A poll of the window-covering sketch that takes a press: the clock is
    read twice, [last_toggle] is stamped, and the stack is asked to update
    the requested path with the inverted byte. *)
Lemma Curtain_press_eq C A b w :
  Forall (fun a => is_remote_write a = false) b ->
  let W := apply_envs Curtain.on_attribute_update w b in
  Curtain_armed W -> pin_in W Curtain.TOGGLE_BUTTON_PIN = LOW ->
  (run Curtain.on_attribute_update (Curtain.loop C A) [b] w).2 =
  (framework_commit Curtain.on_attribute_update ByLoop (ints w curtain_endpoint_id) C A
     (inverted_u8 (Curtain_read w))
     (with_ints (<[last_toggle := to_int (wrap32 (clock W))]> (ints W))
        (log (OMillis (clock W)) (log (OMillis (clock W)) W)))).2.
Proof.
  intros Hb W Ha Hp.
  destruct (envs_quiet_facts _ Curtain_callback_well_behaved b w Hb) as (Hi & Hr & Hs & _).
  fold W in Hi, Hr, Hs.
  unfold Curtain_armed in Ha. apply Z.ltb_lt in Ha.
  unfold Curtain.loop. cbn. rewrite !apply_envs_nil. fold W. cbn.
  rewrite Ha. cbn. rewrite !apply_envs_nil. cbn. rewrite Hp. cbn [lnot LOW Z.eqb].
  cbn. rewrite !apply_envs_nil. cbn.
  rewrite Hr, Hs, Hi. unfold inverted_u8.
  destruct (framework_commit _ _ _ _ _ _ _). reflexivity.
Qed.

(** C3: the triple a button toggle of the window-covering sketch writes.
    [set_curtain_attribute_value] passes [CLUSTER_ID] and [ATTRIBUTE_ID]
    to [update], not [CURTAIN_CLUSTER_ID] and [CURTAIN_ATTRIBUTE_ID]: a
    poll of [loop] that takes a press asks the stack to update
    (curtain_endpoint_id, CLUSTER_ID, ATTRIBUTE_ID) with the inverted byte,
    and when the stack accepts the update it is committed under that
    triple.  The triple is the one the curtain branch of the callback
    matches exactly when the two names stand for the window-covering
    identifiers; when they stand for the on/off identifiers (as in the
    declarations the sketch has commented out, lines 29-30) it is not, and
    the callback prints the line of the update and no new state.  When the
    path is not in the data model the update is refused, and the press
    commits and prints nothing. *)
Theorem curtain_setter_writes_the_onoff_path
    (CLUSTER_ID ATTRIBUTE_ID : Z) (b : list env_action) (w : world) :
  Forall (fun a => is_remote_write a = false) b ->
  let W := apply_envs Curtain.on_attribute_update w b in
  Curtain_armed W -> pin_in W Curtain.TOGGLE_BUTTON_PIN = LOW ->
  let a := Curtain_requested_path CLUSTER_ID ATTRIBUTE_ID w in
  let v := inverted_u8 (Curtain_read w) in
  let w' := (run Curtain.on_attribute_update (Curtain.loop CLUSTER_ID ATTRIBUTE_ID)
               [b] w).2 in
  let curtain :=
    bool_decide ((CLUSTER_ID, ATTRIBUTE_ID) =
                 (Curtain.CURTAIN_CLUSTER_ID, Curtain.CURTAIN_ATTRIBUTE_ID)) in
  (a ∈ (Curtain_channels w).*1 <-> curtain = true) /\
  ((CLUSTER_ID, ATTRIBUTE_ID) = (OnOff_Id, OnOff_Attributes_OnOff_Id) ->
   (a ∉ (Curtain_channels w).*1) /\ curtain = false) /\
  (is_Some (store w !! a) ->
   all_commits (trace w') = (ByLoop, a, v) :: all_commits (trace w) /\
   store w' = <[a:=v]> (store w) /\
   serial_out (trace w') =
     serial_out ((if curtain then Curtain_new_state v else []) ++
                 Curtain_header (ints w curtain_endpoint_id) CLUSTER_ID ATTRIBUTE_ID) ++
     serial_out (trace w)) /\
  (store w !! a = None ->
   all_commits (trace w') = all_commits (trace w) /\ store w' = store w /\
   serial_out (trace w') = serial_out (trace w)).
Proof.
  intros Hb W Ha Hp a v w' curtain.
  destruct (envs_quiet_facts _ Curtain_callback_well_behaved b w Hb) as (Hi & _ & Hs & Ht & _).
  fold W in Hi, Hs, Ht.
  assert (Hw' := Curtain_press_eq CLUSTER_ID ATTRIBUTE_ID b w Hb Ha Hp).
  cbv zeta in Hw'. fold W in Hw'. fold w' in Hw'. fold v in Hw'.
  set (W1 := with_ints _ _) in Hw'.
  assert (Hs1 : store W1 = store w) by exact Hs.
  assert (Hi1 : ints W1 curtain_endpoint_id = ints w curtain_endpoint_id)
    by (subst W1; cbn; rewrite fn_lookup_insert_ne by discriminate; rewrite Hi; reflexivity).
  assert (Hc1 : all_commits (trace W1) = all_commits (trace w))
    by (subst W1; cbn; rewrite Ht; reflexivity).
  assert (Ho1 : serial_out (trace W1) = serial_out (trace w))
    by (subst W1; cbn; rewrite Ht; reflexivity).
  split; [|split; [|split]].
  - subst curtain a. unfold Curtain_requested_path. cbn. rewrite list_elem_of_singleton.
    rewrite bool_decide_eq_true. split; intros E; injection E as -> ->; reflexivity.
  - intros E. injection E as -> ->. split; [|reflexivity].
    cbn. intros H. apply list_elem_of_singleton in H. discriminate H.
  - intros Hsome. rewrite Hw'.
    rewrite Curtain_commit_eq by (rewrite Hs1; exact Hsome). cbn [snd].
    rewrite Hi1, Z.eqb_refl. cbn [andb].
    assert (Hc : (CLUSTER_ID =? Curtain.CURTAIN_CLUSTER_ID) &&
                 (ATTRIBUTE_ID =? Curtain.CURTAIN_ATTRIBUTE_ID) = curtain).
    { subst curtain.
      destruct (Z.eqb_spec CLUSTER_ID Curtain.CURTAIN_CLUSTER_ID) as [->|Hn];
        [destruct (Z.eqb_spec ATTRIBUTE_ID Curtain.CURTAIN_ATTRIBUTE_ID) as [->|Hn]|];
        cbn [andb]; symmetry;
        first [apply bool_decide_eq_true; reflexivity
              |apply bool_decide_eq_false; intros E; injection E; congruence]. }
    rewrite Hc. clearbody curtain W1 w'. subst a.
    unfold all_commits, serial_out in *.
    destruct curtain; repeat split;
      cbn; rewrite ?Hs1, ?Hc1, ?Ho1; reflexivity.
  - intros Hnone. rewrite Hw'.
    rewrite commit_refused by (rewrite Hs1; exact Hnone). cbn [snd].
    repeat split; assumption.
Qed.

Lemma curtain_setter_writes_the_onoff_path_witness :
  all_commits (trace (run Curtain.on_attribute_update
                        (Curtain.loop OnOff_Id OnOff_Attributes_OnOff_Id)
                        [[Tick 1000; SetPin D9 LOW]]
                        (Curtain_ready OnOff_Id OnOff_Attributes_OnOff_Id)).2) = [] /\
  all_commits (trace (run Curtain.on_attribute_update
                        (Curtain.loop WindowCovering_Id
                           WindowCovering_Attributes_OperationalStatus_Id)
                        [[Tick 1000; SetPin D9 LOW]]
                        (Curtain_ready WindowCovering_Id
                           WindowCovering_Attributes_OperationalStatus_Id)).2) =
    [(ByLoop, (1, 258, 10), AttrVal ESP_MATTER_VAL_TYPE_BITMAP8 1)].
Proof.
  split.
  - destruct (curtain_setter_writes_the_onoff_path OnOff_Id OnOff_Attributes_OnOff_Id
                [Tick 1000; SetPin D9 LOW] (Curtain_ready OnOff_Id OnOff_Attributes_OnOff_Id))
      as (_ & _ & _ & H).
    + repeat constructor.
    + vm_compute. reflexivity.
    + reflexivity.
    + destruct (H eq_refl) as (Hc & _). exact Hc.
  - destruct (curtain_setter_writes_the_onoff_path WindowCovering_Id
                WindowCovering_Attributes_OperationalStatus_Id
                [Tick 1000; SetPin D9 LOW]
                (Curtain_ready WindowCovering_Id
                               WindowCovering_Attributes_OperationalStatus_Id))
      as (_ & _ & H & _).
    + repeat constructor.
    + vm_compute. reflexivity.
    + reflexivity.
    + destruct H as (Hc & _); [vm_compute; eauto|]. exact Hc.
Defined.

(** ** What the poll loop touches itself *)

Lemma poller_frame_refl w : poller_frame w w.
Proof. repeat split. Qed.

Lemma poller_frame_trans w1 w2 w3 :
  poller_frame w1 w2 -> poller_frame w2 w3 -> poller_frame w1 w3.
Proof.
  intros (Ha1&Hb1&Hc1&Hd1) (Ha2&Hb2&Hc2&Hd2). repeat split; try congruence.
  intros x Hx. rewrite Hd2, Hd1 by exact Hx. reflexivity.
Qed.

Lemma silent_commit_eq o ep cl attr v w :
  framework_commit silent_callback o ep cl attr v w =
  match store w !! (ep, cl, attr) with
  | Some _ => (ESP_OK, commit o (ep, cl, attr) v w)
  | None => (ESP_ERR_INVALID_ARG, w)
  end.
Proof. unfold framework_commit. destruct (store w !! (ep, cl, attr)); reflexivity. Qed.

Lemma silent_commit_frame o ep cl attr v w :
  poller_frame w (framework_commit silent_callback o ep cl attr v w).2.
Proof.
  rewrite silent_commit_eq. destruct (store w !! (ep, cl, attr)); repeat split.
Qed.

Lemma silent_envs_frame b w : poller_frame w (apply_envs silent_callback w b).
Proof.
  revert w. induction b as [|a b IH]; intros w; [apply poller_frame_refl|].
  eapply poller_frame_trans; [|apply (IH (apply_env silent_callback w a))].
  destruct a as [d|p l|ep cl attr v]; try (solve [repeat split]).
  apply silent_commit_frame.
Qed.

Lemma silent_run_frame (p : prog unit) :
  all_events poller_call p ->
  forall s w, poller_frame w (run silent_callback p s w).2.
Proof.
  induction 1 as [a|X e k He Hk IH]; intros s w; [apply poller_frame_refl|].
  cbn. pose proof (silent_envs_frame (hd [] s) w) as Henv.
  set (W := apply_envs silent_callback w (hd [] s)) in *.
  assert (Hh : poller_frame W (handle silent_callback e W).2).
  { destruct e; try contradiction; try (solve [repeat split]).
    - cbn in He. subst x. repeat split. intros y Hy. cbn.
      apply fn_lookup_insert_ne. congruence.
    - apply silent_commit_frame. }
  destruct (handle silent_callback e W) as [x w1].
  eapply poller_frame_trans; [exact Henv|].
  eapply poller_frame_trans; [exact Hh|]. apply IH.
Qed.

Lemma Light_loop_calls : all_events poller_call Light.loop.
Proof. unfold Light.loop. events_tac. Qed.

Lemma TwoEndpoints_loop_calls : all_events poller_call TwoEndpoints.loop.
Proof. unfold TwoEndpoints.loop. events_tac. Qed.

(** C9: [loop] never calls [digitalWrite]: on every path its calls are
    reads (clock, pin, globals, attribute), the assignment of
    [last_toggle] and the request to update an attribute; nor does
    [setup], which only configures the pins.  Run against a
    stack whose callback does nothing, under any schedule, it drives no
    pin and changes no global but [last_toggle]; with the sketch's own
    callback a poll that toggles drives the LED exactly once, to the value
    committed, through that callback. *)
Theorem poller_never_drives_a_pin (s : schedule) (b : list env_action) (w : world) :
  all_events poller_call Light.loop /\
  all_events poller_call TwoEndpoints.loop /\
  all_events setup_call Light.setup /\
  all_events setup_call TwoEndpoints.setup /\
  poller_frame w (run silent_callback Light.loop s w).2 /\
  poller_frame w (run silent_callback TwoEndpoints.loop s w).2 /\
  (Light_bound w -> Forall (fun a => is_remote_write a = false) b ->
   let W := apply_envs Light.on_attribute_update w b in
   Light_armed W -> pin_in W Light.TOGGLE_BUTTON_PIN = LOW ->
   let w' := (run Light.on_attribute_update Light.loop [b] w).2 in
   pin_writes (trace w') =
     (Light.LED_PIN, val_b (Light_read w')) :: pin_writes (trace w) /\
   pin_out w' Light.LED_PIN = val_b (Light_read w')).
Proof.
  split; [exact Light_loop_calls|]. split; [exact TwoEndpoints_loop_calls|].
  split; [exact Light_setup_calls|]. split; [exact TwoEndpoints_setup_calls|].
  split; [apply silent_run_frame, Light_loop_calls|].
  split; [apply silent_run_frame, TwoEndpoints_loop_calls|].
  intros Hb Hq W Ha Hp w'.
  destruct (Hb) as [_ [v Hv]].
  destruct (Light_bound_env b w Hq Hb) as (HbW & _ & _).
  destruct (envs_quiet_facts _ Light_callback_well_behaved b w Hq) as (_ & _ & _ & Ht & _).
  fold W in HbW, Ht.
  assert (Hw' : w' = Light_fired v W).
  { subst w'. rewrite (Light_poll_single b w v Hb Hv Hq). fold W.
    unfold Light_armed in Ha. apply Z.ltb_lt in Ha. rewrite Ha, Hp. reflexivity. }
  destruct (Light_fired_facts v W HbW) as (Hb' & _ & _ & _ & _ & Hst).
  assert (Hr : Light_read w' = flip v).
  { apply (inj Some). rewrite <- Light_read_eq by (rewrite Hw'; exact Hb').
    rewrite Hw'. exact Hst. }
  rewrite Hr, Hw'. split.
  - change (pin_writes (trace (Light_fired v W)))
      with ((Light.LED_PIN, val_b (flip v)) :: pin_writes (trace W)).
    rewrite Ht. reflexivity.
  - reflexivity.
Qed.

Lemma poller_never_drives_a_pin_witness :
  pin_out (run Light.on_attribute_update Light.loop [[SetPin D9 LOW]] Light_idle).2 D0 = true.
Proof.
  destruct (poller_never_drives_a_pin [] [SetPin D9 LOW] Light_idle)
    as (_ & _ & _ & _ & _ & _ & H).
  destruct H as [_ H].
  - exact Light_idle_bound.
  - repeat constructor.
  - vm_compute. reflexivity.
  - reflexivity.
  - refine (eq_trans H _). vm_compute. reflexivity.
Defined.

(** ** One poll of the two-endpoint sketch *)

Lemma TwoEndpoints_poll_single b w v1 v2 :
  TwoEndpoints_bound w attribute_ref_1 plugin_unit_endpoint_id_1 ->
  TwoEndpoints_bound w attribute_ref_2 plugin_unit_endpoint_id_2 ->
  TwoEndpoints_ids_distinct w ->
  store w !! TwoEndpoints_path w plugin_unit_endpoint_id_1 = Some v1 ->
  store w !! TwoEndpoints_path w plugin_unit_endpoint_id_2 = Some v2 ->
  Forall (fun a => is_remote_write a = false) b ->
  let W := apply_envs TwoEndpoints.on_attribute_update w b in
  let W0 := log (OMillis (clock W)) W in
  TwoEndpoints_poll [b] w =
  if TwoEndpoints.DEBOUNCE_DELAY <? usub (wrap32 (clock W)) (ints W last_toggle) then
    let W1 := if lnot (pin_in W TwoEndpoints.TOGGLE_BUTTON_PIN_1)
              then TwoEndpoints_fired plugin_unit_endpoint_id_1 TwoEndpoints.LED_PIN_1 v1 W0
              else W0 in
    if lnot (pin_in W TwoEndpoints.TOGGLE_BUTTON_PIN_2)
    then TwoEndpoints_fired plugin_unit_endpoint_id_2 TwoEndpoints.LED_PIN_2 v2 W1
    else W1
  else W0.
Proof.
  intros [Href1 Hsome1] [Href2 Hsome2] Hne Hv1 Hv2 Hb W W0.
  destruct (envs_quiet_facts _ TwoEndpoints_callback_well_behaved b w Hb)
    as (Hi & Hr & Hs & _).
  fold W in Hi, Hr, Hs.
  assert (Hne' : TwoEndpoints_path w plugin_unit_endpoint_id_1 <>
                 TwoEndpoints_path w plugin_unit_endpoint_id_2)
    by (unfold TwoEndpoints_path; intros E; apply Hne; congruence).
  unfold TwoEndpoints_poll, TwoEndpoints.loop. cbn. rewrite !apply_envs_nil. fold W. cbn.
  destruct (TwoEndpoints.DEBOUNCE_DELAY <? usub (wrap32 (clock W)) (ints W last_toggle));
    [|reflexivity].
  cbn. rewrite !apply_envs_nil. cbn.
  destruct (lnot (pin_in W TwoEndpoints.TOGGLE_BUTTON_PIN_1)).
  - cbn. rewrite !apply_envs_nil. cbn.
    rewrite Hr, Href1, Hs. fold (TwoEndpoints_path w plugin_unit_endpoint_id_1).
    rewrite Hv1. cbn [default from_option id]. fold (flip v1).
    rewrite ?fn_lookup_insert_ne by discriminate.
    rewrite TwoEndpoints_commit_eq by (cbn; rewrite ?Hs, ?Hi; exact Hsome1).
    cbn. rewrite ?fn_lookup_insert_ne by discriminate.
    rewrite !Z.eqb_refl. cbn. rewrite !apply_envs_nil. cbn.
    destruct (lnot (pin_in W TwoEndpoints.TOGGLE_BUTTON_PIN_2)).
    + cbn. rewrite !apply_envs_nil. cbn.
      rewrite ?fn_lookup_insert_ne by discriminate.
      rewrite ?Hr, ?Href2, ?Hs, ?Hi.
      fold (TwoEndpoints_path w plugin_unit_endpoint_id_1).
      fold (TwoEndpoints_path w plugin_unit_endpoint_id_2).
      rewrite lookup_insert_ne by exact Hne'.
      rewrite Hv2. cbn [default from_option id]. fold (flip v2).
      rewrite TwoEndpoints_commit_eq
        by (cbn; rewrite Hs; fold (TwoEndpoints_path w plugin_unit_endpoint_id_2);
            rewrite lookup_insert_ne by exact Hne'; exact Hsome2).
      cbn. rewrite ?fn_lookup_insert_ne by discriminate. rewrite ?Hi, !Z.eqb_refl.
      destruct (Z.eqb_spec (ints w plugin_unit_endpoint_id_2)
                           (ints w plugin_unit_endpoint_id_1)) as [E|_];
        [symmetry in E; contradiction|].
      unfold TwoEndpoints_fired, TwoEndpoints_path, stamp, commit. cbn.
      rewrite ?fn_lookup_insert_ne by discriminate.
      rewrite ?Hi. reflexivity.
    + unfold TwoEndpoints_fired, TwoEndpoints_path, stamp, commit. cbn.
      rewrite ?fn_lookup_insert_ne by discriminate.
      rewrite ?Hi. reflexivity.
  - cbn. rewrite !apply_envs_nil. cbn.
    destruct (lnot (pin_in W TwoEndpoints.TOGGLE_BUTTON_PIN_2)); [|reflexivity].
    cbn. rewrite !apply_envs_nil. cbn.
    rewrite Hr, Href2, Hs. fold (TwoEndpoints_path w plugin_unit_endpoint_id_2).
    rewrite Hv2. cbn [default from_option id]. fold (flip v2).
    rewrite ?fn_lookup_insert_ne by discriminate.
    rewrite TwoEndpoints_commit_eq by (cbn; rewrite ?Hs, ?Hi; exact Hsome2).
    cbn. rewrite ?fn_lookup_insert_ne by discriminate. rewrite ?Hi, !Z.eqb_refl.
    destruct (Z.eqb_spec (ints w plugin_unit_endpoint_id_2)
                         (ints w plugin_unit_endpoint_id_1)) as [E|_];
      [symmetry in E; contradiction|].
    unfold TwoEndpoints_fired, TwoEndpoints_path, stamp, commit. cbn.
    rewrite ?fn_lookup_insert_ne by discriminate.
    rewrite ?Hi. reflexivity.
Qed.

Lemma TwoEndpoints_fired_facts x led v W :
  x <> last_toggle ->
  let W' := TwoEndpoints_fired x led v W in
  store W' = <[TwoEndpoints_path W x := flip v]> (store W) /\
  refs W' = refs W /\ (forall y, y <> last_toggle -> ints W' y = ints W y) /\
  ints W' last_toggle = to_int (wrap32 (clock W)) /\
  clock W' = clock W /\ pin_in W' = pin_in W /\ toggles W' = toggles W + 1.
Proof.
  intros Hx W'. subst W'. unfold TwoEndpoints_fired, stamp, TwoEndpoints_path.
  split; [reflexivity|]. split; [reflexivity|]. split; [|split; [|split; [|split]]];
    try reflexivity.
  - intros y Hy. apply fn_lookup_insert_ne. congruence.
  - unfold toggles.
    change (commits_by ByLoop (trace (commit ByLoop ?a ?u ?w0)))
      with ((a, u) :: commits_by ByLoop (trace w0)).
    cbn [length]. change (commits_by ByLoop (trace (drive ?p ?l ?w0)))
      with (commits_by ByLoop (trace w0)).
    change (commits_by ByLoop (trace (with_ints ?f ?w0)))
      with (commits_by ByLoop (trace w0)).
    change (commits_by ByLoop (trace (log (OMillis ?c) ?w0)))
      with (commits_by ByLoop (trace w0)).
    lia.
Qed.

(** A loop whose debounce comparison fails ends after reading the clock
    and [last_toggle]. *)
Lemma gate_closed cb (q : prog unit) s w :
  let W := apply_envs cb w (hd [] s) in
  let W1 := apply_envs cb (log (OMillis (clock W)) W) (hd [] (tl s)) in
  usub (wrap32 (clock W)) (ints W1 last_toggle) <= 500 ->
  (run cb (now ← call Millis;
           lt ← call (ReadVar last_toggle);
           if 500 <? usub now lt then q else mret tt) s w).2 = W1.
Proof.
  intros W W1 H. cbn. fold W. fold W1.
  destruct (Z.ltb_spec 500 (usub (wrap32 (clock W)) (ints W1 last_toggle))); [lia|].
  reflexivity.
Qed.

(** C2: in the two-endpoint sketch, which keeps one [last_toggle] for
    both buttons, a poll that passes the debounce comparison with both
    buttons low toggles both channels; when only BTN_2 (D8) is low it
    toggles channel 2 only and records the time, and a poll made [d] ms
    later, [d <= DEBOUNCE_DELAY], with BTN_1 (D9) now low as well toggles
    neither channel: nothing is committed and no pin is written. *)
Theorem shared_timestamp_couples_the_buttons
    (b : list env_action) (d : N) (w : world) (v1 v2 : esp_matter_attr_val_t) :
  TwoEndpoints_bound w attribute_ref_1 plugin_unit_endpoint_id_1 ->
  TwoEndpoints_bound w attribute_ref_2 plugin_unit_endpoint_id_2 ->
  TwoEndpoints_ids_distinct w ->
  store w !! TwoEndpoints_path w plugin_unit_endpoint_id_1 = Some v1 ->
  store w !! TwoEndpoints_path w plugin_unit_endpoint_id_2 = Some v2 ->
  Forall (fun a => is_remote_write a = false) b ->
  let W := apply_envs TwoEndpoints.on_attribute_update w b in
  TwoEndpoints_armed W ->
  let w1 := TwoEndpoints_poll [b] w in
  (pin_in W TwoEndpoints.TOGGLE_BUTTON_PIN_1 = LOW ->
   pin_in W TwoEndpoints.TOGGLE_BUTTON_PIN_2 = LOW ->
   store w1 !! TwoEndpoints_path w plugin_unit_endpoint_id_1 = Some (flip v1) /\
   store w1 !! TwoEndpoints_path w plugin_unit_endpoint_id_2 = Some (flip v2) /\
   toggles w1 = toggles w + 2) /\
  (pin_in W TwoEndpoints.TOGGLE_BUTTON_PIN_1 = HIGH ->
   pin_in W TwoEndpoints.TOGGLE_BUTTON_PIN_2 = LOW ->
   Z.of_N d <= TwoEndpoints.DEBOUNCE_DELAY ->
   store w1 !! TwoEndpoints_path w plugin_unit_endpoint_id_1 = Some v1 /\
   store w1 !! TwoEndpoints_path w plugin_unit_endpoint_id_2 = Some (flip v2) /\
   toggles w1 = toggles w + 1 /\
   let w2 := TwoEndpoints_poll [[Tick d; SetPin TwoEndpoints.TOGGLE_BUTTON_PIN_1 LOW]] w1 in
   pin_in w2 TwoEndpoints.TOGGLE_BUTTON_PIN_1 = LOW /\
   pin_in w2 TwoEndpoints.TOGGLE_BUTTON_PIN_2 = LOW /\
   store w2 = store w1 /\ toggles w2 = toggles w1 /\
   pin_writes (trace w2) = pin_writes (trace w1)).
Proof.
  intros Hb1 Hb2 Hne Hv1 Hv2 Hq W Ha w1.
  destruct (envs_quiet_facts _ TwoEndpoints_callback_well_behaved b w Hq)
    as (Hi & Hr & Hs & Ht & _).
  fold W in Hi, Hr, Hs, Ht.
  assert (HtW : toggles W = toggles w) by (unfold toggles; rewrite Ht; reflexivity).
  assert (Hne' : TwoEndpoints_path w plugin_unit_endpoint_id_1 <>
                 TwoEndpoints_path w plugin_unit_endpoint_id_2)
    by (unfold TwoEndpoints_path; intros E; apply Hne; congruence).
  assert (Hp : forall x, TwoEndpoints_path W x = TwoEndpoints_path w x)
    by (intros x; unfold TwoEndpoints_path; rewrite Hi; reflexivity).
  pose proof (TwoEndpoints_poll_single b w v1 v2 Hb1 Hb2 Hne Hv1 Hv2 Hq) as Hpoll.
  cbv zeta in Hpoll. fold W in Hpoll. fold w1 in Hpoll.
  unfold TwoEndpoints_armed in Ha. apply Z.ltb_lt in Ha. rewrite Ha in Hpoll.
  set (W0 := log (OMillis (clock W)) W) in *.
  split.
  - intros H1 H2. rewrite H1, H2 in Hpoll. cbn [lnot LOW Z.eqb] in Hpoll.
    set (Wa := TwoEndpoints_fired plugin_unit_endpoint_id_1 _ v1 W0) in *.
    destruct (TwoEndpoints_fired_facts plugin_unit_endpoint_id_1 TwoEndpoints.LED_PIN_1
                v1 W0 ltac:(discriminate)) as (Hsa & _ & Hia & _ & _ & _ & Hta).
    fold Wa in Hsa, Hia, Hta.
    destruct (TwoEndpoints_fired_facts plugin_unit_endpoint_id_2 TwoEndpoints.LED_PIN_2
                v2 Wa ltac:(discriminate)) as (Hsb & _ & _ & _ & _ & _ & Htb).
    rewrite <- Hpoll in Hsb, Htb.
    assert (Hpa : TwoEndpoints_path Wa plugin_unit_endpoint_id_2 =
                  TwoEndpoints_path w plugin_unit_endpoint_id_2).
    { unfold TwoEndpoints_path. rewrite Hia by discriminate.
      change (ints W0) with (ints W). rewrite Hi. reflexivity. }
    rewrite Hsb, Hpa, Hsa.
    change (TwoEndpoints_path W0 plugin_unit_endpoint_id_1)
      with (TwoEndpoints_path W plugin_unit_endpoint_id_1).
    rewrite Hp, lookup_insert_ne, !lookup_insert_eq by (apply not_eq_sym, Hne').
    repeat split. rewrite Htb, Hta. change (toggles W0) with (toggles W). lia.
  - intros H1 H2 Hd. rewrite H1, H2 in Hpoll. cbn [lnot LOW HIGH Z.eqb] in Hpoll.
    cbv zeta in Hpoll.
    destruct (TwoEndpoints_fired_facts plugin_unit_endpoint_id_2 TwoEndpoints.LED_PIN_2
                v2 W0 ltac:(discriminate)) as (Hsb & _ & _ & Hlb & Hcb & Hpb & Htb).
    rewrite <- Hpoll in Hsb, Hlb, Hcb, Hpb, Htb.
    change (TwoEndpoints_path W0 plugin_unit_endpoint_id_2)
      with (TwoEndpoints_path W plugin_unit_endpoint_id_2) in Hsb.
    rewrite Hp in Hsb. change (store W0) with (store W) in Hsb.
    split; [rewrite Hsb, lookup_insert_ne by (apply not_eq_sym, Hne'); rewrite Hs; exact Hv1|].
    split; [rewrite Hsb; apply lookup_insert_eq|].
    split; [rewrite Htb; change (toggles W0) with (toggles W); lia|].
    intros w2. subst w2. unfold TwoEndpoints_poll, TwoEndpoints.loop.
    rewrite gate_closed.
    + cbn [hd tl]. rewrite apply_envs_nil. repeat split.
      change (pin_in w1 TwoEndpoints.TOGGLE_BUTTON_PIN_2 = LOW).
      rewrite Hpb. exact H2.
    + cbn [hd tl]. rewrite apply_envs_nil.
      change (clock W0) with (clock W) in Hcb, Hlb.
      change (usub (wrap32 (clock w1 + Z.of_N d)) (ints w1 last_toggle) <= 500).
      rewrite Hcb, Hlb.
      unfold TwoEndpoints.DEBOUNCE_DELAY in Hd.
      rewrite usub_elapsed by lia. lia.
Qed.

Lemma shared_timestamp_couples_the_buttons_witness :
  let w1 := TwoEndpoints_poll [[SetPin D8 LOW]] TwoEndpoints_idle in
  let w2 := TwoEndpoints_poll [[Tick 200; SetPin D9 LOW]] w1 in
  toggles w1 = 1 /\ store w2 = store w1 /\ toggles w2 = toggles w1.
Proof.
  destruct (shared_timestamp_couples_the_buttons [SetPin D8 LOW] 200 TwoEndpoints_idle
              (esp_matter_bool false) (esp_matter_bool false)) as [_ H].
  - split; [reflexivity|]. vm_compute. eauto.
  - split; [reflexivity|]. vm_compute. eauto.
  - vm_compute. discriminate.
  - reflexivity.
  - reflexivity.
  - repeat constructor.
  - vm_compute. reflexivity.
  - destruct H as (_ & _ & Ht & _ & _ & Hs & Ht2 & _).
    + reflexivity.
    + reflexivity.
    + vm_compute. discriminate.
    + split; [exact Ht|]. split; [exact Hs|exact Ht2].
Defined.

(** ** Holding a button down *)

Lemma run_polls_cons cb loop s ss w :
  run_polls cb loop (s :: ss) w = run_polls cb loop ss (run cb loop s w).2.
Proof. reflexivity. Qed.

Lemma run_polls_app cb loop ss1 ss2 w :
  run_polls cb loop (ss1 ++ ss2) w = run_polls cb loop ss2 (run_polls cb loop ss1 w).
Proof. apply fold_left_app. Qed.

Section HeldPress.

Variable cb : callback_t.
Variable loop : prog unit.
Variable btn : pin.

(** What the sketch needs of the world for the button to work. *)
Variable good : world -> Prop.

Hypothesis good_env : forall b w,
  press_batch btn b -> good w ->
  good (apply_envs cb w b) /\ toggles (apply_envs cb w b) = toggles w.

Hypothesis poll_fires : forall b w,
  press_batch btn b -> good w ->
  let W := apply_envs cb w b in
  500 < usub (wrap32 (clock W)) (ints W last_toggle) -> pin_in W btn = LOW ->
  let w' := (run cb loop [b] w).2 in
  good w' /\ pin_in w' btn = pin_in W btn /\ clock w' = clock W /\
  ints w' last_toggle = to_int (wrap32 (clock W)) /\ toggles w' = toggles W + 1.

Hypothesis poll_idles : forall b w,
  press_batch btn b -> good w ->
  let W := apply_envs cb w b in
  usub (wrap32 (clock W)) (ints W last_toggle) <= 500 \/ pin_in W btn = HIGH ->
  let w' := (run cb loop [b] w).2 in
  good w' /\ pin_in w' btn = pin_in W btn /\ clock w' = clock W /\
  ints w' last_toggle = ints W last_toggle /\ toggles w' = toggles W.

Local Abbreviation held := (held_at good btn).
Local Abbreviation released := (released_at good btn).

Lemma held_first w :
  good w -> 500 < usub (wrap32 (clock w)) (ints w last_toggle) ->
  held (toggles w) 1 1 (run cb loop [[SetPin btn LOW]] w).2.
Proof.
  intros Hg Ha.
  destruct (good_env [SetPin btn LOW] w) as [_ HtW]; [left; reflexivity|exact Hg|].
  destruct (poll_fires [SetPin btn LOW] w) as (Hg' & Hp' & Hc' & Hl' & Ht');
    [left; reflexivity|exact Hg|exact Ha|apply fn_lookup_insert|].
  split; [exact Hg'|]. split; [rewrite Hp'; apply fn_lookup_insert|].
  exists (clock w). rewrite Hc', Hl', Ht', HtW.
  change (clock (apply_envs cb w [SetPin btn LOW])) with (clock w).
  repeat split; lia.
Qed.

Lemma held_step T0 j n w :
  held T0 j n w -> exists n', held T0 (j + 1) n' (run cb loop tick_ms w).2.
Proof.
  intros (Hg & Hp & L & Hl & He & Ht & Hj). unfold tick_ms.
  destruct (good_env [Tick 1] w) as [_ HtW]; [right; left; reflexivity|exact Hg|].
  set (W := apply_envs cb w [Tick 1]) in *.
  assert (HcW : clock W = clock w + 1) by reflexivity.
  assert (HlW : ints W last_toggle = to_int (wrap32 L)) by exact Hl.
  assert (HpW : pin_in W btn = LOW) by exact Hp.
  assert (Hu : usub (wrap32 (clock W)) (ints W last_toggle) = clock W - L)
    by (rewrite HlW; apply usub_elapsed; lia).
  destruct (Z.lt_ge_cases 500 (clock W - L)) as [Hfire|Hno].
  - destruct (poll_fires [Tick 1] w) as (Hg' & Hp' & Hc' & Hl' & Ht');
      [right; left; reflexivity|exact Hg|fold W; lia|exact HpW|].
    fold W in Hp', Hc', Hl', Ht'.
    exists (n + 1). split; [exact Hg'|]. split; [rewrite Hp'; exact HpW|].
    exists (clock W). rewrite Hc', Hl', Ht', HtW. repeat split; lia.
  - destruct (poll_idles [Tick 1] w) as (Hg' & Hp' & Hc' & Hl' & Ht');
      [right; left; reflexivity|exact Hg|left; fold W; lia|].
    fold W in Hp', Hc', Hl', Ht'.
    exists n. split; [exact Hg'|]. split; [rewrite Hp'; exact HpW|].
    exists L. rewrite Hc', Hl', Ht', HtW. repeat split; try lia; exact HlW.
Qed.

Lemma held_repeat k : forall T0 j n w,
  held T0 j n w ->
  exists n', held T0 (j + Z.of_nat k) n' (run_polls cb loop (repeat tick_ms k) w).
Proof.
  induction k as [|k IH]; intros T0 j n w Hh.
  - exists n. cbn. rewrite Z.add_0_r. exact Hh.
  - destruct (held_step _ _ _ _ Hh) as [n1 H1].
    destruct (IH _ _ _ _ H1) as [n2 H2].
    exists n2. cbn [repeat]. rewrite run_polls_cons.
    replace (j + Z.of_nat (S k)) with (j + 1 + Z.of_nat k) by lia. exact H2.
Qed.

Lemma held_release T0 j n w :
  held T0 j n w ->
  released (T0 + n) (run cb loop [[Tick 1; SetPin btn HIGH]] w).2.
Proof.
  intros (Hg & Hp & L & Hl & He & Ht & Hj).
  destruct (good_env [Tick 1; SetPin btn HIGH] w) as [_ HtW];
    [right; right; reflexivity|exact Hg|].
  assert (HpW : pin_in (apply_envs cb w [Tick 1; SetPin btn HIGH]) btn = HIGH)
    by apply fn_lookup_insert.
  destruct (poll_idles [Tick 1; SetPin btn HIGH] w) as (Hg' & Hp' & _ & _ & Ht');
    [right; right; reflexivity|exact Hg|right; exact HpW|].
  split; [exact Hg'|]. split; [rewrite Hp'; exact HpW|]. lia.
Qed.

Lemma released_step T w : released T w -> released T (run cb loop tick_ms w).2.
Proof.
  intros (Hg & Hp & Ht). unfold tick_ms.
  destruct (good_env [Tick 1] w) as [_ HtW]; [right; left; reflexivity|exact Hg|].
  destruct (poll_idles [Tick 1] w) as (Hg' & Hp' & _ & _ & Ht');
    [right; left; reflexivity|exact Hg|right; exact Hp|].
  split; [exact Hg'|]. split; [rewrite Hp'; exact Hp|]. lia.
Qed.

Lemma released_repeat k : forall T w,
  released T w -> released T (run_polls cb loop (repeat tick_ms k) w).
Proof.
  induction k as [|k IH]; intros T w Hr; [exact Hr|].
  cbn [repeat]. rewrite run_polls_cons. apply IH, released_step, Hr.
Qed.

(** A press held for [H] polls, one per millisecond, toggles once at the
    press and once more every 501 ms. *)
Lemma held_press_toggles (H rest : nat) (w : world) :
  good w -> 500 < usub (wrap32 (clock w)) (ints w last_toggle) -> (1 <= H)%nat ->
  toggles (run_polls cb loop (press_hold_release btn H rest) w) - toggles w =
  (Z.of_nat H + 500) / 501.
Proof.
  intros Hg Ha HH. unfold press_hold_release.
  rewrite run_polls_cons, run_polls_app, run_polls_cons.
  pose proof (held_first w Hg Ha) as H1.
  destruct (held_repeat (H - 1) _ _ _ _ H1) as [n Hn].
  pose proof Hn as (_ & _ & L & _ & He & _ & Hj).
  apply held_release in Hn.
  apply (released_repeat rest) in Hn.
  destruct Hn as (_ & _ & Hn).
  rewrite Hn.
  set (e := clock _ - L) in *. clearbody e.
  assert (Hq : (Z.of_nat H + 500) / 501 = n).
  { symmetry. apply (Z.div_unique _ _ _ e); lia. }
  lia.
Qed.

End HeldPress.

Lemma press_batch_quiet btn b :
  press_batch btn b -> Forall (fun a => is_remote_write a = false) b.
Proof. intros [-> | [-> | ->]]; repeat constructor. Qed.

(** *** The button of the light sketch *)

Lemma Light_good_env b w :
  press_batch Light.TOGGLE_BUTTON_PIN b -> Light_bound w ->
  Light_bound (apply_envs Light.on_attribute_update w b) /\
  toggles (apply_envs Light.on_attribute_update w b) = toggles w.
Proof.
  intros Hb Hg. destruct (Light_bound_env b w (press_batch_quiet _ _ Hb) Hg) as (?&?&?).
  auto.
Qed.

Lemma Light_poll_fires b w :
  press_batch Light.TOGGLE_BUTTON_PIN b -> Light_bound w ->
  let W := apply_envs Light.on_attribute_update w b in
  500 < usub (wrap32 (clock W)) (ints W last_toggle) ->
  pin_in W Light.TOGGLE_BUTTON_PIN = LOW ->
  let w' := (run Light.on_attribute_update Light.loop [b] w).2 in
  Light_bound w' /\
  pin_in w' Light.TOGGLE_BUTTON_PIN = pin_in W Light.TOGGLE_BUTTON_PIN /\
  clock w' = clock W /\
  ints w' last_toggle = to_int (wrap32 (clock W)) /\ toggles w' = toggles W + 1.
Proof.
  intros Hb Hg W Ha Hp w'. subst w'.
  destruct (Hg) as [_ [v Hv]].
  rewrite (Light_poll_single b w v Hg Hv (press_batch_quiet _ _ Hb)). fold W.
  apply Z.ltb_lt in Ha. unfold Light.DEBOUNCE_DELAY. rewrite Ha, Hp.
  cbn [andb lnot LOW Z.eqb].
  destruct (Light_bound_env b w (press_batch_quiet _ _ Hb) Hg) as (HbW & _ & _).
  destruct (Light_fired_facts v W HbW) as (Hb' & Hp' & Hc' & Hl' & Ht' & _).
  rewrite Hp'. auto.
Qed.

Lemma Light_poll_idles b w :
  press_batch Light.TOGGLE_BUTTON_PIN b -> Light_bound w ->
  let W := apply_envs Light.on_attribute_update w b in
  usub (wrap32 (clock W)) (ints W last_toggle) <= 500 \/
  pin_in W Light.TOGGLE_BUTTON_PIN = HIGH ->
  let w' := (run Light.on_attribute_update Light.loop [b] w).2 in
  Light_bound w' /\
  pin_in w' Light.TOGGLE_BUTTON_PIN = pin_in W Light.TOGGLE_BUTTON_PIN /\
  clock w' = clock W /\
  ints w' last_toggle = ints W last_toggle /\ toggles w' = toggles W.
Proof.
  intros Hb Hg W Hno w'. subst w'.
  destruct (Hg) as [_ [v Hv]].
  rewrite (Light_poll_single b w v Hg Hv (press_batch_quiet _ _ Hb)). fold W.
  destruct (Light_bound_env b w (press_batch_quiet _ _ Hb) Hg) as (HbW & _ & _).
  fold W in HbW.
  assert (E : (Light.DEBOUNCE_DELAY <? usub (wrap32 (clock W)) (ints W last_toggle)) &&
              lnot (pin_in W Light.TOGGLE_BUTTON_PIN) = false).
  { destruct Hno as [Hno|Hno].
    - apply andb_false_intro1, Z.ltb_ge. exact Hno.
    - rewrite Hno. apply andb_false_r. }
  rewrite E. split; [exact HbW|]. repeat split.
Qed.

(** *** The buttons of the two-endpoint sketch, one held, the other up *)

Lemma TwoEndpoints_bound_fired r y x led v W :
  y <> last_toggle -> x <> last_toggle ->
  TwoEndpoints_bound W r y -> TwoEndpoints_bound (TwoEndpoints_fired x led v W) r y.
Proof.
  intros Hy Hx [Href [u Hu]].
  destruct (TwoEndpoints_fired_facts x led v W Hx) as (Hs & Hr & Hi & _).
  unfold TwoEndpoints_bound, TwoEndpoints_path. rewrite Hs, Hr, (Hi y Hy).
  split; [exact Href|].
  fold (TwoEndpoints_path W y).
  destruct (decide (TwoEndpoints_path W x = TwoEndpoints_path W y)) as [-> | Hne].
  - rewrite lookup_insert_eq. eauto.
  - rewrite lookup_insert_ne by exact Hne. eauto.
Qed.

Lemma TwoEndpoints_good_quiet other b w :
  Forall (fun a => is_remote_write a = false) b ->
  pin_in (apply_envs TwoEndpoints.on_attribute_update w b) other = pin_in w other ->
  TwoEndpoints_good other w ->
  TwoEndpoints_good other (apply_envs TwoEndpoints.on_attribute_update w b) /\
  toggles (apply_envs TwoEndpoints.on_attribute_update w b) = toggles w.
Proof.
  intros Hq Hp (Hb1 & Hb2 & Hne & Ho).
  destruct (envs_quiet_facts _ TwoEndpoints_callback_well_behaved b w Hq)
    as (Hi & Hr & Hs & Ht & _).
  unfold TwoEndpoints_good, TwoEndpoints_bound, TwoEndpoints_ids_distinct,
    TwoEndpoints_path, toggles.
  rewrite Hi, Hr, Hs, Ht, Hp. auto.
Qed.

Lemma TwoEndpoints_good_env btn other x led b w :
  TwoEndpoints_button btn other x led -> press_batch btn b ->
  TwoEndpoints_good other w ->
  TwoEndpoints_good other (apply_envs TwoEndpoints.on_attribute_update w b) /\
  toggles (apply_envs TwoEndpoints.on_attribute_update w b) = toggles w.
Proof.
  intros Hbtn Hb Hg.
  apply TwoEndpoints_good_quiet; [exact (press_batch_quiet _ _ Hb)| |exact Hg].
  destruct Hbtn as [E|E]; injection E as -> -> -> ->;
    destruct Hb as [-> | [-> | ->]]; reflexivity.
Qed.

(** With the other button up, a poll is that of one button. *)
Lemma TwoEndpoints_poll_one btn other x led b w :
  TwoEndpoints_button btn other x led -> press_batch btn b ->
  TwoEndpoints_good other w ->
  let W := apply_envs TwoEndpoints.on_attribute_update w b in
  let W0 := log (OMillis (clock W)) W in
  exists v,
    TwoEndpoints_poll [b] w =
    if (500 <? usub (wrap32 (clock W)) (ints W last_toggle)) && lnot (pin_in W btn)
    then TwoEndpoints_fired x led v W0 else W0.
Proof.
  intros Hbtn Hb Hg W W0.
  destruct (TwoEndpoints_good_env _ _ _ _ b w Hbtn Hb Hg) as [(_ & _ & _ & Ho) _].
  fold W in Ho.
  destruct Hg as (Hb1 & Hb2 & Hne & _).
  destruct (Hb1) as [_ [v1 Hv1]]. destruct (Hb2) as [_ [v2 Hv2]].
  pose proof (TwoEndpoints_poll_single b w v1 v2 Hb1 Hb2 Hne Hv1 Hv2
                (press_batch_quiet _ _ Hb)) as Hpoll.
  cbv zeta in Hpoll. fold W in Hpoll. fold W0 in Hpoll.
  unfold TwoEndpoints.DEBOUNCE_DELAY in Hpoll. rewrite Hpoll.
  destruct Hbtn as [E|E]; injection E as -> -> -> ->; rewrite Ho;
    cbn [lnot HIGH Z.eqb];
    destruct (500 <? usub (wrap32 (clock W)) (ints W last_toggle));
    cbn [andb]; first [exists v1; reflexivity | exists v2; reflexivity].
Qed.

Lemma TwoEndpoints_button_var btn other x led :
  TwoEndpoints_button btn other x led -> x <> last_toggle.
Proof. intros [E|E]; injection E as -> -> -> ->; discriminate. Qed.

Lemma TwoEndpoints_poll_fires btn other x led b w :
  TwoEndpoints_button btn other x led -> press_batch btn b ->
  TwoEndpoints_good other w ->
  let W := apply_envs TwoEndpoints.on_attribute_update w b in
  500 < usub (wrap32 (clock W)) (ints W last_toggle) -> pin_in W btn = LOW ->
  let w' := (run TwoEndpoints.on_attribute_update TwoEndpoints.loop [b] w).2 in
  TwoEndpoints_good other w' /\ pin_in w' btn = pin_in W btn /\ clock w' = clock W /\
  ints w' last_toggle = to_int (wrap32 (clock W)) /\ toggles w' = toggles W + 1.
Proof.
  intros Hbtn Hb Hg W Ha Hp w'. subst w'.
  destruct (TwoEndpoints_poll_one _ _ _ _ b w Hbtn Hb Hg) as [v Hpoll].
  unfold TwoEndpoints_poll in Hpoll. rewrite Hpoll. fold W.
  apply Z.ltb_lt in Ha. rewrite Ha, Hp. cbn [andb lnot LOW Z.eqb].
  destruct (TwoEndpoints_good_env _ _ _ _ b w Hbtn Hb Hg) as [(Hb1 & Hb2 & Hne & Ho) _].
  fold W in Hb1, Hb2, Hne, Ho.
  pose proof (TwoEndpoints_button_var _ _ _ _ Hbtn) as Hx.
  set (W0 := log (OMillis (clock W)) W).
  destruct (TwoEndpoints_fired_facts x led v W0 Hx) as (_ & _ & Hi & Hl & Hc & Hpi & Ht).
  split; [|rewrite Hpi; auto].
  split; [apply TwoEndpoints_bound_fired; [discriminate|exact Hx|exact Hb1]|].
  split; [apply TwoEndpoints_bound_fired; [discriminate|exact Hx|exact Hb2]|].
  split; [|rewrite Hpi; exact Ho].
  unfold TwoEndpoints_ids_distinct. rewrite !Hi by discriminate. exact Hne.
Qed.

Lemma TwoEndpoints_poll_idles btn other x led b w :
  TwoEndpoints_button btn other x led -> press_batch btn b ->
  TwoEndpoints_good other w ->
  let W := apply_envs TwoEndpoints.on_attribute_update w b in
  usub (wrap32 (clock W)) (ints W last_toggle) <= 500 \/ pin_in W btn = HIGH ->
  let w' := (run TwoEndpoints.on_attribute_update TwoEndpoints.loop [b] w).2 in
  TwoEndpoints_good other w' /\ pin_in w' btn = pin_in W btn /\ clock w' = clock W /\
  ints w' last_toggle = ints W last_toggle /\ toggles w' = toggles W.
Proof.
  intros Hbtn Hb Hg W Hno w'. subst w'.
  destruct (TwoEndpoints_poll_one _ _ _ _ b w Hbtn Hb Hg) as [v Hpoll].
  unfold TwoEndpoints_poll in Hpoll. rewrite Hpoll. fold W.
  assert (E : (500 <? usub (wrap32 (clock W)) (ints W last_toggle)) &&
              lnot (pin_in W btn) = false).
  { destruct Hno as [Hno|Hno].
    - apply andb_false_intro1, Z.ltb_ge. exact Hno.
    - rewrite Hno. apply andb_false_r. }
  rewrite E.
  destruct (TwoEndpoints_good_env _ _ _ _ b w Hbtn Hb Hg) as [HgW _].
  repeat split; apply HgW.
Qed.

Lemma refire_count_intro (H : nat) (n : Z) :
  (1 <= H)%nat -> n = (Z.of_nat H + 500) / 501 -> refire_count H n.
Proof.
  intros HH ->. unfold refire_count, Light.DEBOUNCE_DELAY. change (500 + 1) with 501.
  split; [reflexivity|]. split; [|split].
  - intros Hle. symmetry. apply (Z.div_unique _ _ _ (Z.of_nat H - 1)); lia.
  - intros Hle. symmetry. apply (Z.div_unique _ _ _ (Z.of_nat H - 502)); lia.
  - intros k Hk Hw. symmetry. apply (Z.div_unique _ _ _ (500 - k)); lia.
Qed.

(** C6, as the code has it: with [loop] polling every millisecond and the
    poller armed at the press, a press seen low by [H] consecutive polls
    (held for [H] ms) causes one toggle at the press and one more every
    501 ms for as long as it is held, [(H + 500) / 501] in all: exactly
    one when it is held no longer than 501 ms, two when it is held longer
    than that and up to 1002 ms, and [k] when it is held for [k] debounce
    windows ([H = 500 k], [1 <= k <= 500]).  The poller re-arms whatever
    the level of the pin: the repeat is level-triggered.  For the button
    of the light sketch and for either button of the two-endpoint sketch,
    the other one being up. *)
Theorem held_button_refires (H rest : nat) (w : world) :
  (1 <= H)%nat ->
  (Light_bound w -> Light_armed w ->
   refire_count H
     (toggles (run_polls Light.on_attribute_update Light.loop
                 (press_hold_release Light.TOGGLE_BUTTON_PIN H rest) w) - toggles w)) /\
  (forall btn other x led,
      TwoEndpoints_button btn other x led ->
      TwoEndpoints_good other w -> TwoEndpoints_armed w ->
      refire_count H
        (toggles (run_polls TwoEndpoints.on_attribute_update TwoEndpoints.loop
                    (press_hold_release btn H rest) w) - toggles w)).
Proof.
  intros HH. split.
  - intros Hb Ha. apply refire_count_intro; [exact HH|].
    apply (held_press_toggles Light.on_attribute_update Light.loop
             Light.TOGGLE_BUTTON_PIN Light_bound
             Light_good_env Light_poll_fires Light_poll_idles H rest w Hb Ha HH).
  - intros btn other x led Hbtn Hg Ha. apply refire_count_intro; [exact HH|].
    apply (held_press_toggles TwoEndpoints.on_attribute_update TwoEndpoints.loop
             btn (TwoEndpoints_good other)
             (fun b w0 => TwoEndpoints_good_env btn other x led b w0 Hbtn)
             (fun b w0 => TwoEndpoints_poll_fires btn other x led b w0 Hbtn)
             (fun b w0 => TwoEndpoints_poll_idles btn other x led b w0 Hbtn)
             H rest w Hg Ha HH).
Qed.

Lemma TwoEndpoints_idle_good other : TwoEndpoints_good other TwoEndpoints_idle.
Proof.
  split; [split; [reflexivity|vm_compute; eauto]|].
  split; [split; [reflexivity|vm_compute; eauto]|].
  split; [vm_compute; discriminate|reflexivity].
Qed.

Lemma held_button_refires_witness :
  toggles (run_polls Light.on_attribute_update Light.loop
             (press_hold_release D9 1000 5) Light_idle) - toggles Light_idle = 2 /\
  toggles (run_polls TwoEndpoints.on_attribute_update TwoEndpoints.loop
             (press_hold_release D8 1000 5) TwoEndpoints_idle) -
  toggles TwoEndpoints_idle = 2.
Proof.
  destruct (held_button_refires 1000 5 Light_idle ltac:(lia)) as [HL _].
  destruct (held_button_refires 1000 5 TwoEndpoints_idle ltac:(lia)) as [_ HT].
  split.
  - destruct (HL Light_idle_bound Light_idle_armed) as (_ & _ & _ & Hk).
    apply (Hk 2); [lia|reflexivity].
  - destruct (HT D8 D9 plugin_unit_endpoint_id_2 D1) as (_ & _ & _ & Hk).
    + right. reflexivity.
    + apply TwoEndpoints_idle_good.
    + vm_compute. reflexivity.
    + apply (Hk 2); [lia|reflexivity].
Defined.

(** C6 as stated fails: a press held for 600 ms, longer than the window
    and shorter than twice the window, toggles twice, not once. *)
Lemma held_600ms_toggles_twice :
  ~ (forall H : nat, (500 < H < 1000)%nat ->
       toggles (run_polls Light.on_attribute_update Light.loop
                  (press_hold_release Light.TOGGLE_BUTTON_PIN H 0) Light_idle) -
       toggles Light_idle = 1).
Proof.
  intros C. specialize (C 600%nat ltac:(lia)).
  rewrite (held_press_toggles Light.on_attribute_update Light.loop
             Light.TOGGLE_BUTTON_PIN Light_bound
             Light_good_env Light_poll_fires Light_poll_idles 600 0 Light_idle
             Light_idle_bound Light_idle_armed ltac:(lia)) in C.
  vm_compute in C. discriminate C.
Qed.

(** ** Triggers and their timestamps *)

Lemma last_millis_timeline t : last_millis (timeline t) = last_millis t.
Proof.
  induction t as [|o t IH]; [reflexivity|].
  destruct o as [c|p l|x|[|] a v]; try exact IH; reflexivity.
Qed.

Lemma triggers_timeline t : triggers (timeline t) = triggers t.
Proof.
  induction t as [|o t IH]; [reflexivity|].
  destruct o as [c|p l|x|[|] a v]; try exact IH.
  change ((a, last_millis (timeline t)) :: triggers (timeline t) =
          (a, last_millis t) :: triggers t).
  rewrite IH, last_millis_timeline. reflexivity.
Qed.

Lemma bounded_mono L L' T : bounded L T -> L <= L' -> bounded L' T.
Proof. intros H HL a t Hin. specialize (H a t Hin). lia. Qed.

Lemma spaced_cons c l :
  spaced 500 l -> (forall t, t ∈ l -> t + 500 < c) -> spaced 500 (c :: l).
Proof.
  intros Hs Hall. cbn. split; [|exact Hs].
  destruct l as [|t l]; [exact I|].
  specialize (Hall t ltac:(left)). lia.
Qed.

Lemma elem_of_times_of a t l : t ∈ times_of a l <-> (a, t) ∈ l.
Proof.
  unfold times_of. rewrite list_elem_of_omap. split.
  - intros ([a' t'] & Hin & Hsome). cbn in Hsome.
    destruct (decide (a' = a)); [|discriminate]. injection Hsome as ->. subst. exact Hin.
  - intros Hin. exists (a, t). split; [exact Hin|]. cbn.
    destruct (decide (a = a)); [reflexivity|contradiction].
Qed.

Lemma fire_bounded L c a v T :
  bounded L T -> L <= c -> bounded c (OCommit ByLoop a v :: OMillis c :: T).
Proof.
  intros Hb HL a' t Hin. cbn in Hin.
  apply elem_of_cons in Hin as [E|Hin]; [injection E as -> ->; lia|].
  specialize (Hb a' t Hin). lia.
Qed.

Lemma fire_well_spaced c a v T :
  well_spaced T -> (forall t, (a, t) ∈ triggers T -> t + 500 < c) ->
  well_spaced (OCommit ByLoop a v :: OMillis c :: T).
Proof.
  intros Hs Hall a'. cbn. unfold times_of. cbn.
  destruct (decide (a = a')) as [<-|Hne].
  - apply spaced_cons; [apply Hs|].
    intros t Hin. apply Hall. apply elem_of_times_of. exact Hin.
  - apply Hs.
Qed.

Lemma millis_bounded L c T : bounded L T -> bounded L (OMillis c :: T).
Proof. intros H. exact H. Qed.

Lemma millis_well_spaced c T : well_spaced T -> well_spaced (OMillis c :: T).
Proof. intros H. exact H. Qed.

(** ** The debounce invariant *)

Arguments timeline : simpl never.

Lemma timeline_millis c t : timeline (OMillis c :: t) = OMillis c :: timeline t.
Proof. reflexivity. Qed.

Arguments TwoEndpoints.toggle : simpl never.
Arguments Light.toggle : simpl never.

Lemma Light_loop_shape :
  Light.loop = debounced (button_branch Light.TOGGLE_BUTTON_PIN attribute_ref light_endpoint_id).
Proof. reflexivity. Qed.

Lemma TwoEndpoints_loop_shape :
  TwoEndpoints.loop =
  debounced (button_branch TwoEndpoints.TOGGLE_BUTTON_PIN_1 attribute_ref_1
                           plugin_unit_endpoint_id_1;;
             button_branch TwoEndpoints.TOGGLE_BUTTON_PIN_2 attribute_ref_2
                           plugin_unit_endpoint_id_2).
Proof. reflexivity. Qed.

Arguments stamp_and_toggle : simpl never.
Arguments button_branch : simpl never.

Section Invariant.

Variable cb : callback_t.
Hypothesis cb_ok : well_behaved cb.

(** Name the world after the next batch of the schedule and record what
    it shares with the world before. *)
Ltac gen_step :=
  match goal with
  | |- context [apply_envs cb ?w (hd [] ?s)] =>
      let W := fresh "W" in
      let HW := fresh "HW" in
      assert (HW := apply_envs_frame cb cb_ok (hd [] s) w);
      set (W := apply_envs cb w (hd [] s)) in *;
      destruct HW as (?&?&?&?)
  end.

Lemma run_bind {A B : Type} (m : prog A) (K : A -> prog B) :
  forall s w, exists s',
    run cb (bind m K) s w = run cb (K (run cb m s w).1) s' (run cb m s w).2.
Proof.
  induction m as [a|X e k IH]; intros s w.
  - exists s. reflexivity.
  - cbn. destruct (handle cb e (apply_envs cb w (hd [] s))) as [x w1]. apply IH.
Qed.

Lemma commit_summary ep cl attr v w :
  let r := framework_commit cb ByLoop ep cl attr v w in
  ints r.2 = ints w /\ clock r.2 = clock w /\
  exists l, timeline (trace r.2) = l ++ timeline (trace w) /\
            (l = [] \/ l = [OCommit ByLoop (ep, cl, attr) v]).
Proof.
  destruct (store w !! (ep, cl, attr)) as [old|] eqn:E.
  - destruct (commit_accepted cb cb_ok ByLoop ep cl attr v w) as (_&Hc&_&Hi&_&_&_&Ht);
      [eauto|].
    cbn. split; [exact Hi|]. split; [exact Hc|].
    exists [OCommit ByLoop (ep, cl, attr) v]. split; [exact Ht|]. right. reflexivity.
  - cbn. rewrite commit_refused by exact E. cbn.
    split; [reflexivity|]. split; [reflexivity|]. exists []. auto.
Qed.

(** The read-invert-set block under any schedule: at most one commit, on
    the channel's path. *)
Lemma toggle_summary r x s w :
  let w' := (run cb (TwoEndpoints.toggle r x) s w).2 in
  ints w' = ints w /\ clock w <= clock w' /\
  exists l, timeline (trace w') = l ++ timeline (trace w) /\
            (l = [] \/ exists v, l = [OCommit ByLoop (TwoEndpoints_path w x) v]).
Proof.
  unfold TwoEndpoints.toggle. cbn. repeat gen_step.
  match goal with |- context [framework_commit cb ByLoop ?ep ?cl ?attr ?u ?w0] =>
    destruct (commit_summary ep cl attr u w0) as (Hi & Hc & l & Ht & Hl);
    destruct (framework_commit cb ByLoop ep cl attr u w0) as [r0 w']
  end.
  cbn in *. split; [congruence|]. split; [lia|].
  exists l. split; [congruence|].
  destruct Hl as [-> | ->]; [left; reflexivity|right].
  assert (E : ints W x = ints w x) by congruence.
  unfold TwoEndpoints_path. rewrite E. eexists. reflexivity.
Qed.

(** One button's branch of [loop], entered at the world [w] of a poll
    that passed the debounce comparison at [c0]. *)
Lemma press_inv r x s w c0 :
  x <> last_toggle ->
  mid c0 w -> armed_for c0 (TwoEndpoints_path w x) (timeline (trace w)) ->
  let w' := (run cb (stamp_and_toggle r x) s w).2 in
  mid c0 w' /\ same_ids w w' /\
  forall a', a' <> TwoEndpoints_path w x ->
             armed_for c0 a' (timeline (trace w)) -> armed_for c0 a' (timeline (trace w')).
Proof.
  intros Hx (L & Hl & HL & Hc0 & Hb & Hs) Harm. unfold stamp_and_toggle. cbn.
  do 2 gen_step.
  match goal with |- context [run cb (TwoEndpoints.toggle r x) ?s0 ?w0] =>
    destruct (toggle_summary r x s0 w0) as (Hi & Hc & l & Ht & Hl');
    set (w1 := (run cb (TwoEndpoints.toggle r x) s0 w0).2) in *;
    set (W1 := w0) in *
  end.
  cbn in *.
  assert (Hids : same_ids w w1).
  { intros y Hy. rewrite Hi. subst W1. cbn.
    rewrite fn_lookup_insert_ne by congruence. congruence. }
  assert (Hp : TwoEndpoints_path W1 x = TwoEndpoints_path w x).
  { unfold TwoEndpoints_path. subst W1. cbn.
    rewrite fn_lookup_insert_ne by congruence. congruence. }
  rewrite Hp in Hl'.
  assert (HT : timeline (trace w1) = l ++ OMillis (clock W) :: timeline (trace w)).
  { rewrite Ht. subst W1. cbn. f_equal.
    match goal with H : timeline (trace W0) = _ |- _ => rewrite H end.
    rewrite timeline_millis. f_equal. assumption. }
  split; [|split; [exact Hids|]].
  - exists (clock W). split; [|split; [|split; [|split]]].
    + rewrite Hi. subst W1. cbn. apply fn_lookup_insert.
    + subst W1. cbn in Hc. lia.
    + subst W1. cbn in Hc. lia.
    + rewrite HT. destruct Hl' as [-> | [v ->]]; cbn [app].
      * apply millis_bounded. apply (bounded_mono L); [exact Hb|lia].
      * apply (fire_bounded L); [exact Hb|lia].
    + rewrite HT. destruct Hl' as [-> | [v ->]]; cbn [app].
      * apply millis_well_spaced, Hs.
      * apply fire_well_spaced; [exact Hs|].
        intros t Hin. specialize (Harm t Hin). lia.
  - intros a' Hne Ha' t Hin. rewrite HT in Hin.
    destruct Hl' as [-> | [v ->]]; cbn [app] in Hin.
    + apply Ha'. exact Hin.
    + cbn in Hin. apply elem_of_cons in Hin as [E|Hin]; [congruence|].
      apply Ha'. exact Hin.
Qed.

Lemma mid_env c0 b w :
  mid c0 w -> mid c0 (apply_envs cb w b).
Proof.
  intros (L & Hl & HL & Hc0 & Hb & Hs).
  destruct (apply_envs_frame cb cb_ok b w) as (Hi & _ & Hc & Ht).
  exists L. rewrite Hi, Ht. repeat split; try assumption; lia.
Qed.

Lemma branch_inv btn r x s w c0 :
  x <> last_toggle ->
  mid c0 w -> armed_for c0 (TwoEndpoints_path w x) (timeline (trace w)) ->
  let w' := (run cb (button_branch btn r x) s w).2 in
  mid c0 w' /\ same_ids w w' /\
  forall a', a' <> TwoEndpoints_path w x ->
             armed_for c0 a' (timeline (trace w)) -> armed_for c0 a' (timeline (trace w')).
Proof.
  intros Hx Hmid Harm. unfold button_branch. cbn.
  destruct (apply_envs_frame cb cb_ok (hd [] s) w) as (Hi & _ & Hc & Ht).
  pose proof (mid_env c0 (hd [] s) w Hmid) as HmidW.
  set (W := apply_envs cb w (hd [] s)) in *.
  destruct (lnot (pin_in W btn)).
  - assert (Hp : TwoEndpoints_path W x = TwoEndpoints_path w x)
      by (unfold TwoEndpoints_path; rewrite Hi; reflexivity).
    destruct (press_inv r x (tl s) W c0 Hx HmidW) as (Hm' & Hids & Harm').
    { rewrite Hp, Ht. exact Harm. }
    split; [exact Hm'|]. split.
    + intros y Hy. rewrite (Hids y Hy), Hi. reflexivity.
    + intros a' Hne Ha'. apply Harm'; [rewrite Hp; exact Hne|]. rewrite Ht. exact Ha'.
  - cbn. split; [exact HmidW|]. split.
    + intros y Hy. rewrite Hi. reflexivity.
    + intros a' _ Ha'. rewrite Ht. exact Ha'.
Qed.

Lemma mid_debounce_inv c0 w : mid c0 w -> debounce_inv w.
Proof. intros (L & Hl & HL & _ & Hb & Hs). exists L. auto. Qed.

(** The debounce comparison: when it passes at [c0], every trigger so far
    is more than 500 ms older than [c0]. *)
Lemma gate_inv (q : prog unit) s w :
  debounce_inv w ->
  (forall c0 s' w',
      mid c0 w' -> (forall a, armed_for c0 a (timeline (trace w'))) ->
      ints w' = ints w -> debounce_inv (run cb q s' w').2) ->
  debounce_inv (run cb (debounced q) s w).2.
Proof.
  intros (L & Hl & HL & Hb & Hs) Hq. unfold debounced. cbn.
  do 2 gen_step.
  assert (Hlt : ints W0 last_toggle = to_int (wrap32 L)) by (cbn in *; congruence).
  assert (HT : timeline (trace W0) = OMillis (clock W) :: timeline (trace w)).
  { cbn in *. match goal with H : timeline (trace W0) = _ |- _ => rewrite H end.
    rewrite timeline_millis. f_equal. assumption. }
  cbn in *. rewrite Hlt.
  destruct (Z.ltb_spec 500 (usub (wrap32 (clock W)) (to_int (wrap32 L)))) as [Hopen|Hshut].
  - pose proof (usub_le_elapsed (clock W) L ltac:(lia)) as Hle.
    apply (Hq (clock W)).
    + exists L. rewrite Hlt, HT. repeat split; try assumption; lia.
    + intros a t Hin. rewrite HT in Hin. specialize (Hb a t Hin). lia.
    + congruence.
  - cbn. exists L. rewrite Hlt, HT. repeat split; try assumption; lia.
Qed.

Lemma Light_poll_inv s w :
  debounce_inv w -> debounce_inv (run cb Light.loop s w).2.
Proof.
  intros Hinv. rewrite Light_loop_shape. apply gate_inv; [exact Hinv|].
  intros c0 s' w' Hmid Harm _.
  destruct (branch_inv Light.TOGGLE_BUTTON_PIN attribute_ref light_endpoint_id s' w' c0)
    as (Hm & _ & _); [discriminate|exact Hmid|apply Harm|].
  eapply mid_debounce_inv, Hm.
Qed.

(** A poll changes no global but [last_toggle]. *)
Lemma poller_ids (p : prog unit) :
  all_events poller_call p -> forall s w, same_ids w (run cb p s w).2.
Proof.
  induction 1 as [a|X e k He Hk IH]; intros s w; [intros y _; reflexivity|].
  cbn. destruct (apply_envs_frame cb cb_ok (hd [] s) w) as (Hi & _).
  set (W := apply_envs cb w (hd [] s)) in *.
  assert (Hh : same_ids W (handle cb e W).2).
  { destruct e; try contradiction; try (intros y _; reflexivity).
    - cbn in He. subst x. intros y Hy. cbn. apply fn_lookup_insert_ne. congruence.
    - intros y _. cbn.
      destruct (commit_frame cb cb_ok ByLoop endpoint_id cluster_id attribute_id v W)
        as (_ & _ & Hi' & _).
      cbn in Hi'. rewrite Hi'. reflexivity. }
  destruct (handle cb e W) as [x w1]. cbn in Hh.
  intros y Hy. rewrite (IH x (tl s) w1 y Hy), (Hh y Hy), Hi. reflexivity.
Qed.

Lemma TwoEndpoints_poll_inv s w :
  TwoEndpoints_ids_distinct w -> debounce_inv w ->
  TwoEndpoints_ids_distinct (run cb TwoEndpoints.loop s w).2 /\
  debounce_inv (run cb TwoEndpoints.loop s w).2.
Proof.
  intros Hne Hinv. split.
  - pose proof (poller_ids _ TwoEndpoints_loop_calls s w) as Hids.
    unfold TwoEndpoints_ids_distinct. rewrite !Hids by discriminate. exact Hne.
  - rewrite TwoEndpoints_loop_shape. apply gate_inv; [exact Hinv|].
    intros c0 s' w' Hmid Harm Hints.
    set (b1 := button_branch TwoEndpoints.TOGGLE_BUTTON_PIN_1 attribute_ref_1
                             plugin_unit_endpoint_id_1).
    set (b2 := button_branch TwoEndpoints.TOGGLE_BUTTON_PIN_2 attribute_ref_2
                             plugin_unit_endpoint_id_2).
    destruct (run_bind b1 (fun _ => b2) s' w') as [s'' E].
    change (debounce_inv (run cb (bind b1 (fun _ => b2)) s' w').2). rewrite E.
    destruct (branch_inv TwoEndpoints.TOGGLE_BUTTON_PIN_1 attribute_ref_1
                plugin_unit_endpoint_id_1 s' w' c0)
      as (Hm1 & Hids1 & Harm1); [discriminate|exact Hmid|apply Harm|].
    fold b1 in Hm1, Hids1, Harm1. set (w1 := (run cb b1 s' w').2) in *.
    assert (Hp2 : TwoEndpoints_path w1 plugin_unit_endpoint_id_2 =
                  TwoEndpoints_path w' plugin_unit_endpoint_id_2)
      by (unfold TwoEndpoints_path; rewrite Hids1 by discriminate; reflexivity).
    destruct (branch_inv TwoEndpoints.TOGGLE_BUTTON_PIN_2 attribute_ref_2
                plugin_unit_endpoint_id_2 s'' w1 c0)
      as (Hm2 & _ & _); [discriminate|exact Hm1| |].
    + rewrite Hp2. apply Harm1; [|apply Harm].
      unfold TwoEndpoints_path. rewrite Hints. intros E'. apply Hne. congruence.
    + eapply mid_debounce_inv, Hm2.
Qed.

End Invariant.

Lemma no_commit_no_trigger t : commits_by ByLoop t = [] -> triggers t = [].
Proof.
  induction t as [|o t IH]; [reflexivity|].
  destruct o as [c|p l|x|[|] a v]; try exact IH.
  intros H. discriminate H.
Qed.

Lemma untouched_debounce_inv w : untouched w -> debounce_inv w.
Proof.
  intros (Hl & Ht & Hc). exists 0. rewrite Hl.
  assert (E : triggers (timeline (trace w)) = [])
    by (rewrite triggers_timeline; apply no_commit_no_trigger, Ht).
  split; [reflexivity|]. split; [exact Hc|]. split.
  - intros a t Hin. rewrite E in Hin. inversion Hin.
  - intros a. rewrite E. exact I.
Qed.

Section Setup.

Variable cb : callback_t.
Hypothesis cb_ok : well_behaved cb.

Lemma apply_envs_next_endpoint_id b w :
  next_endpoint_id (apply_envs cb w b) = next_endpoint_id w.
Proof.
  revert w. induction b as [|a b IH]; intros w; [reflexivity|].
  change (apply_envs cb w (a :: b)) with (apply_envs cb (apply_env cb w a) b).
  rewrite IH. destruct a as [d|p l|ep cl attr v]; try reflexivity.
  apply (commit_frame cb cb_ok).
Qed.

Lemma apply_envs_ints b w : ints (apply_envs cb w b) = ints w.
Proof. apply (apply_envs_frame cb cb_ok). Qed.

(** [setup] gives the two endpoints different identifiers. *)
Lemma TwoEndpoints_setup_ids s0 :
  TwoEndpoints_ids_distinct (run cb TwoEndpoints.setup s0 boot).2.
Proof.
  unfold TwoEndpoints_ids_distinct, TwoEndpoints.setup. cbn.
  repeat (first [rewrite apply_envs_ints | rewrite apply_envs_next_endpoint_id];
          cbn [ints next_endpoint_id with_next_endpoint_id with_store with_refs with_ints]).
  vm_compute. discriminate.
Qed.

End Setup.

(** C7: in every state the polling loop can reach from boot, whatever
    the environment does during [setup] and during the polls, the
    timestamps of two consecutive toggles of one channel differ by more
    than [DEBOUNCE_DELAY] = 500 ms; in the light sketch and, per channel,
    in the two-endpoint sketch.  (True times: the clock readings before
    their wrap-around to 32 bits.) *)
Theorem no_retrigger_within_the_window (s0 : schedule) (ss : list schedule) (a : path) :
  spaced Light.DEBOUNCE_DELAY
    (times_of a (triggers (trace
       (run_polls Light.on_attribute_update Light.loop ss
          (run Light.on_attribute_update Light.setup s0 boot).2)))) /\
  spaced TwoEndpoints.DEBOUNCE_DELAY
    (times_of a (triggers (trace
       (run_polls TwoEndpoints.on_attribute_update TwoEndpoints.loop ss
          (run TwoEndpoints.on_attribute_update TwoEndpoints.setup s0 boot).2)))).
Proof.
  split.
  - assert (H : forall ss w, debounce_inv w ->
                  debounce_inv (run_polls Light.on_attribute_update Light.loop ss w)).
    { clear. induction ss as [|s ss IH]; intros w Hw; [exact Hw|].
      apply IH. apply Light_poll_inv; [exact Light_callback_well_behaved|exact Hw]. }
    destruct (H ss _ (untouched_debounce_inv _
                (setup_untouched _ Light_callback_well_behaved _ Light_setup_calls
                   s0 boot boot_untouched))) as (L & _ & _ & _ & Hs).
    specialize (Hs a). rewrite triggers_timeline in Hs. exact Hs.
  - assert (H : forall ss w, TwoEndpoints_ids_distinct w -> debounce_inv w ->
                  debounce_inv (run_polls TwoEndpoints.on_attribute_update
                                          TwoEndpoints.loop ss w)).
    { clear. induction ss as [|s ss IH]; intros w Hne Hw; [exact Hw|].
      destruct (TwoEndpoints_poll_inv _ TwoEndpoints_callback_well_behaved s w Hne Hw)
        as [Hne' Hw'].
      apply IH; assumption. }
    destruct (H ss _ (TwoEndpoints_setup_ids _ TwoEndpoints_callback_well_behaved s0)
                (untouched_debounce_inv _
                   (setup_untouched _ TwoEndpoints_callback_well_behaved _
                      TwoEndpoints_setup_calls s0 boot boot_untouched)))
      as (L & _ & _ & _ & Hs).
    specialize (Hs a). rewrite triggers_timeline in Hs. exact Hs.
Qed.

(** The held press of C6, seen through [triggers]: held for 600 ms from
    time 1000, the light is triggered at 1000 and again at 1501. *)
Example triggers_of_a_held_press :
  triggers (trace (Light_polls (press_hold_release D9 600 3) Light_idle)) =
  [((1, 6, 0), 1501); ((1, 6, 0), 1000)].
Proof. vm_compute. reflexivity. Qed.

(** ** The unguarded read-modify-write *)




(** * More of the sketches *)

(** ** [setup] does not depend on the time nor on the buttons *)

Lemma all_events_impl (P Q : forall X, event X -> Prop) {A : Type} (p : prog A) :
  (forall X e, P X e -> Q X e) -> all_events P p -> all_events Q p.
Proof.
  intros HPQ. induction 1 as [a|X e k He Hk IH]; constructor; auto.
Qed.

Lemma setup_call_bringup X (e : event X) : setup_call X e -> bringup_call X e.
Proof. destruct e; cbn; auto. Qed.

Section SetupView.

Variable cb : callback_t.
Hypothesis cb_ok : well_behaved cb.

Lemma view_env b w :
  Forall (fun a => is_remote_write a = false) b ->
  setup_view (apply_envs cb w b) = setup_view w.
Proof.
  intros Hb.
  destruct (envs_quiet_facts cb cb_ok b w Hb) as (Hi & Hr & Hs & Ht & Hp & _).
  unfold setup_view.
  rewrite Hi, Hr, Hs, Ht, Hp, (apply_envs_next_endpoint_id cb cb_ok). reflexivity.
Qed.

Lemma view_handle {X : Type} (e : event X) w w0 :
  bringup_call X e -> setup_view w = setup_view w0 ->
  (handle cb e w).1 = (handle cb e w0).1 /\
  setup_view (handle cb e w).2 = setup_view (handle cb e w0).2.
Proof.
  intros He Hv. unfold setup_view in Hv. injection Hv as Hp Hi Hr Hs Hn Ht.
  destruct e; try contradiction; cbn; unfold setup_view; cbn;
    try (split; [reflexivity|congruence]).
  - destruct (device_attribute d) as [[cl attr] v]. cbn. split; congruence.
  - split; [|congruence]. unfold has_cluster. rewrite Hs. reflexivity.
  - split; [|congruence]. rewrite Hs. reflexivity.
Qed.

Lemma view_run {A : Type} (p : prog A) :
  all_events bringup_call p ->
  forall s w w0, no_remote_write s -> setup_view w = setup_view w0 ->
    (run cb p s w).1 = (run cb p [] w0).1 /\
    setup_view (run cb p s w).2 = setup_view (run cb p [] w0).2.
Proof.
  induction 1 as [a|X e k He Hk IH]; intros s w w0 Hs Hv; [split; [reflexivity|exact Hv]|].
  cbn. rewrite apply_envs_nil.
  destruct (view_handle e (apply_envs cb w (hd [] s)) w0 He) as [Hx Hw].
  { rewrite view_env by auto with quiet. exact Hv. }
  destruct (handle cb e (apply_envs cb w (hd [] s))) as [x w1].
  destruct (handle cb e w0) as [x0 w2]. cbn in Hx, Hw. subst x0.
  apply IH; [auto with quiet|exact Hw].
Qed.

End SetupView.

Lemma setup_view_eq w w0 :
  setup_view w = setup_view w0 ->
  pin_out w = pin_out w0 /\ ints w = ints w0 /\ refs w = refs w0 /\
  store w = store w0 /\ trace w = trace w0.
Proof. intros H. injection H. auto. Qed.

Lemma Light_setup_view s0 :
  no_remote_write s0 ->
  setup_view (run Light.on_attribute_update Light.setup s0 boot).2 = setup_view Light_ready.
Proof.
  intros Hs. apply (view_run _ Light_callback_well_behaved); [|exact Hs|reflexivity].
  exact (all_events_impl setup_call bringup_call _ setup_call_bringup Light_setup_calls).
Qed.

Lemma TwoEndpoints_setup_view s0 :
  no_remote_write s0 ->
  setup_view (run TwoEndpoints.on_attribute_update TwoEndpoints.setup s0 boot).2 =
  setup_view TwoEndpoints_ready.
Proof.
  intros Hs. apply (view_run _ TwoEndpoints_callback_well_behaved); [|exact Hs|reflexivity].
  exact (all_events_impl setup_call bringup_call _ setup_call_bringup TwoEndpoints_setup_calls).
Qed.

Lemma Curtain_setup_view C A s0 :
  no_remote_write s0 ->
  setup_view (run Curtain.on_attribute_update (Curtain.setup C A) s0 boot).2 =
  setup_view (Curtain_ready C A).
Proof.
  intros Hs. apply (view_run _ Curtain_callback_well_behaved); [|exact Hs|reflexivity].
  exact (all_events_impl setup_call bringup_call _ setup_call_bringup
           (Curtain_setup_calls C A)).
Qed.

Lemma Light_read_store w v :
  refs w attribute_ref = Some (Light_path w) -> store w !! Light_path w = Some v ->
  Light_read w = v.
Proof.
  intros Hr Hv. apply (inj Some). rewrite <- Light_read_eq, Hv; [reflexivity|].
  split; [exact Hr|eauto].
Qed.

Lemma TwoEndpoints_read_store r x w v :
  refs w r = Some (TwoEndpoints_path w x) -> store w !! TwoEndpoints_path w x = Some v ->
  TwoEndpoints_read r w = v.
Proof.
  intros Hr Hv. apply (inj Some). rewrite <- (TwoEndpoints_read_eq r x), Hv; [reflexivity|].
  split; [exact Hr|eauto].
Qed.

Lemma Light_setup_synced s0 :
  no_remote_write s0 ->
  let w := (run Light.on_attribute_update Light.setup s0 boot).2 in
  refs w attribute_ref = Some (Light_path w) /\
  store w !! Light_path w = Some (esp_matter_bool false) /\
  (forall p, pin_out w p = false) /\ trace w = [] /\ ints w last_toggle = 0.
Proof.
  intros Hs w. destruct (setup_view_eq _ _ (Light_setup_view s0 Hs)) as (Hp & Hi & Hr & Hst & Ht).
  fold w in Hp, Hi, Hr, Hst, Ht. clearbody w.
  unfold Light_path. rewrite Hp, Hi, Hr, Hst, Ht. repeat split.
Qed.

(** X1: [setup] of the light sketch, whatever the time it takes and
    whatever the button does meanwhile (the stack is started at its end,
    so that no controller writes before), leaves the handle bound to the
    on/off attribute of the endpoint it created, that attribute [false],
    every pin undriven, nothing traced and [last_toggle] zero. *)
Theorem light_setup_binds_the_channel (s0 : schedule) :
  no_remote_write s0 ->
  let w := (run Light.on_attribute_update Light.setup s0 boot).2 in
  Light_bound w /\ Light_read w = esp_matter_bool false /\
  (forall p, pin_out w p = false) /\ trace w = [] /\ ints w last_toggle = 0.
Proof.
  intros Hs w. destruct (Light_setup_synced s0 Hs) as (Hr & Hv & Hp & Ht & Hl).
  fold w in Hr, Hv, Hp, Ht, Hl.
  split; [split; [exact Hr|eauto]|].
  split; [exact (Light_read_store w _ Hr Hv)|]. auto.
Qed.

Lemma light_setup_binds_the_channel_witness :
  Light_read (run Light.on_attribute_update Light.setup
                [[Tick 5]; [SetPin D9 LOW]; []; [Tick 40; SetPin D9 HIGH]] boot).2 =
  esp_matter_bool false.
Proof.
  destruct (light_setup_binds_the_channel
              [[Tick 5]; [SetPin D9 LOW]; []; [Tick 40; SetPin D9 HIGH]])
    as (_ & H & _); [repeat constructor|exact H].
Defined.

Lemma TwoEndpoints_setup_synced s0 :
  no_remote_write s0 ->
  let w := (run TwoEndpoints.on_attribute_update TwoEndpoints.setup s0 boot).2 in
  TwoEndpoints_ids_distinct w /\
  refs w attribute_ref_1 = Some (TwoEndpoints_path w plugin_unit_endpoint_id_1) /\
  store w !! TwoEndpoints_path w plugin_unit_endpoint_id_1 = Some (esp_matter_bool false) /\
  refs w attribute_ref_2 = Some (TwoEndpoints_path w plugin_unit_endpoint_id_2) /\
  store w !! TwoEndpoints_path w plugin_unit_endpoint_id_2 = Some (esp_matter_bool false) /\
  (forall p, pin_out w p = false) /\ trace w = [] /\ ints w last_toggle = 0.
Proof.
  intros Hs w. destruct (setup_view_eq _ _ (TwoEndpoints_setup_view s0 Hs)) as (Hp & Hi & Hr & Hst & Ht).
  fold w in Hp, Hi, Hr, Hst, Ht. clearbody w.
  unfold TwoEndpoints_ids_distinct, TwoEndpoints_path. rewrite Hp, Hi, Hr, Hst, Ht.
  split; [vm_compute; discriminate|]. repeat split.
Qed.

(** X2: [setup] of the two-endpoint sketch, under the same conditions,
    gives the two endpoints different identifiers, binds each handle to
    the on/off attribute of its own endpoint, both [false], and leaves
    every pin undriven, nothing traced and [last_toggle] zero. *)
Theorem two_endpoint_setup_binds_both_channels (s0 : schedule) :
  no_remote_write s0 ->
  let w := (run TwoEndpoints.on_attribute_update TwoEndpoints.setup s0 boot).2 in
  TwoEndpoints_ids_distinct w /\
  TwoEndpoints_bound w attribute_ref_1 plugin_unit_endpoint_id_1 /\
  TwoEndpoints_bound w attribute_ref_2 plugin_unit_endpoint_id_2 /\
  TwoEndpoints_read attribute_ref_1 w = esp_matter_bool false /\
  TwoEndpoints_read attribute_ref_2 w = esp_matter_bool false /\
  (forall p, pin_out w p = false) /\ trace w = [] /\ ints w last_toggle = 0.
Proof.
  intros Hs w.
  destruct (TwoEndpoints_setup_synced s0 Hs) as (Hne & Hr1 & Hv1 & Hr2 & Hv2 & Hp & Ht & Hl).
  fold w in Hne, Hr1, Hv1, Hr2, Hv2, Hp, Ht, Hl.
  split; [exact Hne|].
  split; [split; [exact Hr1|eauto]|]. split; [split; [exact Hr2|eauto]|].
  split; [exact (TwoEndpoints_read_store _ _ w _ Hr1 Hv1)|].
  split; [exact (TwoEndpoints_read_store _ _ w _ Hr2 Hv2)|]. auto.
Qed.

Lemma two_endpoint_setup_binds_both_channels_witness :
  let w := (run TwoEndpoints.on_attribute_update TwoEndpoints.setup
              [[Tick 5; SetPin D8 LOW]; []; [Tick 7]] boot).2 in
  ints w plugin_unit_endpoint_id_1 <> ints w plugin_unit_endpoint_id_2 /\
  TwoEndpoints_read attribute_ref_2 w = esp_matter_bool false.
Proof.
  destruct (two_endpoint_setup_binds_both_channels [[Tick 5; SetPin D8 LOW]; []; [Tick 7]])
    as (H1 & _ & _ & _ & H2 & _); [repeat constructor|].
  split; [exact H1|exact H2].
Defined.

Lemma has_cluster_lookup w ep cl attr :
  has_cluster w ep cl = false -> store w !! (ep, cl, attr) = None.
Proof.
  unfold has_cluster. intros H. apply bool_decide_eq_false in H.
  destruct (store w !! (ep, cl, attr)) as [v|] eqn:E; [|reflexivity].
  exfalso. apply H. exists (ep, cl, attr), v. split; [exact E|reflexivity].
Qed.

Lemma Curtain_ready_facts C A :
  let w := Curtain_ready C A in
  let a := Curtain_requested_path C A w in
  refs w attribute_ref = (if bool_decide (is_Some (store w !! a)) then Some a else None) /\
  store w !! Curtain_path w = Some (esp_matter_bitmap8 0) /\
  (forall p, pin_out w p = false) /\ trace w = [] /\ ints w last_toggle = 0.
Proof.
  unfold Curtain_ready, Curtain.setup. cbn. rewrite !apply_envs_nil. cbn.
  split; [|repeat split].
  match goal with |- context [has_cluster ?w ?ep C] =>
    destruct (has_cluster w ep C) eqn:E;
      [reflexivity|apply (has_cluster_lookup w ep C A) in E] end.
  transitivity (@None path); [reflexivity|]. symmetry.
  rewrite bool_decide_eq_false_2; [reflexivity|].
  intros [v Hv]. discriminate (eq_trans (eq_sym E) Hv).
Qed.

Lemma Curtain_setup_synced C A s0 :
  no_remote_write s0 ->
  let w := (run Curtain.on_attribute_update (Curtain.setup C A) s0 boot).2 in
  let a := Curtain_requested_path C A w in
  refs w attribute_ref = (if bool_decide (is_Some (store w !! a)) then Some a else None) /\
  store w !! Curtain_path w = Some (esp_matter_bitmap8 0) /\
  (forall p, pin_out w p = false) /\ trace w = [] /\ ints w last_toggle = 0.
Proof.
  intros Hs w.
  destruct (setup_view_eq _ _ (Curtain_setup_view C A s0 Hs)) as (Hp & Hi & Hr & Hst & Ht).
  fold w in Hp, Hi, Hr, Hst, Ht. clearbody w.
  unfold Curtain_path, Curtain_requested_path. rewrite Hp, Hi, Hr, Hst, Ht.
  exact (Curtain_ready_facts C A).
Qed.

Lemma Curtain_read_null w : refs w attribute_ref = None -> Curtain_read w = esp_matter_invalid.
Proof. intros Hr. rewrite Curtain_read_eq, Hr. reflexivity. Qed.

(** X3: [setup] of the window-covering sketch resolves its handle with
    [CLUSTER_ID] and [ATTRIBUTE_ID] on the endpoint it has just created.
    Whatever the two names stand for, whatever the time [setup] takes and
    whatever the button does meanwhile: the handle is bound to the path
    (curtain_endpoint_id, CLUSTER_ID, ATTRIBUTE_ID) when that path is in
    the data model and is NULL when it is not; the getter returns the
    value stored at that path, and the invalid value it started from when
    there is none; the operational status of the endpoint holds the 0 of
    the configuration; no pin is driven and nothing is traced. *)
Theorem curtain_setup_resolves_the_requested_path
    (CLUSTER_ID ATTRIBUTE_ID : Z) (s0 : schedule) :
  no_remote_write s0 ->
  let w := (run Curtain.on_attribute_update (Curtain.setup CLUSTER_ID ATTRIBUTE_ID)
              s0 boot).2 in
  let a := Curtain_requested_path CLUSTER_ID ATTRIBUTE_ID w in
  refs w attribute_ref = (if bool_decide (is_Some (store w !! a)) then Some a else None) /\
  Curtain_read w = default esp_matter_invalid (store w !! a) /\
  store w !! Curtain_path w = Some (esp_matter_bitmap8 0) /\
  (forall p, pin_out w p = false) /\ trace w = [].
Proof.
  intros Hs w a.
  destruct (Curtain_setup_synced CLUSTER_ID ATTRIBUTE_ID s0 Hs) as (Hr & Hv & Hp & Ht & _).
  fold w in Hr, Hv, Hp, Ht. fold a in Hr.
  split; [exact Hr|]. split; [|auto].
  rewrite Curtain_read_eq, Hr.
  destruct (bool_decide (is_Some (store w !! a))) eqn:E; [reflexivity|].
  apply bool_decide_eq_false in E. destruct (store w !! a); [|reflexivity].
  exfalso. apply E. eauto.
Qed.

Lemma curtain_setup_resolves_the_requested_path_witness :
  Curtain_read (run Curtain.on_attribute_update
                  (Curtain.setup OnOff_Id OnOff_Attributes_OnOff_Id)
                  [[Tick 9]; [SetPin D9 LOW]] boot).2 = esp_matter_invalid /\
  Curtain_read (run Curtain.on_attribute_update
                  (Curtain.setup WindowCovering_Id
                     WindowCovering_Attributes_OperationalStatus_Id)
                  [[Tick 9]; [SetPin D9 LOW]] boot).2 = esp_matter_bitmap8 0.
Proof.
  split.
  - destruct (curtain_setup_resolves_the_requested_path OnOff_Id OnOff_Attributes_OnOff_Id
                [[Tick 9]; [SetPin D9 LOW]]) as (_ & H & _); [repeat constructor|exact H].
  - destruct (curtain_setup_resolves_the_requested_path WindowCovering_Id
                WindowCovering_Attributes_OperationalStatus_Id
                [[Tick 9]; [SetPin D9 LOW]]) as (_ & H & _); [repeat constructor|exact H].
Defined.

(** ** The sketch with a setup payload of its own *)

Lemma CustomLight_setup_calls f g h : all_events bringup_call (CustomLight.setup f g h).
Proof. unfold CustomLight.setup, CustomLight.GenerateCustomQRCode. events_tac. Qed.

(** X4: [setup] of the second sketch of part_001 brings up the very
    light of main.cpp, whatever the SDK answers to the validity checks of
    [GenerateCustomQRCode]: the same pins, globals, handle and data model
    as the [setup] of the light sketch leaves, no pin driven and nothing
    committed; and it reports on the serial port, from
    "--- Start Settings ---" to "--- Settings Complete ---", the answers of
    the three checks in between, the one on the PIN code twice. *)
Theorem custom_setup_builds_the_same_light
    (isValidManualCode isValidQRCodePayload : CustomLight.PayloadContents -> bool)
    (IsValidSetupPIN : Z -> bool) (s0 : schedule) :
  no_remote_write s0 ->
  let w := (run Light.on_attribute_update
              (CustomLight.setup isValidManualCode isValidQRCodePayload IsValidSetupPIN)
              s0 boot).2 in
  let payload := CustomLight.Payload 1217 5678 20241214 3841 (Some CustomLight.kBLE) in
  pin_out w = pin_out Light_ready /\ ints w = ints Light_ready /\
  refs w = refs Light_ready /\ store w = store Light_ready /\
  Light_bound w /\ Light_read w = esp_matter_bool false /\
  pin_writes (trace w) = [] /\ all_commits (trace w) = [] /\
  rev (serial_out (trace w)) =
    [PStr "--- Start Settings ---"; PNewline;
     PStr "Start Matter Settings"; PNewline;
     PStr "Setup Node"; PNewline;
     PStr "Setup Light Endpoint"; PNewline;
     PStr "Setup DAC"; PNewline;
     PStr "Start Matter Device"; PNewline;
     PStr "Print Onboarding Codes"; PNewline;
     PStr "isValidManualCode: "; PNum (Z.b2z (isValidManualCode payload)); PNewline;
     PStr "isValidQRCodePayload: "; PNum (Z.b2z (isValidQRCodePayload payload)); PNewline;
     PStr "IsValidSetupPIN: "; PNum (Z.b2z (IsValidSetupPIN 20241214)); PNewline;
     PNum (Z.b2z (IsValidSetupPIN 20241214)); PNewline;
     PStr "--- Settings Complete ---"; PNewline].
Proof.
  intros Hs w payload.
  destruct (setup_view_eq _ _
              (proj2 (view_run _ Light_callback_well_behaved _
                        (CustomLight_setup_calls isValidManualCode isValidQRCodePayload
                           IsValidSetupPIN)
                        s0 boot boot Hs eq_refl)))
    as (Hp & Hi & Hr & Hst & Ht).
  fold w in Hp, Hi, Hr, Hst, Ht. clearbody w.
  assert (HrL : refs w attribute_ref = Some (Light_path w))
    by (unfold Light_path; rewrite Hr, Hi; reflexivity).
  assert (HvL : store w !! Light_path w = Some (esp_matter_bool false))
    by (unfold Light_path; rewrite Hst, Hi; reflexivity).
  split; [rewrite Hp; reflexivity|]. split; [rewrite Hi; reflexivity|].
  split; [rewrite Hr; reflexivity|]. split; [rewrite Hst; reflexivity|].
  split; [split; [exact HrL|eauto]|].
  split; [exact (Light_read_store w _ HrL HvL)|].
  rewrite Ht. repeat split.
Qed.

Lemma custom_setup_builds_the_same_light_witness :
  store (run Light.on_attribute_update
           (CustomLight.setup (fun _ => true) (fun _ => true) (fun _ => true))
           [[Tick 3]; []; [SetPin D9 LOW]] boot).2 = store Light_ready.
Proof.
  destruct (custom_setup_builds_the_same_light (fun _ => true) (fun _ => true) (fun _ => true)
              [[Tick 3]; []; [SetPin D9 LOW]])
    as (_ & _ & _ & H & _); [repeat constructor|exact H].
Defined.

(** ** The callbacks never refuse *)

(** X5: none of the callbacks ever refuses an update or calls back
    into the stack.  On every input each returns [ESP_OK], having made no
    call but reads of the endpoint globals, [digitalWrite] and prints; so
    every update of an attribute that exists, whoever requests it and
    whatever the value, is committed. *)
Theorem callbacks_accept_every_update
    (o : origin) (ep cl attr : Z) (v : esp_matter_attr_val_t) (w : world) :
  (forall type,
      callback_shape (Light.on_attribute_update type ep cl attr v) /\
      callback_shape (TwoEndpoints.on_attribute_update type ep cl attr v) /\
      callback_shape (Curtain.on_attribute_update type ep cl attr v) /\
      (interp0 (Light.on_attribute_update type ep cl attr v) w).1 = ESP_OK /\
      (interp0 (TwoEndpoints.on_attribute_update type ep cl attr v) w).1 = ESP_OK /\
      (interp0 (Curtain.on_attribute_update type ep cl attr v) w).1 = ESP_OK) /\
  (is_Some (store w !! (ep, cl, attr)) ->
   forall cb, cb = Light.on_attribute_update \/ cb = TwoEndpoints.on_attribute_update \/
              cb = Curtain.on_attribute_update ->
     (framework_commit cb o ep cl attr v w).1 = ESP_OK /\
     store (framework_commit cb o ep cl attr v w).2 = <[(ep, cl, attr):=v]> (store w)).
Proof.
  split.
  - intros type.
    split; [apply Light_callback_well_behaved|].
    split; [apply TwoEndpoints_callback_well_behaved|].
    split; [apply Curtain_callback_well_behaved|].
    rewrite Light_callback_eq, TwoEndpoints_callback_eq, Curtain_callback_eq. auto.
  - intros Hsome cb Hcb.
    assert (Hok : well_behaved cb).
    { destruct Hcb as [-> | [-> | ->]]; auto with quiet. }
    destruct (commit_accepted cb Hok o ep cl attr v w Hsome) as (H1 & _ & _ & _ & _ & _ & H2 & _).
    auto.
Qed.

Lemma callbacks_accept_every_update_witness :
  (framework_commit Curtain.on_attribute_update ByController 1 258 10
     (esp_matter_bitmap8 5) (Curtain_ready OnOff_Id OnOff_Attributes_OnOff_Id)).1 = ESP_OK.
Proof.
  destruct (callbacks_accept_every_update ByController 1 258 10 (esp_matter_bitmap8 5)
              (Curtain_ready OnOff_Id OnOff_Attributes_OnOff_Id)) as [_ H].
  destruct (H ltac:(vm_compute; eauto) Curtain.on_attribute_update) as [H1 _]; [auto|].
  exact H1.
Defined.

(** ** The two-endpoint callback when the identifiers coincide *)

(** X6: the two-endpoint callback tries endpoint 1 first and endpoint
    2 only in the [else] branch: an invocation writes at most one pin,
    and when the two identifiers are equal (as before [setup] assigns
    them, both 0) an update of the on/off attribute of that endpoint
    drives [LED_PIN_1] and never [LED_PIN_2]. *)
Theorem first_endpoint_wins_when_ids_coincide
    (type : callback_type_t) (ep cl attr : Z) (v : esp_matter_attr_val_t) (w : world) :
  (let w' := (interp0 (TwoEndpoints.on_attribute_update type ep cl attr v) w).2 in
   w' = w \/ w' = drive TwoEndpoints.LED_PIN_1 (val_b v) w \/
   w' = drive TwoEndpoints.LED_PIN_2 (val_b v) w) /\
  (ints w plugin_unit_endpoint_id_1 = ints w plugin_unit_endpoint_id_2 ->
   interp0 (TwoEndpoints.on_attribute_update PRE_UPDATE (ints w plugin_unit_endpoint_id_2)
              TwoEndpoints.CLUSTER_ID TwoEndpoints.ATTRIBUTE_ID v) w =
   (ESP_OK, drive TwoEndpoints.LED_PIN_1 (val_b v) w)).
Proof.
  split.
  - rewrite TwoEndpoints_callback_eq. cbn [snd].
    destruct (_ && _); [|auto].
    destruct (ep =? _); [auto|]. destruct (ep =? _); auto.
  - intros E. rewrite TwoEndpoints_callback_eq, E, !Z.eqb_refl. reflexivity.
Qed.

Lemma first_endpoint_wins_when_ids_coincide_witness :
  interp0 (TwoEndpoints.on_attribute_update PRE_UPDATE 0 6 0 (esp_matter_bool true)) boot =
  (ESP_OK, drive D0 true boot).
Proof.
  destruct (first_endpoint_wins_when_ids_coincide PRE_UPDATE 0 6 0 (esp_matter_bool true) boot)
    as [_ H].
  exact (H eq_refl).
Defined.

(** ** A controller writes the attribute *)

Lemma Light_remote_write_eq v w :
  Light_bound w ->
  apply_envs Light.on_attribute_update w [remote_write (Light_path w) v] =
  commit ByController (Light_path w) v (drive Light.LED_PIN (val_b v) w).
Proof.
  intros [_ Hsome]. unfold apply_envs, remote_write. cbn [fold_left apply_env fst snd Light_path].
  rewrite Light_commit_eq by exact Hsome. rewrite !Z.eqb_refl. reflexivity.
Qed.

Lemma remote_update_facts v w :
  Light_bound w ->
  let w' := apply_envs Light.on_attribute_update w [remote_write (Light_path w) v] in
  Light_bound w' /\ Light_read w' = v /\
  pin_out w' Light.LED_PIN = val_b v /\
  pin_writes (trace w') = (Light.LED_PIN, val_b v) :: pin_writes (trace w) /\
  all_commits (trace w') = (ByController, Light_path w, v) :: all_commits (trace w) /\
  ints w' = ints w /\ clock w' = clock w /\ toggles w' = toggles w.
Proof.
  intros Hb w'. subst w'. rewrite (Light_remote_write_eq v w Hb).
  destruct Hb as [Hr Hsome].
  set (w' := commit _ _ _ _).
  assert (Hr' : refs w' attribute_ref = Some (Light_path w')) by exact Hr.
  assert (Hv' : store w' !! Light_path w' = Some v) by apply lookup_insert_eq.
  split; [split; [exact Hr'|eauto]|].
  split; [exact (Light_read_store w' v Hr' Hv')|].
  split; [apply fn_lookup_insert|]. repeat split.
Qed.

(** X7: a controller's write of [v] to the light's attribute, whatever
    the state of the poller: the stack commits [v], the getter returns
    [v] afterwards, [LED_PIN] has been driven exactly once, to the boolean
    of [v], and neither [last_toggle] nor the clock nor the count of the
    poller's toggles has changed, so that the debounce window of the
    button is as before. *)
Theorem remote_update_reaches_the_led (v : esp_matter_attr_val_t) (w : world) :
  Light_bound w ->
  let w' := apply_envs Light.on_attribute_update w [remote_write (Light_path w) v] in
  Light_bound w' /\ Light_read w' = v /\
  pin_out w' Light.LED_PIN = val_b v /\
  pin_writes (trace w') = (Light.LED_PIN, val_b v) :: pin_writes (trace w) /\
  all_commits (trace w') = (ByController, Light_path w, v) :: all_commits (trace w) /\
  ints w' = ints w /\ clock w' = clock w /\ toggles w' = toggles w.
Proof.
  intros Hb w'.
  destruct (remote_update_facts v w Hb) as (Hb' & Hr & Hp & Hw & Hc & Hi & Hk & Ht).
  fold w' in Hb', Hr, Hp, Hw, Hc, Hi, Hk, Ht.
  split; [exact Hb'|]. split; [exact Hr|]. split; [exact Hp|]. split; [exact Hw|].
  split; [exact Hc|]. split; [exact Hi|]. split; [exact Hk|exact Ht].
Qed.

Lemma remote_update_reaches_the_led_witness :
  let w' := apply_envs Light.on_attribute_update Light_ready
              [RemoteWrite 1 6 0 (esp_matter_bool true)] in
  Light_read w' = esp_matter_bool true /\ pin_out w' D0 = true.
Proof.
  destruct (remote_update_reaches_the_led (esp_matter_bool true) Light_ready)
    as (_ & H1 & H2 & _).
  - split; [reflexivity|]. vm_compute. eauto.
  - split; [exact H1|exact H2].
Defined.

(** X8: the callback's effect is idempotent: a controller writing
    the same value to the light's attribute a second time leaves the data
    model, the globals and the level of every pin as the first write left
    them; only the trace grows, by one more commit and one more
    [digitalWrite] of the same level. *)
Theorem remote_update_is_idempotent (v : esp_matter_attr_val_t) (w : world) :
  Light_bound w ->
  let w1 := apply_envs Light.on_attribute_update w [remote_write (Light_path w) v] in
  let w2 := apply_envs Light.on_attribute_update w1 [remote_write (Light_path w1) v] in
  store w2 = store w1 /\ (forall p, pin_out w2 p = pin_out w1 p) /\
  ints w2 = ints w1 /\ refs w2 = refs w1 /\ Light_read w2 = Light_read w1 /\
  pin_writes (trace w2) = (Light.LED_PIN, val_b v) :: pin_writes (trace w1).
Proof.
  intros Hb w1 w2.
  destruct (remote_update_facts v w Hb) as (Hb1 & Hr1 & _).
  fold w1 in Hb1, Hr1.
  destruct (remote_update_facts v w1 Hb1) as (_ & Hr2 & _ & Hpw & _).
  fold w2 in Hr2, Hpw.
  assert (E2 : w2 = commit ByController (Light_path w1) v
                      (drive Light.LED_PIN (val_b v) w1))
    by exact (Light_remote_write_eq v w1 Hb1).
  assert (E1 : w1 = commit ByController (Light_path w) v
                      (drive Light.LED_PIN (val_b v) w))
    by exact (Light_remote_write_eq v w Hb).
  clearbody w1 w2.
  split.
  { rewrite E2. change (<[Light_path w1:=v]> (store w1) = store w1). rewrite E1.
    change (<[Light_path w:=v]> (<[Light_path w:=v]> (store w)) =
            <[Light_path w:=v]> (store w)).
    apply insert_insert_eq. }
  split.
  { intros p. rewrite E2. change ((<[Light.LED_PIN:=val_b v]> (pin_out w1)) p = pin_out w1 p).
    destruct (decide (p = Light.LED_PIN)) as [->|Hp].
    - rewrite fn_lookup_insert, E1. symmetry. apply fn_lookup_insert.
    - apply fn_lookup_insert_ne. congruence. }
  split; [rewrite E2; reflexivity|]. split; [rewrite E2; reflexivity|].
  split; [congruence|exact Hpw].
Qed.

Lemma remote_update_is_idempotent_witness :
  let w1 := apply_envs Light.on_attribute_update Light_ready
              [RemoteWrite 1 6 0 (esp_matter_bool true)] in
  let w2 := apply_envs Light.on_attribute_update w1
              [RemoteWrite 1 6 0 (esp_matter_bool true)] in
  store w2 = store w1.
Proof.
  destruct (remote_update_is_idempotent (esp_matter_bool true) Light_ready) as [H _].
  - split; [reflexivity|]. vm_compute. eauto.
  - exact H.
Defined.

(** X9: a press after a controller's write inverts the controller's
    value.  When the write lands before the poll reads the attribute (and
    not between its read and its request, the interleaving [race]), nothing
    is lost: the poll reads [v], commits its negation and drives the LED to
    it, after the controller's commit. *)
Theorem toggle_after_remote_write_inverts_it
    (v : esp_matter_attr_val_t) (b : list env_action) (w : world) :
  Light_bound w -> Forall (fun a => is_remote_write a = false) b ->
  let w0 := apply_envs Light.on_attribute_update w [remote_write (Light_path w) v] in
  let W := apply_envs Light.on_attribute_update w0 b in
  Light_armed W -> pin_in W Light.TOGGLE_BUTTON_PIN = LOW ->
  let w' := (run Light.on_attribute_update Light.loop [b] w0).2 in
  Light_read w' = flip v /\ pin_out w' Light.LED_PIN = negb (val_b v) /\
  all_commits (trace w') =
    (ByLoop, Light_path w, flip v) :: (ByController, Light_path w, v) ::
    all_commits (trace w).
Proof.
  intros Hb Hq w0 W Ha Hp w'.
  destruct (remote_update_facts v w Hb) as (Hb0 & Hr0 & _ & _ & Hc0 & Hi0 & _).
  fold w0 in Hb0, Hr0, Hc0, Hi0.
  pose proof (Light_read_eq w0 Hb0) as Hv0. rewrite Hr0 in Hv0.
  assert (Hw' : w' = Light_fired v W).
  { subst w'. rewrite (Light_poll_single b w0 v Hb0 Hv0 Hq). fold W.
    unfold Light_armed in Ha. apply Z.ltb_lt in Ha. rewrite Ha, Hp. reflexivity. }
  destruct (Light_bound_env b w0 Hq Hb0) as (HbW & _ & HiW). fold W in HbW, HiW.
  destruct (envs_quiet_facts _ Light_callback_well_behaved b w0 Hq) as (_ & _ & _ & Ht & _).
  fold W in Ht.
  destruct (Light_fired_facts v W HbW) as (Hb' & _ & _ & _ & _ & Hst).
  rewrite Hw'. clearbody w0 W w'.
  split; [apply Light_read_store; [apply Hb'|exact Hst]|].
  split; [rewrite <- val_b_flip; apply fn_lookup_insert|].
  change (all_commits (trace (Light_fired v W)))
    with ((ByLoop, Light_path W, flip v) :: all_commits (trace W)).
  rewrite Ht, Hc0. unfold Light_path. rewrite HiW, Hi0. reflexivity.
Qed.

Lemma toggle_after_remote_write_inverts_it_witness :
  let w0 := apply_envs Light.on_attribute_update Light_idle
              [RemoteWrite 1 6 0 (esp_matter_bool true)] in
  let w' := (run Light.on_attribute_update Light.loop [[SetPin D9 LOW]] w0).2 in
  Light_read w' = esp_matter_bool false /\ pin_out w' D0 = false.
Proof.
  destruct (toggle_after_remote_write_inverts_it (esp_matter_bool true) [SetPin D9 LOW]
              Light_idle) as (H1 & H2 & _).
  - exact Light_idle_bound.
  - repeat constructor.
  - vm_compute. reflexivity.
  - reflexivity.
  - split; [exact H1|exact H2].
Defined.

Lemma TwoEndpoints_remote_write_eq x led v w :
  (x, led) = (plugin_unit_endpoint_id_1, TwoEndpoints.LED_PIN_1) \/
  (x, led) = (plugin_unit_endpoint_id_2, TwoEndpoints.LED_PIN_2) ->
  TwoEndpoints_ids_distinct w -> is_Some (store w !! TwoEndpoints_path w x) ->
  apply_envs TwoEndpoints.on_attribute_update w [remote_write (TwoEndpoints_path w x) v] =
  commit ByController (TwoEndpoints_path w x) v (drive led (val_b v) w).
Proof.
  intros Hx Hne Hsome. unfold apply_envs, remote_write.
  cbn [fold_left apply_env fst snd TwoEndpoints_path].
  rewrite TwoEndpoints_commit_eq by exact Hsome. rewrite !Z.eqb_refl. cbn [andb].
  destruct Hx as [E|E]; injection E as -> ->.
  - rewrite Z.eqb_refl. reflexivity.
  - destruct (Z.eqb_spec (ints w plugin_unit_endpoint_id_2) (ints w plugin_unit_endpoint_id_1))
      as [E'|_]; [symmetry in E'; contradiction|].
    rewrite Z.eqb_refl. reflexivity.
Qed.

(** X10: in the two-endpoint sketch a controller's write to one
    channel stays on that channel: the attribute written reads back as
    [v] and its LED has been driven once, to the boolean of [v]; the
    other attribute reads as before and the other LED has not been
    touched. *)
Theorem remote_update_stays_on_its_channel (v : esp_matter_attr_val_t) (w : world) :
  TwoEndpoints_ids_distinct w ->
  TwoEndpoints_bound w attribute_ref_1 plugin_unit_endpoint_id_1 ->
  TwoEndpoints_bound w attribute_ref_2 plugin_unit_endpoint_id_2 ->
  (let w' := apply_envs TwoEndpoints.on_attribute_update w
               [remote_write (TwoEndpoints_path w plugin_unit_endpoint_id_1) v] in
   TwoEndpoints_read attribute_ref_1 w' = v /\
   pin_out w' TwoEndpoints.LED_PIN_1 = val_b v /\
   pin_writes (trace w') = (TwoEndpoints.LED_PIN_1, val_b v) :: pin_writes (trace w) /\
   TwoEndpoints_read attribute_ref_2 w' = TwoEndpoints_read attribute_ref_2 w /\
   pin_out w' TwoEndpoints.LED_PIN_2 = pin_out w TwoEndpoints.LED_PIN_2) /\
  (let w' := apply_envs TwoEndpoints.on_attribute_update w
               [remote_write (TwoEndpoints_path w plugin_unit_endpoint_id_2) v] in
   TwoEndpoints_read attribute_ref_2 w' = v /\
   pin_out w' TwoEndpoints.LED_PIN_2 = val_b v /\
   pin_writes (trace w') = (TwoEndpoints.LED_PIN_2, val_b v) :: pin_writes (trace w) /\
   TwoEndpoints_read attribute_ref_1 w' = TwoEndpoints_read attribute_ref_1 w /\
   pin_out w' TwoEndpoints.LED_PIN_1 = pin_out w TwoEndpoints.LED_PIN_1).
Proof.
  intros Hne Hb1 Hb2.
  assert (Hne' : TwoEndpoints_path w plugin_unit_endpoint_id_1 <>
                 TwoEndpoints_path w plugin_unit_endpoint_id_2)
    by (unfold TwoEndpoints_path; intros E'; apply Hne; congruence).
  pose proof (TwoEndpoints_read_eq _ _ w Hb1) as Hv1.
  pose proof (TwoEndpoints_read_eq _ _ w Hb2) as Hv2.
  destruct Hb1 as [Hr1 Hs1], Hb2 as [Hr2 Hs2].
  split; intros w'; subst w'.
  - rewrite (TwoEndpoints_remote_write_eq _ TwoEndpoints.LED_PIN_1 v w) by auto.
    set (w' := commit _ _ _ _).
    split; [apply (TwoEndpoints_read_store _ plugin_unit_endpoint_id_1);
            [exact Hr1|apply lookup_insert_eq]|].
    split; [apply fn_lookup_insert|]. split; [reflexivity|].
    split; [|reflexivity].
    apply (TwoEndpoints_read_store _ plugin_unit_endpoint_id_2); [exact Hr2|].
    change (<[TwoEndpoints_path w plugin_unit_endpoint_id_1:=v]> (store w) !!
              TwoEndpoints_path w plugin_unit_endpoint_id_2 =
            Some (TwoEndpoints_read attribute_ref_2 w)).
    rewrite lookup_insert_ne by exact Hne'. exact Hv2.
  - rewrite (TwoEndpoints_remote_write_eq _ TwoEndpoints.LED_PIN_2 v w) by auto.
    set (w' := commit _ _ _ _).
    split; [apply (TwoEndpoints_read_store _ plugin_unit_endpoint_id_2);
            [exact Hr2|apply lookup_insert_eq]|].
    split; [apply fn_lookup_insert|]. split; [reflexivity|].
    split; [|reflexivity].
    apply (TwoEndpoints_read_store _ plugin_unit_endpoint_id_1); [exact Hr1|].
    change (<[TwoEndpoints_path w plugin_unit_endpoint_id_2:=v]> (store w) !!
              TwoEndpoints_path w plugin_unit_endpoint_id_1 =
            Some (TwoEndpoints_read attribute_ref_1 w)).
    rewrite lookup_insert_ne by (apply not_eq_sym, Hne'). exact Hv1.
Qed.

Lemma remote_update_stays_on_its_channel_witness :
  let w' := apply_envs TwoEndpoints.on_attribute_update TwoEndpoints_ready
              [RemoteWrite 2 6 0 (esp_matter_bool true)] in
  TwoEndpoints_read attribute_ref_2 w' = esp_matter_bool true /\
  pin_out w' D1 = true /\
  TwoEndpoints_read attribute_ref_1 w' = TwoEndpoints_read attribute_ref_1 TwoEndpoints_ready /\
  pin_out w' D0 = pin_out TwoEndpoints_ready D0.
Proof.
  destruct (remote_update_stays_on_its_channel (esp_matter_bool true) TwoEndpoints_ready)
    as [_ (H1 & H2 & _ & H3 & H4)].
  - vm_compute. discriminate.
  - split; [reflexivity|]. vm_compute. eauto.
  - split; [reflexivity|]. vm_compute. eauto.
  - split; [exact H1|]. split; [exact H2|]. split; [exact H3|exact H4].
Defined.

(** ** One poll of the light, in elapsed time *)

Lemma Light_poll_elapsed b w L :
  Light_bound w -> Forall (fun a => is_remote_write a = false) b ->
  let W := apply_envs Light.on_attribute_update w b in
  ints W last_toggle = to_int (wrap32 L) ->
  (run Light.on_attribute_update Light.loop [b] w).2 =
  if (500 <? (clock W - L) mod 2 ^ 32) && lnot (pin_in W Light.TOGGLE_BUTTON_PIN)
  then Light_fired (Light_read w) W else log (OMillis (clock W)) W.
Proof.
  intros Hb Hq W Hl.
  rewrite (Light_poll_single b w _ Hb (Light_read_eq w Hb) Hq). fold W.
  rewrite Hl, usub_wrap. reflexivity.
Qed.

(** X11: one poll of the light sketch, in true time.  With [last_toggle]
    holding the 32-bit reading of a time [L] (as every [int] does of some
    time), a poll at time [c] toggles exactly when the button reads low
    and [(c - L) mod 2^32 > 500]: the subtraction of the [int] from the
    [unsigned long] measures the elapsed time modulo 2^32, also after
    [last_toggle] has gone negative (from 2^31 ms on) and after
    [millis()] has wrapped.  When it toggles, the attribute reads back
    inverted and [last_toggle] is the reading of [c]; when it does not,
    both are as before. *)
Theorem poll_toggles_iff_pressed_and_elapsed (b : list env_action) (w : world) (L : Z) :
  Light_bound w -> Forall (fun a => is_remote_write a = false) b ->
  let W := apply_envs Light.on_attribute_update w b in
  ints W last_toggle = to_int (wrap32 L) ->
  let w' := (run Light.on_attribute_update Light.loop [b] w).2 in
  let fires := (Light.DEBOUNCE_DELAY <? (clock W - L) mod 2 ^ 32) &&
               lnot (pin_in W Light.TOGGLE_BUTTON_PIN) in
  Light_bound w' /\
  toggles w' = toggles w + Z.b2z fires /\
  Light_read w' = (if fires then flip (Light_read w) else Light_read w) /\
  ints w' last_toggle = (if fires then to_int (wrap32 (clock W)) else ints W last_toggle) /\
  clock w' = clock W.
Proof.
  intros Hb Hq W Hl w' fires. subst w'.
  rewrite (Light_poll_elapsed b w L Hb Hq Hl). fold W.
  change ((500 <? (clock W - L) mod 2 ^ 32) && lnot (pin_in W Light.TOGGLE_BUTTON_PIN))
    with fires.
  destruct (Light_bound_env b w Hq Hb) as (HbW & HtW & HiW). fold W in HbW, HtW, HiW.
  destruct (envs_quiet_facts _ Light_callback_well_behaved b w Hq) as (_ & Hr & Hs & _).
  fold W in Hr, Hs.
  assert (HpW : Light_path W = Light_path w) by (unfold Light_path; rewrite HiW; reflexivity).
  pose proof (Light_read_eq w Hb) as Hv.
  destruct fires.
  - destruct (Light_fired_facts (Light_read w) W HbW) as (Hb' & _ & Hc' & Hl' & Ht' & Hst).
    split; [exact Hb'|]. split; [rewrite Ht', HtW; reflexivity|].
    split; [|split; [exact Hl'|exact Hc']].
    apply Light_read_store; [apply Hb'|exact Hst].
  - split; [exact HbW|]. split; [cbn; change (toggles W = toggles w + 0); lia|].
    split; [|split; reflexivity].
    apply Light_read_store; [apply HbW|].
    change (store W !! Light_path W = Some (Light_read w)). rewrite Hs, HpW. exact Hv.
Qed.

Lemma poll_toggles_iff_pressed_and_elapsed_witness :
  let w' := (run Light.on_attribute_update Light.loop [[Tick 2147483648; SetPin D9 LOW]]
               Light_ready).2 in
  toggles w' = 1 /\ ints w' last_toggle = -2147483648.
Proof.
  destruct (poll_toggles_iff_pressed_and_elapsed [Tick 2147483648; SetPin D9 LOW]
              Light_ready 0) as (_ & H1 & _ & H2 & _).
  - split; [reflexivity|]. vm_compute. eauto.
  - repeat constructor.
  - reflexivity.
  - split; [exact H1|exact H2].
Defined.

(** X12: the window comes back every 2^32 ms.  When the time elapsed
    since the stamp in [last_toggle] is a multiple of 2^32 ms plus at
    most 500 ms (49.7 days after the last toggle, or after boot), a poll
    ignores the button as it does right after a toggle: nothing is
    committed and [last_toggle] stays. *)
Theorem press_is_ignored_after_the_clock_wraps
    (b : list env_action) (w : world) (L k d : Z) :
  Light_bound w -> Forall (fun a => is_remote_write a = false) b ->
  let W := apply_envs Light.on_attribute_update w b in
  ints W last_toggle = to_int (wrap32 L) ->
  clock W - L = 2 ^ 32 * k + d -> 0 <= d <= Light.DEBOUNCE_DELAY ->
  let w' := (run Light.on_attribute_update Light.loop [b] w).2 in
  store w' = store w /\ toggles w' = toggles w /\
  pin_writes (trace w') = pin_writes (trace w) /\
  ints w' last_toggle = ints W last_toggle.
Proof.
  intros Hb Hq W Hl Hc Hd w'. subst w'.
  rewrite (Light_poll_elapsed b w L Hb Hq Hl). fold W.
  assert (E : (clock W - L) mod 2 ^ 32 = d).
  { rewrite Hc, Z.add_comm, Z.mul_comm, Z_mod_plus_full.
    apply Z.mod_small. unfold Light.DEBOUNCE_DELAY in Hd. lia. }
  rewrite E. unfold Light.DEBOUNCE_DELAY in Hd.
  destruct (Z.ltb_spec 500 d) as [Hlt|_]; [lia|]. cbn [andb].
  destruct (envs_quiet_facts _ Light_callback_well_behaved b w Hq) as (_ & _ & Hs & Ht & _).
  fold W in Hs, Ht.
  split; [exact Hs|]. split; [unfold toggles; cbn; rewrite Ht; reflexivity|].
  split; [cbn; rewrite Ht; reflexivity|reflexivity].
Qed.

Lemma press_is_ignored_after_the_clock_wraps_witness :
  let w' := (run Light.on_attribute_update Light.loop [[Tick 4294967396; SetPin D9 LOW]]
               Light_ready).2 in
  pin_in w' D9 = LOW /\ clock w' = 4294967396 /\ toggles w' = toggles Light_ready.
Proof.
  destruct (press_is_ignored_after_the_clock_wraps [Tick 4294967396; SetPin D9 LOW]
              Light_ready 0 1 100) as (_ & H & _).
  - split; [reflexivity|]. vm_compute. eauto.
  - repeat constructor.
  - reflexivity.
  - reflexivity.
  - vm_compute. split; discriminate.
  - split; [reflexivity|]. split; [reflexivity|exact H].
Defined.

(** ** One poll of the two-endpoint sketch, button by button *)

Lemma TwoEndpoints_fired_channel r x led r' x' led' v v' W :
  x <> last_toggle -> x' <> last_toggle -> led <> led' ->
  TwoEndpoints_path W x <> TwoEndpoints_path W x' ->
  refs W r = Some (TwoEndpoints_path W x) ->
  refs W r' = Some (TwoEndpoints_path W x') -> store W !! TwoEndpoints_path W x' = Some v' ->
  let w1 := TwoEndpoints_fired x led v W in
  (refs w1 r = Some (TwoEndpoints_path w1 x) /\
   store w1 !! TwoEndpoints_path w1 x = Some (flip v)) /\
  (refs w1 r' = Some (TwoEndpoints_path w1 x') /\
   store w1 !! TwoEndpoints_path w1 x' = Some v') /\
  TwoEndpoints_path w1 x <> TwoEndpoints_path w1 x' /\
  pin_out w1 led = val_b (flip v) /\ pin_out w1 led' = pin_out W led' /\
  toggles w1 = toggles W + 1 /\ ints w1 last_toggle = to_int (wrap32 (clock W)) /\
  clock w1 = clock W /\
  pin_writes (trace w1) = (led, val_b (flip v)) :: pin_writes (trace W).
Proof.
  intros Hx Hx' Hled Hne Hr Hr' Hv' w1.
  destruct (TwoEndpoints_fired_facts x led v W Hx) as (Hs & Hrf & Hi & Hl & Hc & Hpi & Ht).
  fold w1 in Hs, Hrf, Hi, Hl, Hc, Hpi, Ht.
  assert (Hp : forall y, y <> last_toggle -> TwoEndpoints_path w1 y = TwoEndpoints_path W y)
    by (intros y Hy; unfold TwoEndpoints_path; rewrite (Hi y Hy); reflexivity).
  rewrite !Hp, Hrf, Hs by assumption.
  split; [split; [exact Hr|apply lookup_insert_eq]|].
  split; [split; [exact Hr'|rewrite lookup_insert_ne by exact Hne; exact Hv']|].
  split; [exact Hne|].
  split; [apply fn_lookup_insert|].
  split; [apply fn_lookup_insert_ne; exact Hled|].
  split; [exact Ht|]. split; [exact Hl|]. split; [exact Hc|reflexivity].
Qed.

(** X13: one poll of the two-endpoint sketch serves each button that
    reads low.  When the debounce comparison passes, every button that is
    low has its own channel toggled (attribute read back inverted, its
    LED driven to the new value) and [last_toggle] is stamped with the
    reading of the clock; a channel whose button is up, and both channels
    when the comparison fails, read as before, their LEDs undriven. *)
Theorem two_endpoint_poll_serves_each_pressed_button (b : list env_action) (w : world) :
  TwoEndpoints_ids_distinct w ->
  TwoEndpoints_bound w attribute_ref_1 plugin_unit_endpoint_id_1 ->
  TwoEndpoints_bound w attribute_ref_2 plugin_unit_endpoint_id_2 ->
  Forall (fun a => is_remote_write a = false) b ->
  let W := apply_envs TwoEndpoints.on_attribute_update w b in
  let w1 := TwoEndpoints_poll [b] w in
  let v1 := TwoEndpoints_read attribute_ref_1 w in
  let v2 := TwoEndpoints_read attribute_ref_2 w in
  let gate := TwoEndpoints.DEBOUNCE_DELAY <? usub (wrap32 (clock W)) (ints W last_toggle) in
  let p1 := gate && lnot (pin_in W TwoEndpoints.TOGGLE_BUTTON_PIN_1) in
  let p2 := gate && lnot (pin_in W TwoEndpoints.TOGGLE_BUTTON_PIN_2) in
  TwoEndpoints_read attribute_ref_1 w1 = (if p1 then flip v1 else v1) /\
  TwoEndpoints_read attribute_ref_2 w1 = (if p2 then flip v2 else v2) /\
  pin_out w1 TwoEndpoints.LED_PIN_1 =
    (if p1 then negb (val_b v1) else pin_out w TwoEndpoints.LED_PIN_1) /\
  pin_out w1 TwoEndpoints.LED_PIN_2 =
    (if p2 then negb (val_b v2) else pin_out w TwoEndpoints.LED_PIN_2) /\
  pin_writes (trace w1) =
    (if p2 then [(TwoEndpoints.LED_PIN_2, negb (val_b v2))] else []) ++
    (if p1 then [(TwoEndpoints.LED_PIN_1, negb (val_b v1))] else []) ++
    pin_writes (trace w) /\
  toggles w1 = toggles w + Z.b2z p1 + Z.b2z p2 /\
  ints w1 last_toggle =
    (if p1 || p2 then to_int (wrap32 (clock W)) else ints W last_toggle).
Proof.
  intros Hne Hb1 Hb2 Hq W w1 v1 v2 gate p1 p2.
  pose proof (TwoEndpoints_read_eq _ _ w Hb1) as Hv1. fold v1 in Hv1.
  pose proof (TwoEndpoints_read_eq _ _ w Hb2) as Hv2. fold v2 in Hv2.
  pose proof (TwoEndpoints_poll_single b w v1 v2 Hb1 Hb2 Hne Hv1 Hv2 Hq) as Hpoll.
  cbv zeta in Hpoll. fold W in Hpoll. fold w1 in Hpoll. fold gate in Hpoll.
  destruct (envs_quiet_facts _ TwoEndpoints_callback_well_behaved b w Hq)
    as (Hi & Hr & Hs & Ht & Hp & _).
  fold W in Hi, Hr, Hs, Ht, Hp.
  assert (HpW : forall x, TwoEndpoints_path W x = TwoEndpoints_path w x)
    by (intros x; unfold TwoEndpoints_path; rewrite Hi; reflexivity).
  assert (Hne' : TwoEndpoints_path W plugin_unit_endpoint_id_1 <>
                 TwoEndpoints_path W plugin_unit_endpoint_id_2)
    by (unfold TwoEndpoints_path; rewrite Hi; intros E'; apply Hne; congruence).
  assert (HtW : toggles W = toggles w) by (unfold toggles; rewrite Ht; reflexivity).
  destruct Hb1 as [Hr1 _], Hb2 as [Hr2 _].
  rewrite <- Hr, <- !HpW in Hr1, Hr2. rewrite <- Hs, <- !HpW in Hv1, Hv2.
  rewrite <- !val_b_flip, <- Hp, <- HtW, <- Ht.
  set (W0 := log (OMillis (clock W)) W) in *.
  subst p1 p2. destruct gate; cbn [andb orb Z.b2z]; rewrite Hpoll; clear Hpoll.
  2:{ split; [exact (TwoEndpoints_read_store _ _ W0 _ Hr1 Hv1)|].
      split; [exact (TwoEndpoints_read_store _ _ W0 _ Hr2 Hv2)|].
      repeat split. change (toggles W = toggles W + 0 + 0). lia. }
  destruct (lnot (pin_in W TwoEndpoints.TOGGLE_BUTTON_PIN_1)),
           (lnot (pin_in W TwoEndpoints.TOGGLE_BUTTON_PIN_2)); cbv zeta; cbn [orb Z.b2z].
  - destruct (TwoEndpoints_fired_channel attribute_ref_1 plugin_unit_endpoint_id_1
                TwoEndpoints.LED_PIN_1 attribute_ref_2 plugin_unit_endpoint_id_2
                TwoEndpoints.LED_PIN_2 v1 v2 W0)
      as ((Ha1 & Ha2) & (Ha3 & Ha4) & Ha5 & Ha6 & Ha7 & Ha8 & Ha9 & Ha10 & Ha11);
      try discriminate; try assumption.
    set (Wa := TwoEndpoints_fired plugin_unit_endpoint_id_1 _ v1 W0) in *.
    destruct (TwoEndpoints_fired_channel attribute_ref_2 plugin_unit_endpoint_id_2
                TwoEndpoints.LED_PIN_2 attribute_ref_1 plugin_unit_endpoint_id_1
                TwoEndpoints.LED_PIN_1 v2 (flip v1) Wa)
      as ((Hb1 & Hb2) & (Hb3 & Hb4) & _ & Hb6 & Hb7 & Hb8 & Hb9 & _ & Hb11);
      try discriminate; try assumption; [exact (not_eq_sym Ha5)|].
    split; [exact (TwoEndpoints_read_store _ _ _ _ Hb3 Hb4)|].
    split; [exact (TwoEndpoints_read_store _ _ _ _ Hb1 Hb2)|].
    split; [rewrite Hb7; exact Ha6|]. split; [exact Hb6|].
    split; [rewrite Hb11, Ha11; reflexivity|].
    split; [rewrite Hb8, Ha8; change (toggles W0) with (toggles W); lia|].
    rewrite Hb9, Ha10. reflexivity.
  - destruct (TwoEndpoints_fired_channel attribute_ref_1 plugin_unit_endpoint_id_1
                TwoEndpoints.LED_PIN_1 attribute_ref_2 plugin_unit_endpoint_id_2
                TwoEndpoints.LED_PIN_2 v1 v2 W0)
      as ((Ha1 & Ha2) & (Ha3 & Ha4) & Ha5 & Ha6 & Ha7 & Ha8 & Ha9 & _ & Ha11);
      try discriminate; try assumption.
    split; [exact (TwoEndpoints_read_store _ _ _ _ Ha1 Ha2)|].
    split; [exact (TwoEndpoints_read_store _ _ _ _ Ha3 Ha4)|].
    split; [exact Ha6|]. split; [exact Ha7|]. split; [exact Ha11|].
    split; [rewrite Ha8; change (toggles W0) with (toggles W); lia|exact Ha9].
  - destruct (TwoEndpoints_fired_channel attribute_ref_2 plugin_unit_endpoint_id_2
                TwoEndpoints.LED_PIN_2 attribute_ref_1 plugin_unit_endpoint_id_1
                TwoEndpoints.LED_PIN_1 v2 v1 W0)
      as ((Ha1 & Ha2) & (Ha3 & Ha4) & Ha5 & Ha6 & Ha7 & Ha8 & Ha9 & _ & Ha11);
      try discriminate; try assumption; [exact (not_eq_sym Hne')|].
    split; [exact (TwoEndpoints_read_store _ _ _ _ Ha3 Ha4)|].
    split; [exact (TwoEndpoints_read_store _ _ _ _ Ha1 Ha2)|].
    split; [exact Ha7|]. split; [exact Ha6|]. split; [exact Ha11|].
    split; [rewrite Ha8; change (toggles W0) with (toggles W); lia|exact Ha9].
  - split; [exact (TwoEndpoints_read_store _ _ W0 _ Hr1 Hv1)|].
    split; [exact (TwoEndpoints_read_store _ _ W0 _ Hr2 Hv2)|].
    repeat split. change (toggles W = toggles W + 0 + 0). lia.
Qed.

Lemma two_endpoint_poll_serves_each_pressed_button_witness :
  let w1 := TwoEndpoints_poll [[SetPin D9 LOW; SetPin D8 LOW]] TwoEndpoints_idle in
  TwoEndpoints_read attribute_ref_1 w1 = esp_matter_bool true /\
  TwoEndpoints_read attribute_ref_2 w1 = esp_matter_bool true /\
  pin_out w1 D0 = true /\ pin_out w1 D1 = true /\ toggles w1 = 2.
Proof.
  destruct (two_endpoint_poll_serves_each_pressed_button [SetPin D9 LOW; SetPin D8 LOW]
              TwoEndpoints_idle) as (H1 & H2 & H3 & H4 & _ & H5 & _).
  - vm_compute. discriminate.
  - split; [reflexivity|]. vm_compute. eauto.
  - split; [reflexivity|]. vm_compute. eauto.
  - repeat constructor.
  - split; [exact H1|]. split; [exact H2|]. split; [exact H3|]. split; [exact H4|exact H5].
Defined.
(** ** Toggling twice *)

Lemma flip_flip_canonical v : raw v = 0 \/ raw v = 1 -> flip (flip v) = v.
Proof. destruct v as [t r]. intros [E|E]; cbn in E; subst r; reflexivity. Qed.

(** X14: two toggles in a row, no controller writing in between, give
    the attribute back as it was: when the value read before the first
    toggle is a canonical boolean (its byte is 0 or 1), the attribute
    reads as that very value after the second, type tag included; on the
    light and on either channel of the two-endpoint sketch. *)
Theorem toggling_twice_restores_the_state (s1 s2 : schedule) (w : world) :
  no_remote_write s1 -> no_remote_write s2 ->
  (Light_bound w ->
   raw (Light_read w) = 0 \/ raw (Light_read w) = 1 ->
   let w2 := (run Light.on_attribute_update Light.toggle s2
                (run Light.on_attribute_update Light.toggle s1 w).2).2 in
   Light_read w2 = Light_read w) /\
  (forall r x, TwoEndpoints_bound w r x ->
   raw (TwoEndpoints_read r w) = 0 \/ raw (TwoEndpoints_read r w) = 1 ->
   let w2 := (run TwoEndpoints.on_attribute_update (TwoEndpoints.toggle r x) s2
                (run TwoEndpoints.on_attribute_update (TwoEndpoints.toggle r x) s1 w).2).2 in
   TwoEndpoints_read r w2 = TwoEndpoints_read r w).
Proof.
  intros H1 H2. split.
  - intros Hb Hc w2.
    destruct (Light_toggle_read s1 w Hb H1) as [Hb1 E1].
    destruct (Light_toggle_read s2 _ Hb1 H2) as [_ E2].
    fold w2 in E2. rewrite E2, E1. apply flip_flip_canonical, Hc.
  - intros r x Hb Hc w2.
    destruct (TwoEndpoints_toggle_read r x s1 w Hb H1) as [Hb1 E1].
    destruct (TwoEndpoints_toggle_read r x s2 _ Hb1 H2) as [_ E2].
    fold w2 in E2. rewrite E2, E1. apply flip_flip_canonical, Hc.
Qed.

Lemma toggling_twice_restores_the_state_witness :
  Light_read (run Light.on_attribute_update Light.toggle [[Tick 1]]
                (run Light.on_attribute_update Light.toggle [[]; [Tick 2]] Light_ready).2).2 =
  Light_read Light_ready /\
  TwoEndpoints_read attribute_ref_2
    (run TwoEndpoints.on_attribute_update
       (TwoEndpoints.toggle attribute_ref_2 plugin_unit_endpoint_id_2) [[Tick 1]]
       (run TwoEndpoints.on_attribute_update
          (TwoEndpoints.toggle attribute_ref_2 plugin_unit_endpoint_id_2) [[]; [Tick 2]]
          TwoEndpoints_ready).2).2 =
  TwoEndpoints_read attribute_ref_2 TwoEndpoints_ready.
Proof.
  split.
  - destruct (toggling_twice_restores_the_state [[]; [Tick 2]] [[Tick 1]] Light_ready)
      as [H _]; [repeat constructor|repeat constructor|].
    apply H; [split; [reflexivity|vm_compute; eauto]|left; reflexivity].
  - destruct (toggling_twice_restores_the_state [[]; [Tick 2]] [[Tick 1]] TwoEndpoints_ready)
      as [_ H]; [repeat constructor|repeat constructor|].
    apply H; [split; [reflexivity|vm_compute; eauto]|left; reflexivity].
Defined.

(** ** The pins a sketch drives *)

Lemma pins_kept_same (P : pin -> Prop) w w' :
  pin_writes (trace w') = pin_writes (trace w) -> pin_out w' = pin_out w ->
  pins_kept P w -> pins_kept P w'.
Proof. intros Ht Hp [H1 H2]. unfold pins_kept. rewrite Ht, Hp. auto. Qed.

Lemma pins_kept_drive (P : pin -> Prop) p l w :
  P p -> pins_kept P w -> pins_kept P (drive p l w).
Proof.
  intros HP [H1 H2]. split.
  - rewrite pin_writes_drive. constructor; [exact HP|exact H1].
  - intros q Hq. cbn. rewrite fn_lookup_insert_ne by congruence. auto.
Qed.

Section Pins.

Variable P : pin -> Prop.
Variable cb : callback_t.
Hypothesis cb_pins : forall type ep cl attr v, all_events (drives_only P) (cb type ep cl attr v).

Lemma handle0_pins {X : Type} (e : event X) w :
  drives_only P X e -> pins_kept P w -> pins_kept P (handle0 e w).2.
Proof.
  intros He Hw. destruct e; try (exact Hw);
    try (solve [apply (pins_kept_same P w); [reflexivity|reflexivity|exact Hw]]).
  - apply pins_kept_drive; assumption.
  - cbn. destruct (device_attribute d) as [[cl attr] v].
    apply (pins_kept_same P w); [reflexivity|reflexivity|exact Hw].
Qed.

Lemma interp0_pins {A : Type} (p : prog A) :
  all_events (drives_only P) p -> forall w, pins_kept P w -> pins_kept P (interp0 p w).2.
Proof.
  induction 1 as [a|X e k He Hk IH]; intros w Hw; [exact Hw|].
  cbn. pose proof (handle0_pins e w He Hw) as Hh.
  destruct (handle0 e w) as [x w1]. apply IH. exact Hh.
Qed.

Lemma commit_pins o ep cl attr v w :
  pins_kept P w -> pins_kept P (framework_commit cb o ep cl attr v w).2.
Proof.
  intros Hw. unfold framework_commit.
  destruct (store w !! (ep, cl, attr)); [|exact Hw].
  pose proof (interp0_pins _ (cb_pins PRE_UPDATE ep cl attr v) w Hw) as H1.
  destruct (interp0 (cb PRE_UPDATE ep cl attr v) w) as [r w1]. cbn in H1.
  destruct (r =? ESP_OK); [|exact H1].
  set (w2 := log _ _).
  assert (H2 : pins_kept P w2)
    by (apply (pins_kept_same P w1); [reflexivity|reflexivity|exact H1]).
  pose proof (interp0_pins _ (cb_pins POST_UPDATE ep cl attr v) w2 H2) as H3.
  destruct (interp0 (cb POST_UPDATE ep cl attr v) w2) as [r' w3]. exact H3.
Qed.

Lemma envs_pins b w : pins_kept P w -> pins_kept P (apply_envs cb w b).
Proof.
  revert w. induction b as [|a b IH]; intros w Hw; [exact Hw|].
  change (apply_envs cb w (a :: b)) with (apply_envs cb (apply_env cb w a) b).
  apply IH. destruct a as [d|p l|ep cl attr v]; [exact Hw|exact Hw|].
  apply commit_pins, Hw.
Qed.

Lemma run_pins {A : Type} (p : prog A) :
  all_events (drives_only P) p ->
  forall s w, pins_kept P w -> pins_kept P (run cb p s w).2.
Proof.
  induction 1 as [a|X e k He Hk IH]; intros s w Hw; [exact Hw|].
  cbn. apply (envs_pins (hd [] s)) in Hw.
  set (W := apply_envs cb w (hd [] s)) in *.
  assert (Hh : pins_kept P (handle cb e W).2).
  { destruct e; try (exact (handle0_pins _ W He Hw)). apply commit_pins, Hw. }
  destruct (handle cb e W) as [x w1]. apply IH. exact Hh.
Qed.

Lemma run_polls_pins (loop : prog unit) :
  all_events (drives_only P) loop ->
  forall ss w, pins_kept P w -> pins_kept P (run_polls cb loop ss w).
Proof.
  intros Hl. induction ss as [|s ss IH]; intros w Hw; [exact Hw|].
  rewrite run_polls_cons. apply IH, run_pins; assumption.
Qed.

(** From boot: [setup], any number of polls, and what the environment
    does after the last of them. *)
Lemma sketch_pins (setup loop : prog unit) s0 ss b :
  all_events (drives_only P) setup -> all_events (drives_only P) loop ->
  pins_kept P (apply_envs cb (run_polls cb loop ss (run cb setup s0 boot).2) b).
Proof.
  intros Hs Hl. apply envs_pins, run_polls_pins; [exact Hl|].
  apply run_pins; [exact Hs|]. split; [constructor|reflexivity].
Qed.

End Pins.

Ltac pins_tac :=
  repeat first
    [ apply all_events_ret
    | apply all_events_vis;
      [first [exact I | reflexivity | left; reflexivity | right; reflexivity] | intros ?]
    | match goal with |- context [if ?c then _ else _] => destruct c end
    | progress cbn ].

Lemma Light_pins :
  (forall type ep cl attr v,
      all_events (drives_only (fun p => p = Light.LED_PIN))
                 (Light.on_attribute_update type ep cl attr v)) /\
  all_events (drives_only (fun p => p = Light.LED_PIN)) Light.setup /\
  all_events (drives_only (fun p => p = Light.LED_PIN)) Light.loop.
Proof.
  split; [intros type ep cl attr v; unfold Light.on_attribute_update; pins_tac|].
  split; [unfold Light.setup; pins_tac|unfold Light.loop, Light.toggle; pins_tac].
Qed.

Lemma TwoEndpoints_pins :
  let P := fun p => p = TwoEndpoints.LED_PIN_1 \/ p = TwoEndpoints.LED_PIN_2 in
  (forall type ep cl attr v,
      all_events (drives_only P) (TwoEndpoints.on_attribute_update type ep cl attr v)) /\
  all_events (drives_only P) TwoEndpoints.setup /\
  all_events (drives_only P) TwoEndpoints.loop.
Proof.
  split; [intros type ep cl attr v; unfold TwoEndpoints.on_attribute_update; pins_tac|].
  split; [unfold TwoEndpoints.setup; pins_tac
         |unfold TwoEndpoints.loop, TwoEndpoints.toggle; pins_tac].
Qed.

Lemma Curtain_pins C A :
  (forall type ep cl attr v,
      all_events (drives_only (fun _ => False)) (Curtain.on_attribute_update type ep cl attr v)) /\
  all_events (drives_only (fun _ => False)) (Curtain.setup C A) /\
  all_events (drives_only (fun _ => False)) (Curtain.loop C A).
Proof.
  split; [intros type ep cl attr v; unfold Curtain.on_attribute_update; pins_tac|].
  split; [unfold Curtain.setup; pins_tac
         |unfold Curtain.loop, Curtain.toggle, Curtain.set_curtain_attribute_value; pins_tac].
Qed.

(** X15: the light and the two-endpoint sketch drive their LED pins and
    no other: in every run from boot, whatever the schedule (controllers
    writing at any point, [setup] included), every [digitalWrite] made is
    on [LED_PIN], respectively on [LED_PIN_1] or [LED_PIN_2], and the
    button pins are never driven. *)
Theorem only_the_led_pins_are_driven
    (s0 : schedule) (ss : list schedule) (b : list env_action) :
  (let w := apply_envs Light.on_attribute_update
              (run_polls Light.on_attribute_update Light.loop ss
                 (run Light.on_attribute_update Light.setup s0 boot).2) b in
   Forall (fun pl : pin * bool => pl.1 = Light.LED_PIN) (pin_writes (trace w)) /\
   pin_out w Light.TOGGLE_BUTTON_PIN = false) /\
  (let w := apply_envs TwoEndpoints.on_attribute_update
              (run_polls TwoEndpoints.on_attribute_update TwoEndpoints.loop ss
                 (run TwoEndpoints.on_attribute_update TwoEndpoints.setup s0 boot).2) b in
   Forall (fun pl : pin * bool => pl.1 = TwoEndpoints.LED_PIN_1 \/
                                  pl.1 = TwoEndpoints.LED_PIN_2) (pin_writes (trace w)) /\
   pin_out w TwoEndpoints.TOGGLE_BUTTON_PIN_1 = false /\
   pin_out w TwoEndpoints.TOGGLE_BUTTON_PIN_2 = false).
Proof.
  split.
  - destruct Light_pins as (Hc & Hs & Hl).
    destruct (sketch_pins _ _ Hc _ _ s0 ss b Hs Hl) as [H1 H2].
    split; [exact H1|]. apply H2. discriminate.
  - destruct TwoEndpoints_pins as (Hc & Hs & Hl).
    destruct (sketch_pins _ _ Hc _ _ s0 ss b Hs Hl) as [H1 H2].
    split; [exact H1|]. split; apply H2; intros [E|E]; discriminate E.
Qed.

(** ** The LED shows the attribute *)

Lemma channel_synced_same r x led w w' :
  refs w' = refs w -> ints w' x = ints w x -> store w' = store w ->
  pin_out w' = pin_out w -> channel_synced r x led w -> channel_synced r x led w'.
Proof.
  intros Hr Hi Hs Hp (v & H1 & H2 & H3). exists v.
  unfold TwoEndpoints_path in *. rewrite Hr, Hi, Hs, Hp. auto.
Qed.

Lemma Light_synced_commit o ep cl attr v w :
  Light_synced w -> Light_synced (framework_commit Light.on_attribute_update o ep cl attr v w).2.
Proof.
  intros (u & Hr & Hu & Hp).
  destruct (store w !! (ep, cl, attr)) as [old|] eqn:E;
    [|rewrite commit_refused by exact E; exists u; auto].
  rewrite Light_commit_eq by eauto. cbn [snd].
  destruct (decide ((ep, cl, attr) = TwoEndpoints_path w light_endpoint_id)) as [Heq|Hne].
  - injection Heq as -> -> ->. rewrite !Z.eqb_refl. cbn [andb].
    exists v. split; [exact Hr|]. split; [apply lookup_insert_eq|apply fn_lookup_insert].
  - assert (Hc : (ep =? ints w light_endpoint_id) && (cl =? Light.CLUSTER_ID) &&
                 (attr =? Light.ATTRIBUTE_ID) = false).
    { destruct (Z.eqb_spec ep (ints w light_endpoint_id)); [|reflexivity].
      destruct (Z.eqb_spec cl Light.CLUSTER_ID); [|reflexivity].
      destruct (Z.eqb_spec attr Light.ATTRIBUTE_ID); [|reflexivity].
      exfalso. apply Hne. subst. reflexivity. }
    rewrite Hc. exists u. split; [exact Hr|]. split; [|exact Hp].
    change (<[(ep, cl, attr):=v]> (store w) !! TwoEndpoints_path w light_endpoint_id = Some u).
    rewrite lookup_insert_ne by exact Hne. exact Hu.
Qed.

Lemma TwoEndpoints_synced_commit o ep cl attr v w :
  TwoEndpoints_synced w ->
  TwoEndpoints_synced (framework_commit TwoEndpoints.on_attribute_update o ep cl attr v w).2.
Proof.
  intros (Hne & (u1 & Hr1 & Hu1 & Hp1) & (u2 & Hr2 & Hu2 & Hp2)).
  destruct (store w !! (ep, cl, attr)) as [old|] eqn:E;
    [|rewrite commit_refused by exact E; split; [exact Hne|split; [exists u1|exists u2]; auto]].
  rewrite TwoEndpoints_commit_eq by eauto. cbn [snd].
  assert (Hne' : TwoEndpoints_path w plugin_unit_endpoint_id_1 <>
                 TwoEndpoints_path w plugin_unit_endpoint_id_2)
    by (unfold TwoEndpoints_path; intros E'; apply Hne; congruence).
  destruct (decide ((ep, cl, attr) = TwoEndpoints_path w plugin_unit_endpoint_id_1))
    as [Heq|Hn1];
    [|destruct (decide ((ep, cl, attr) = TwoEndpoints_path w plugin_unit_endpoint_id_2))
        as [Heq|Hn2]].
  - injection Heq as -> -> ->. rewrite !Z.eqb_refl. cbn [andb].
    split; [exact Hne|]. split.
    + exists v. split; [exact Hr1|]. split; [apply lookup_insert_eq|apply fn_lookup_insert].
    + exists u2. split; [exact Hr2|]. split; [|exact Hp2].
      change (<[TwoEndpoints_path w plugin_unit_endpoint_id_1:=v]> (store w) !!
                TwoEndpoints_path w plugin_unit_endpoint_id_2 = Some u2).
      rewrite lookup_insert_ne by exact Hne'. exact Hu2.
  - injection Heq as -> -> ->. rewrite !Z.eqb_refl. cbn [andb].
    destruct (Z.eqb_spec (ints w plugin_unit_endpoint_id_2) (ints w plugin_unit_endpoint_id_1))
      as [E'|_]; [symmetry in E'; contradiction|].
    split; [exact Hne|]. split.
    + exists u1. split; [exact Hr1|]. split; [|exact Hp1].
      change (<[TwoEndpoints_path w plugin_unit_endpoint_id_2:=v]> (store w) !!
                TwoEndpoints_path w plugin_unit_endpoint_id_1 = Some u1).
      rewrite lookup_insert_ne by (apply not_eq_sym, Hne'). exact Hu1.
    + exists v. split; [exact Hr2|]. split; [apply lookup_insert_eq|apply fn_lookup_insert].
  - assert (Hc : (if (cl =? TwoEndpoints.CLUSTER_ID) && (attr =? TwoEndpoints.ATTRIBUTE_ID) then
                    if ep =? ints w plugin_unit_endpoint_id_1
                    then drive TwoEndpoints.LED_PIN_1 (val_b v) w
                    else if ep =? ints w plugin_unit_endpoint_id_2
                         then drive TwoEndpoints.LED_PIN_2 (val_b v) w
                         else w
                  else w) = w).
    { destruct (Z.eqb_spec cl TwoEndpoints.CLUSTER_ID); [|reflexivity].
      destruct (Z.eqb_spec attr TwoEndpoints.ATTRIBUTE_ID); [|reflexivity]. cbn [andb].
      destruct (Z.eqb_spec ep (ints w plugin_unit_endpoint_id_1));
        [exfalso; apply Hn1; subst; reflexivity|].
      destruct (Z.eqb_spec ep (ints w plugin_unit_endpoint_id_2));
        [exfalso; apply Hn2; subst; reflexivity|reflexivity]. }
    rewrite Hc. split; [exact Hne|]. split.
    + exists u1. split; [exact Hr1|]. split; [|exact Hp1].
      change (<[(ep, cl, attr):=v]> (store w) !!
                TwoEndpoints_path w plugin_unit_endpoint_id_1 = Some u1).
      rewrite lookup_insert_ne by exact Hn1. exact Hu1.
    + exists u2. split; [exact Hr2|]. split; [|exact Hp2].
      change (<[(ep, cl, attr):=v]> (store w) !!
                TwoEndpoints_path w plugin_unit_endpoint_id_2 = Some u2).
      rewrite lookup_insert_ne by exact Hn2. exact Hu2.
Qed.

Lemma TwoEndpoints_synced_same w w' :
  refs w' = refs w -> (forall y, y <> last_toggle -> ints w' y = ints w y) ->
  store w' = store w -> pin_out w' = pin_out w ->
  TwoEndpoints_synced w -> TwoEndpoints_synced w'.
Proof.
  intros Hr Hi Hs Hp (Hne & H1 & H2). split; [|split].
  - unfold TwoEndpoints_ids_distinct. rewrite !Hi by discriminate. exact Hne.
  - apply (channel_synced_same _ _ _ w); auto; apply Hi; discriminate.
  - apply (channel_synced_same _ _ _ w); auto; apply Hi; discriminate.
Qed.

(** An invariant of worlds kept by the commit path, by the passing of
    time and the buttons, and by every assignment of [last_toggle], is
    kept by the polls. *)
Section Kept.

Variable cb : callback_t.
Variable Inv : world -> Prop.

Hypothesis Inv_commit : forall o ep cl attr v w,
  Inv w -> Inv (framework_commit cb o ep cl attr v w).2.

Hypothesis Inv_same : forall w w',
  refs w' = refs w -> (forall y, y <> last_toggle -> ints w' y = ints w y) ->
  store w' = store w -> pin_out w' = pin_out w -> Inv w -> Inv w'.

Lemma kept_envs b w : Inv w -> Inv (apply_envs cb w b).
Proof.
  revert w. induction b as [|a b IH]; intros w Hw; [exact Hw|].
  change (apply_envs cb w (a :: b)) with (apply_envs cb (apply_env cb w a) b).
  apply IH. destruct a as [d|p l|ep cl attr v].
  - apply (Inv_same w); auto.
  - apply (Inv_same w); auto.
  - apply Inv_commit, Hw.
Qed.

Lemma kept_run (p : prog unit) :
  all_events poller_call p -> forall s w, Inv w -> Inv (run cb p s w).2.
Proof.
  induction 1 as [a|X e k He Hk IH]; intros s w Hw; [exact Hw|].
  cbn. apply (kept_envs (hd [] s)) in Hw.
  set (W := apply_envs cb w (hd [] s)) in *.
  assert (Hh : Inv (handle cb e W).2).
  { destruct e; try contradiction; try (exact Hw);
      try (solve [apply (Inv_same W); auto]).
    - cbn in He. subst x. apply (Inv_same W); auto.
      intros y Hy. cbn. apply fn_lookup_insert_ne. congruence.
    - apply Inv_commit, Hw. }
  destruct (handle cb e W) as [x w1]. apply IH. exact Hh.
Qed.

Lemma kept_polls (loop : prog unit) :
  all_events poller_call loop -> forall ss w, Inv w -> Inv (run_polls cb loop ss w).
Proof.
  intros Hl. induction ss as [|s ss IH]; intros w Hw; [exact Hw|].
  rewrite run_polls_cons. apply IH, kept_run; assumption.
Qed.

End Kept.

Lemma Light_synced_same w w' :
  refs w' = refs w -> (forall y, y <> last_toggle -> ints w' y = ints w y) ->
  store w' = store w -> pin_out w' = pin_out w ->
  Light_synced w -> Light_synced w'.
Proof.
  intros Hr Hi Hs Hp H. apply (channel_synced_same _ _ _ w); auto; apply Hi; discriminate.
Qed.

Lemma Light_synced_bound w :
  Light_synced w -> Light_bound w /\ pin_out w Light.LED_PIN = val_b (Light_read w).
Proof.
  intros (v & Hr & Hv & Hp). split; [split; [exact Hr|eauto]|].
  rewrite (Light_read_store w v Hr Hv). exact Hp.
Qed.

(** X16: in the light sketch the LED shows the attribute: after [setup]
    (the stack starting at its end) and any number of polls, whatever the
    button does and whatever, whenever, controllers write, the handle is
    still bound, and the level last driven on [LED_PIN] is the boolean of
    the value the getter returns. *)
Theorem light_led_shows_the_attribute
    (s0 : schedule) (ss : list schedule) (b : list env_action) :
  no_remote_write s0 ->
  let w := apply_envs Light.on_attribute_update
             (run_polls Light.on_attribute_update Light.loop ss
                (run Light.on_attribute_update Light.setup s0 boot).2) b in
  Light_bound w /\ pin_out w Light.LED_PIN = val_b (Light_read w).
Proof.
  intros Hs w. apply Light_synced_bound. subst w.
  apply (kept_envs _ _ Light_synced_commit Light_synced_same).
  apply (kept_polls _ _ Light_synced_commit Light_synced_same _ Light_loop_calls).
  destruct (Light_setup_synced s0 Hs) as (Hr & Hv & Hp & _).
  exists (esp_matter_bool false). split; [exact Hr|]. split; [exact Hv|apply Hp].
Qed.

Lemma light_led_shows_the_attribute_witness :
  let w := apply_envs Light.on_attribute_update
             (run_polls Light.on_attribute_update Light.loop
                [[[Tick 600; SetPin D9 LOW]]; [[Tick 1; RemoteWrite 1 6 0 (esp_matter_bool false)]]]
                (run Light.on_attribute_update Light.setup [[Tick 2]] boot).2)
             [RemoteWrite 1 6 0 (esp_matter_bool true)] in
  pin_out w Light.LED_PIN = val_b (Light_read w).
Proof.
  destruct (light_led_shows_the_attribute [[Tick 2]]
              [[[Tick 600; SetPin D9 LOW]]; [[Tick 1; RemoteWrite 1 6 0 (esp_matter_bool false)]]]
              [RemoteWrite 1 6 0 (esp_matter_bool true)]) as [_ H];
    [repeat constructor|exact H].
Defined.

(** X17: in the two-endpoint sketch each LED shows its own attribute:
    after [setup] and any number of polls, whatever the buttons do and
    whatever controllers write, the two endpoint identifiers are still
    different, both handles are bound, and the level last driven on
    [LED_PIN_1], on [LED_PIN_2], is the boolean of the value read through
    [attribute_ref_1], through [attribute_ref_2]. *)
Theorem two_endpoint_leds_show_their_attributes
    (s0 : schedule) (ss : list schedule) (b : list env_action) :
  no_remote_write s0 ->
  let w := apply_envs TwoEndpoints.on_attribute_update
             (run_polls TwoEndpoints.on_attribute_update TwoEndpoints.loop ss
                (run TwoEndpoints.on_attribute_update TwoEndpoints.setup s0 boot).2) b in
  TwoEndpoints_ids_distinct w /\
  TwoEndpoints_bound w attribute_ref_1 plugin_unit_endpoint_id_1 /\
  TwoEndpoints_bound w attribute_ref_2 plugin_unit_endpoint_id_2 /\
  pin_out w TwoEndpoints.LED_PIN_1 = val_b (TwoEndpoints_read attribute_ref_1 w) /\
  pin_out w TwoEndpoints.LED_PIN_2 = val_b (TwoEndpoints_read attribute_ref_2 w).
Proof.
  intros Hs w.
  assert (H : TwoEndpoints_synced w).
  { subst w.
    apply (kept_envs _ _ TwoEndpoints_synced_commit TwoEndpoints_synced_same).
    apply (kept_polls _ _ TwoEndpoints_synced_commit TwoEndpoints_synced_same _
             TwoEndpoints_loop_calls).
    destruct (TwoEndpoints_setup_synced s0 Hs) as (Hne & Hr1 & Hv1 & Hr2 & Hv2 & Hp & _).
    split; [exact Hne|].
    split; exists (esp_matter_bool false); auto. }
  destruct H as (Hne & (u1 & Hr1 & Hu1 & Hp1) & (u2 & Hr2 & Hu2 & Hp2)).
  split; [exact Hne|].
  split; [split; [exact Hr1|eauto]|]. split; [split; [exact Hr2|eauto]|].
  rewrite (TwoEndpoints_read_store _ _ w u1 Hr1 Hu1),
          (TwoEndpoints_read_store _ _ w u2 Hr2 Hu2). auto.
Qed.

Lemma two_endpoint_leds_show_their_attributes_witness :
  let w := apply_envs TwoEndpoints.on_attribute_update
             (run_polls TwoEndpoints.on_attribute_update TwoEndpoints.loop
                [[[Tick 600; SetPin D8 LOW]]; [[Tick 1; RemoteWrite 1 6 0 (esp_matter_bool true)]]]
                (run TwoEndpoints.on_attribute_update TwoEndpoints.setup [[Tick 2]] boot).2)
             [RemoteWrite 2 6 0 (esp_matter_bool false)] in
  pin_out w D0 = val_b (TwoEndpoints_read attribute_ref_1 w) /\
  pin_out w D1 = val_b (TwoEndpoints_read attribute_ref_2 w).
Proof.
  destruct (two_endpoint_leds_show_their_attributes [[Tick 2]]
              [[[Tick 600; SetPin D8 LOW]]; [[Tick 1; RemoteWrite 1 6 0 (esp_matter_bool true)]]]
              [RemoteWrite 2 6 0 (esp_matter_bool false)]) as (_ & _ & _ & H1 & H2);
    [repeat constructor|split; [exact H1|exact H2]].
Defined.

(** ** The window-covering sketch *)

(** X18: the window-covering sketch never drives a pin: in every run
    from boot, whatever the schedule, no [digitalWrite] is made, by
    [setup], by [loop] or by the callback, and every pin is as at boot;
    [LED_PIN] is configured as an output and left alone.  (Whatever
    [CLUSTER_ID] and [ATTRIBUTE_ID] stand for.) *)
Theorem curtain_never_drives_a_pin
    (CLUSTER_ID ATTRIBUTE_ID : Z)
    (s0 : schedule) (ss : list schedule) (b : list env_action) :
  let w := apply_envs Curtain.on_attribute_update
             (run_polls Curtain.on_attribute_update (Curtain.loop CLUSTER_ID ATTRIBUTE_ID) ss
                (run Curtain.on_attribute_update (Curtain.setup CLUSTER_ID ATTRIBUTE_ID)
                   s0 boot).2) b in
  pin_writes (trace w) = [] /\ forall p, pin_out w p = false.
Proof.
  destruct (Curtain_pins CLUSTER_ID ATTRIBUTE_ID) as (Hc & Hs & Hl).
  destruct (sketch_pins _ _ Hc _ _ s0 ss b Hs Hl) as [H1 H2].
  split; [|intros p; apply H2; tauto].
  destruct H1 as [|x l Hx _]; [reflexivity|contradiction].
Qed.

Section Absent.

Variable cb : callback_t.
Hypothesis cb_ok : well_behaved cb.

(** A write cannot bring a path into the data model. *)
Lemma commit_absent o ep cl attr v w k :
  store w !! k = None -> store (framework_commit cb o ep cl attr v w).2 !! k = None.
Proof.
  intros Hk. destruct (store w !! (ep, cl, attr)) as [old|] eqn:E.
  - destruct (commit_accepted cb cb_ok o ep cl attr v w) as (_&_&_&_&_&_&Hs&_); [eauto|].
    cbn in Hs. rewrite Hs.
    rewrite lookup_insert_ne by (intros E'; subst k; discriminate (eq_trans (eq_sym E) Hk)). exact Hk.
  - rewrite commit_refused by exact E. exact Hk.
Qed.

Lemma envs_absent b w k :
  store w !! k = None -> store (apply_envs cb w b) !! k = None.
Proof.
  revert w. induction b as [|a b IH]; intros w Hk; [exact Hk|].
  change (apply_envs cb w (a :: b)) with (apply_envs cb (apply_env cb w a) b).
  apply IH. destruct a as [d|p l|ep cl attr v]; [exact Hk|exact Hk|].
  apply commit_absent, Hk.
Qed.

End Absent.

Section Unbound.

Variables C A : Z.

Lemma Curtain_unbound_same w w' :
  refs w' = refs w -> ints w' curtain_endpoint_id = ints w curtain_endpoint_id ->
  (store w !! Curtain_requested_path C A w = None ->
   store w' !! Curtain_requested_path C A w = None) ->
  commits_by ByLoop (timeline (trace w')) = commits_by ByLoop (timeline (trace w)) ->
  Curtain_unbound C A w -> Curtain_unbound C A w'.
Proof.
  intros Hr Hi Hs Ht (H1 & H2 & H3). unfold Curtain_unbound, Curtain_requested_path in *.
  rewrite Hr, Hi. rewrite commits_by_timeline in Ht. rewrite Ht, commits_by_timeline.
  auto.
Qed.

Lemma Curtain_unbound_env b w :
  Curtain_unbound C A w -> Curtain_unbound C A (apply_envs Curtain.on_attribute_update w b).
Proof.
  intros H.
  destruct (apply_envs_frame _ Curtain_callback_well_behaved b w) as (Hi & Hr & _ & Ht).
  apply (Curtain_unbound_same w); [exact Hr|rewrite Hi; reflexivity| |rewrite Ht; reflexivity|exact H].
  apply (envs_absent _ Curtain_callback_well_behaved).
Qed.

(** The read-invert-set block of the window-covering sketch with the
    handle NULL and the requested path absent: the value read is the
    invalid one, the update asked for is refused, the world is as the
    environment left it. *)
Lemma Curtain_toggle_refused s w :
  Curtain_unbound C A w ->
  exists W, (run Curtain.on_attribute_update (Curtain.toggle C A) s w).2 = W /\
            Curtain_unbound C A W /\ ints W = ints w /\ clock w <= clock W /\
            timeline (trace W) = timeline (trace w).
Proof.
  intros H. unfold Curtain.toggle, Curtain.get_curtain_attribute_value,
    Curtain.set_curtain_attribute_value. cbn.
  set (W0 := apply_envs _ w (hd [] s)).
  pose proof (Curtain_unbound_env (hd [] s) w H) as H0. fold W0 in H0.
  destruct (apply_envs_frame _ Curtain_callback_well_behaved (hd [] s) w) as (Hi0 & _ & Hc0 & Ht0).
  fold W0 in Hi0, Hc0, Ht0.
  destruct (H0) as (Hr0 & _). rewrite Hr0.
  set (W1 := apply_envs _ W0 (hd [] (tl s))).
  pose proof (Curtain_unbound_env (hd [] (tl s)) W0 H0) as H1. fold W1 in H1.
  destruct (apply_envs_frame _ Curtain_callback_well_behaved (hd [] (tl s)) W0)
    as (Hi1 & _ & Hc1 & Ht1).
  fold W1 in Hi1, Hc1, Ht1.
  set (W2 := apply_envs _ W1 (hd [] (tl (tl s)))).
  pose proof (Curtain_unbound_env (hd [] (tl (tl s))) W1 H1) as H2. fold W2 in H2.
  destruct (apply_envs_frame _ Curtain_callback_well_behaved (hd [] (tl (tl s))) W1)
    as (Hi2 & _ & Hc2 & Ht2).
  fold W2 in Hi2, Hc2, Ht2.
  set (W3 := apply_envs _ W2 (hd [] (tl (tl (tl s))))).
  pose proof (Curtain_unbound_env (hd [] (tl (tl (tl s)))) W2 H2) as H3. fold W3 in H3.
  destruct (apply_envs_frame _ Curtain_callback_well_behaved (hd [] (tl (tl (tl s)))) W2)
    as (Hi3 & _ & Hc3 & Ht3).
  fold W3 in Hi3, Hc3, Ht3.
  destruct (H3) as (_ & Hs3 & _).
  rewrite commit_refused
    by (unfold Curtain_requested_path in Hs3; rewrite Hi3 in Hs3; exact Hs3).
  exists W3. split; [reflexivity|]. split; [exact H3|].
  split; [congruence|]. split; [lia|congruence].
Qed.

Lemma Curtain_poll_unbound s w :
  Curtain_unbound C A w ->
  Curtain_unbound C A (run Curtain.on_attribute_update (Curtain.loop C A) s w).2.
Proof.
  intros H. unfold Curtain.loop. cbn -[Curtain.toggle].
  set (W0 := apply_envs _ w (hd [] s)).
  pose proof (Curtain_unbound_env (hd [] s) w H) as H0. fold W0 in H0.
  set (W0' := log (OMillis (clock W0)) W0).
  assert (H0' : Curtain_unbound C A W0') by exact H0.
  set (W1 := apply_envs _ W0' (hd [] (tl s))).
  pose proof (Curtain_unbound_env (hd [] (tl s)) W0' H0') as H1. fold W1 in H1.
  destruct (Curtain.DEBOUNCE_DELAY <? usub (wrap32 (clock W0)) (ints W1 last_toggle));
    [|exact H1].
  cbn -[Curtain.toggle].
  set (W2 := apply_envs _ W1 (hd [] (tl (tl s)))).
  pose proof (Curtain_unbound_env (hd [] (tl (tl s))) W1 H1) as H2. fold W2 in H2.
  destruct (lnot (pin_in W2 Curtain.TOGGLE_BUTTON_PIN)); [|exact H2].
  cbn -[Curtain.toggle].
  set (W3 := apply_envs _ W2 (hd [] (tl (tl (tl s))))).
  pose proof (Curtain_unbound_env (hd [] (tl (tl (tl s)))) W2 H2) as H3. fold W3 in H3.
  set (W3' := log (OMillis (clock W3)) W3).
  assert (H3' : Curtain_unbound C A W3') by exact H3.
  set (W4 := apply_envs _ W3' (hd [] (tl (tl (tl (tl s)))))).
  pose proof (Curtain_unbound_env (hd [] (tl (tl (tl (tl s))))) W3' H3') as H4. fold W4 in H4.
  match goal with |- Curtain_unbound C A (run _ (Curtain.toggle C A) ?s' ?w').2 =>
    destruct (Curtain_toggle_refused s' w') as (W & -> & HW & _)
  end; [|exact HW].
  destruct H4 as (Hr & Hs & Ht). repeat split; assumption.
Qed.

Lemma Curtain_polls_unbound ss w :
  Curtain_unbound C A w ->
  Curtain_unbound C A (run_polls Curtain.on_attribute_update (Curtain.loop C A) ss w).
Proof.
  revert w. induction ss as [|s ss IH]; intros w H; [exact H|].
  rewrite run_polls_cons. apply IH, Curtain_poll_unbound, H.
Qed.

End Unbound.

(** X19: in the window-covering sketch the button changes nothing in the
    data model when the path [setup] and the setter name is not there.
    Whatever [CLUSTER_ID] and [ATTRIBUTE_ID] stand for: if, after [setup]
    (the stack starting at its end), the path (curtain_endpoint_id,
    CLUSTER_ID, ATTRIBUTE_ID) is not in the data model (as it is with the
    on/off identifiers on an endpoint that carries the window-covering
    cluster alone), then the handle is NULL and stays so, the getter
    returns the invalid value, and whatever the buttons do and whatever
    controllers write, no poll ever commits a value: the update it asks
    for is refused each time, and every commit there is comes from a
    controller. *)
Theorem curtain_button_commits_nothing_on_an_absent_path
    (CLUSTER_ID ATTRIBUTE_ID : Z) (s0 : schedule) (ss : list schedule) :
  no_remote_write s0 ->
  let w0 := (run Curtain.on_attribute_update (Curtain.setup CLUSTER_ID ATTRIBUTE_ID)
               s0 boot).2 in
  store w0 !! Curtain_requested_path CLUSTER_ID ATTRIBUTE_ID w0 = None ->
  let w := run_polls Curtain.on_attribute_update (Curtain.loop CLUSTER_ID ATTRIBUTE_ID)
             ss w0 in
  toggles w = 0 /\ refs w attribute_ref = None /\ Curtain_read w = esp_matter_invalid /\
  store w !! Curtain_requested_path CLUSTER_ID ATTRIBUTE_ID w = None /\
  Forall (fun c : origin * path * esp_matter_attr_val_t => c.1.1 = ByController)
         (all_commits (trace w)).
Proof.
  intros Hs w0 Hnone w.
  assert (H : Curtain_unbound CLUSTER_ID ATTRIBUTE_ID w).
  { apply Curtain_polls_unbound.
    destruct (Curtain_setup_synced CLUSTER_ID ATTRIBUTE_ID s0 Hs) as (Hr & _ & _ & Ht & _).
    fold w0 in Hr, Ht.
    rewrite bool_decide_eq_false_2 in Hr by (rewrite Hnone; apply is_Some_None).
    repeat split; [exact Hr|exact Hnone|rewrite Ht; reflexivity]. }
  destruct H as (Hr & Hn & Ht).
  split; [unfold toggles; rewrite Ht; reflexivity|].
  split; [exact Hr|]. split; [exact (Curtain_read_null w Hr)|]. split; [exact Hn|].
  clear -Ht. induction (trace w) as [|o t IH]; [constructor|].
  destruct o as [c|p l|x|[|] a v]; try (apply IH, Ht).
  - discriminate Ht.
  - constructor; [reflexivity|apply IH, Ht].
Qed.

Lemma curtain_button_commits_nothing_on_an_absent_path_witness :
  toggles (run_polls Curtain.on_attribute_update
             (Curtain.loop OnOff_Id OnOff_Attributes_OnOff_Id)
             [[[Tick 600; SetPin D9 LOW]]; [[Tick 600]];
              [[Tick 600; RemoteWrite 1 258 10 (esp_matter_bitmap8 1)]]]
             (run Curtain.on_attribute_update
                (Curtain.setup OnOff_Id OnOff_Attributes_OnOff_Id) [[Tick 2]] boot).2) = 0.
Proof.
  destruct (curtain_button_commits_nothing_on_an_absent_path
              OnOff_Id OnOff_Attributes_OnOff_Id [[Tick 2]]
              [[[Tick 600; SetPin D9 LOW]]; [[Tick 600]];
               [[Tick 600; RemoteWrite 1 258 10 (esp_matter_bitmap8 1)]]])
    as [H _]; [repeat constructor|reflexivity|exact H].
Defined.

(** X20: what a press does in the window-covering sketch when the path
    the setter names is not in the data model.  A poll that passes the
    debounce comparison with the button low takes the press: it reads the
    clock again and stamps [last_toggle], so that the window restarts; the
    update it then asks for, on (curtain_endpoint_id, CLUSTER_ID,
    ATTRIBUTE_ID), is refused: the data model, the pins and the serial
    port are as before, nothing is committed, the callback is not called,
    and the path is still absent. *)
Theorem curtain_press_only_restarts_the_window
    (CLUSTER_ID ATTRIBUTE_ID : Z) (b : list env_action) (w : world) :
  store w !! Curtain_requested_path CLUSTER_ID ATTRIBUTE_ID w = None ->
  Forall (fun a => is_remote_write a = false) b ->
  let W := apply_envs Curtain.on_attribute_update w b in
  Curtain_armed W -> pin_in W Curtain.TOGGLE_BUTTON_PIN = LOW ->
  let w' := (run Curtain.on_attribute_update (Curtain.loop CLUSTER_ID ATTRIBUTE_ID)
               [b] w).2 in
  ints w' last_toggle = to_int (wrap32 (clock W)) /\
  store w' = store w /\ pin_out w' = pin_out w /\
  serial_out (trace w') = serial_out (trace w) /\
  all_commits (trace w') = all_commits (trace w) /\
  pin_writes (trace w') = pin_writes (trace w) /\
  store w' !! Curtain_requested_path CLUSTER_ID ATTRIBUTE_ID w' = None.
Proof.
  intros Hnone Hq W Ha Hp w'.
  destruct (envs_quiet_facts _ Curtain_callback_well_behaved b w Hq)
    as (Hi & _ & Hs & Ht & Hpo & _).
  fold W in Hi, Hs, Ht, Hpo.
  assert (Hw' := Curtain_press_eq CLUSTER_ID ATTRIBUTE_ID b w Hq Ha Hp).
  cbv zeta in Hw'. fold W in Hw'. fold w' in Hw'.
  rewrite commit_refused in Hw' by (cbn; rewrite Hs; exact Hnone).
  cbn [snd] in Hw'. clearbody w'. subst w'.
  split; [apply fn_lookup_insert|]. split; [exact Hs|]. split; [exact Hpo|].
  unfold Curtain_requested_path. cbn.
  rewrite fn_lookup_insert_ne by discriminate. rewrite Ht, Hs, Hi. auto.
Qed.

Lemma curtain_press_only_restarts_the_window_witness :
  let w' := (run Curtain.on_attribute_update
               (Curtain.loop OnOff_Id OnOff_Attributes_OnOff_Id)
               [[Tick 1000; SetPin D9 LOW]]
               (Curtain_ready OnOff_Id OnOff_Attributes_OnOff_Id)).2 in
  ints w' last_toggle = 1000 /\
  store w' = store (Curtain_ready OnOff_Id OnOff_Attributes_OnOff_Id).
Proof.
  destruct (curtain_press_only_restarts_the_window OnOff_Id OnOff_Attributes_OnOff_Id
              [Tick 1000; SetPin D9 LOW] (Curtain_ready OnOff_Id OnOff_Attributes_OnOff_Id))
    as (H1 & H2 & _).
  - reflexivity.
  - repeat constructor.
  - vm_compute. reflexivity.
  - reflexivity.
  - split; [exact H1|exact H2].
Defined.

(** ** A controller writes the window covering *)

Lemma Curtain_remote_write_eq ep cl attr v w :
  is_Some (store w !! (ep, cl, attr)) ->
  apply_envs Curtain.on_attribute_update w [RemoteWrite ep cl attr v] =
  commit ByController (ep, cl, attr) v
    (if (ep =? ints w curtain_endpoint_id) &&
        (cl =? Curtain.CURTAIN_CLUSTER_ID) && (attr =? Curtain.CURTAIN_ATTRIBUTE_ID)
     then say (Curtain_new_state v ++ Curtain_header ep cl attr) w
     else say (Curtain_header ep cl attr) w).
Proof.
  intros Hsome. unfold apply_envs. cbn [fold_left apply_env].
  rewrite Curtain_commit_eq by exact Hsome. reflexivity.
Qed.

(** X21: a controller's write in the window-covering sketch.  Whatever
    attribute that exists is written, the value is committed and the
    callback prints one line naming the endpoint, the cluster and the
    attribute; when the attribute is the operational status of the
    curtain endpoint it prints a second line, "New state: " followed by
    the byte of the value (5 for a status of 5).  No pin is driven.
    (Serial output in the order printed.) *)
Theorem curtain_reports_a_controller_write
    (ep cl attr : Z) (v : esp_matter_attr_val_t) (w : world) :
  is_Some (store w !! (ep, cl, attr)) ->
  let w' := apply_envs Curtain.on_attribute_update w [RemoteWrite ep cl attr v] in
  let header := [PStr "Update on endpoint: "; PNum ep; PStr " cluster: "; PNum cl;
                 PStr " attribute: "; PNum attr; PNewline] in
  store w' = <[(ep, cl, attr):=v]> (store w) /\
  pin_writes (trace w') = pin_writes (trace w) /\ pin_out w' = pin_out w /\
  ((ep, cl, attr) = Curtain_path w ->
   rev (serial_out (trace w')) =
   rev (serial_out (trace w)) ++ header ++
     [PStr "New state: "; PNum (val_u8 v); PNewline]) /\
  ((ep, cl, attr) <> Curtain_path w ->
   rev (serial_out (trace w')) = rev (serial_out (trace w)) ++ header).
Proof.
  intros Hsome w' header. subst w'. rewrite (Curtain_remote_write_eq ep cl attr v w Hsome).
  split; [destruct (_ && _); reflexivity|].
  split; [destruct (_ && _); reflexivity|].
  split; [destruct (_ && _); reflexivity|].
  split.
  - intros E. injection E as -> -> ->. rewrite !Z.eqb_refl. cbn [andb].
    cbn. rewrite <- !app_assoc. reflexivity.
  - intros Hne.
    assert (Hc : (ep =? ints w curtain_endpoint_id) && (cl =? Curtain.CURTAIN_CLUSTER_ID) &&
                 (attr =? Curtain.CURTAIN_ATTRIBUTE_ID) = false).
    { destruct (Z.eqb_spec ep (ints w curtain_endpoint_id)); [|reflexivity].
      destruct (Z.eqb_spec cl Curtain.CURTAIN_CLUSTER_ID); [|reflexivity].
      destruct (Z.eqb_spec attr Curtain.CURTAIN_ATTRIBUTE_ID); [|reflexivity].
      exfalso. apply Hne. subst. reflexivity. }
    rewrite Hc. cbn. rewrite <- !app_assoc. reflexivity.
Qed.

Lemma curtain_reports_a_controller_write_witness :
  let w' := apply_envs Curtain.on_attribute_update (Curtain_ready OnOff_Id OnOff_Attributes_OnOff_Id)
              [RemoteWrite 1 258 10 (esp_matter_bitmap8 5)] in
  rev (serial_out (trace w')) =
    [PStr "Update on endpoint: "; PNum 1; PStr " cluster: "; PNum 258;
     PStr " attribute: "; PNum 10; PNewline; PStr "New state: "; PNum 5; PNewline] /\
  store w' !! (1, 258, 10) = Some (esp_matter_bitmap8 5).
Proof.
  destruct (curtain_reports_a_controller_write 1 258 10 (esp_matter_bitmap8 5) (Curtain_ready OnOff_Id OnOff_Attributes_OnOff_Id))
    as (Hs & _ & _ & H & _); [vm_compute; eauto|].
  split; [exact (H eq_refl)|]. rewrite Hs. apply lookup_insert_eq.
Defined.


(** ** The state of the light and the number of toggles *)

Lemma Light_poll_parity b w :
  Light_bound w -> Forall (fun a => is_remote_write a = false) b ->
  let w' := (run Light.on_attribute_update Light.loop [b] w).2 in
  Light_bound w' /\
  val_b (Light_read w') = xorb (val_b (Light_read w)) (Z.odd (toggles w' - toggles w)).
Proof.
  intros Hb Hq w'. subst w'.
  rewrite (Light_poll_single b w _ Hb (Light_read_eq w Hb) Hq).
  set (W := apply_envs Light.on_attribute_update w b).
  destruct (Light_bound_env b w Hq Hb) as (HbW & HtW & HiW). fold W in HbW, HtW, HiW.
  destruct (envs_quiet_facts _ Light_callback_well_behaved b w Hq) as (_ & Hr & Hs & _).
  fold W in Hr, Hs.
  assert (HpW : Light_path W = Light_path w) by (unfold Light_path; rewrite HiW; reflexivity).
  pose proof (Light_read_eq w Hb) as Hv.
  destruct (_ && _).
  - destruct (Light_fired_facts (Light_read w) W HbW) as (Hb' & _ & _ & _ & Ht' & Hst).
    split; [exact Hb'|].
    rewrite (Light_read_store _ _ (proj1 Hb') Hst), val_b_flip, Ht', HtW.
    replace (toggles w + 1 - toggles w) with 1 by lia.
    destruct (val_b (Light_read w)); reflexivity.
  - split; [exact HbW|].
    assert (E : Light_read (log (OMillis (clock W)) W) = Light_read w).
    { apply Light_read_store; [apply HbW|].
      change (store W !! Light_path W = Some (Light_read w)). rewrite Hs, HpW. exact Hv. }
    rewrite E. change (toggles (log (OMillis (clock W)) W)) with (toggles W).
    rewrite HtW, Z.sub_diag. destruct (val_b (Light_read w)); reflexivity.
Qed.

Lemma Light_polls_parity bs : forall w,
  Light_bound w -> Forall (Forall (fun a => is_remote_write a = false)) bs ->
  let w' := run_polls Light.on_attribute_update Light.loop (map (fun b => [b]) bs) w in
  Light_bound w' /\
  val_b (Light_read w') = xorb (val_b (Light_read w)) (Z.odd (toggles w' - toggles w)).
Proof.
  induction bs as [|b bs IH]; intros w Hb Hq.
  - cbv zeta.
    change (run_polls Light.on_attribute_update Light.loop (map (fun b => [b]) []) w) with w.
    split; [exact Hb|]. rewrite Z.sub_diag. destruct (val_b (Light_read w)); reflexivity.
  - inversion Hq as [|? ? Hq1 Hq2]; subst.
    destruct (Light_poll_parity b w Hb Hq1) as [Hb1 E1].
    destruct (IH _ Hb1 Hq2) as [Hb2 E2].
    cbn [map]. rewrite run_polls_cons. split; [exact Hb2|].
    cbv zeta in E2. rewrite E2, E1, xorb_assoc, <- Z.odd_add. f_equal. f_equal. lia.
Qed.

Lemma press_hold_release_batches btn H rest :
  press_hold_release btn H rest =
  map (fun b => [b])
      ([SetPin btn LOW] :: repeat [Tick 1] (H - 1) ++ [Tick 1; SetPin btn HIGH] :: repeat [Tick 1] rest).
Proof.
  unfold press_hold_release, tick_ms. cbn [map]. f_equal.
  rewrite map_app. cbn [map]. f_equal; [|f_equal].
  - induction (H - 1)%nat as [|n IH]; [reflexivity|]. cbn. f_equal. exact IH.
  - induction rest as [|n IH]; [reflexivity|]. cbn. f_equal. exact IH.
Qed.

(** X22: the light is on or off according to the parity of the toggles.
    Over any polls during which no controller writes, the boolean of the
    attribute at the end is that at the start, inverted when the poller
    toggled an odd number of times.  So a press held for [H] ms, polled
    every millisecond from an armed poller, inverts the light when
    [(H + 500) / 501] is odd and leaves it as it was when that is even: a
    press of up to 501 ms inverts it, one of 502 to 1002 ms toggles it
    twice and leaves it as before. *)
Theorem light_state_follows_toggle_parity
    (bs : list (list env_action)) (H rest : nat) (w : world) :
  Light_bound w ->
  (Forall (Forall (fun a => is_remote_write a = false)) bs ->
   let w' := run_polls Light.on_attribute_update Light.loop (map (fun b => [b]) bs) w in
   val_b (Light_read w') = xorb (val_b (Light_read w)) (Z.odd (toggles w' - toggles w))) /\
  (Light_armed w -> (1 <= H)%nat ->
   let w' := run_polls Light.on_attribute_update Light.loop
               (press_hold_release Light.TOGGLE_BUTTON_PIN H rest) w in
   val_b (Light_read w') =
     xorb (val_b (Light_read w)) (Z.odd ((Z.of_nat H + 500) / 501)) /\
   ((H <= 501)%nat -> val_b (Light_read w') = negb (val_b (Light_read w))) /\
   ((501 < H <= 1002)%nat -> val_b (Light_read w') = val_b (Light_read w))).
Proof.
  intros Hb. split.
  - intros Hq. apply (Light_polls_parity bs w Hb Hq).
  - intros Ha HH w'.
    pose proof (held_press_toggles Light.on_attribute_update Light.loop
                  Light.TOGGLE_BUTTON_PIN Light_bound
                  Light_good_env Light_poll_fires Light_poll_idles H rest w Hb Ha HH) as Hn.
    fold w' in Hn.
    destruct (refire_count_intro H _ HH Hn) as (_ & H1 & H2 & _).
    assert (E : val_b (Light_read w') =
                xorb (val_b (Light_read w)) (Z.odd (toggles w' - toggles w))).
    { subst w'. rewrite press_hold_release_batches. apply (Light_polls_parity _ w Hb).
      constructor; [repeat constructor|].
      apply Forall_app. split.
      - apply Forall_forall. intros x Hx. apply repeat_spec in Hx. subst x. repeat constructor.
      - constructor; [repeat constructor|].
        apply Forall_forall. intros x Hx. apply repeat_spec in Hx. subst x. repeat constructor. }
    split; [rewrite E, Hn; reflexivity|]. split.
    + intros Hle. rewrite E, (H1 Hle). destruct (val_b (Light_read w)); reflexivity.
    + intros Hle. rewrite E, (H2 Hle). destruct (val_b (Light_read w)); reflexivity.
Qed.

Lemma light_state_follows_toggle_parity_witness :
  let w' := run_polls Light.on_attribute_update Light.loop
              (press_hold_release D9 600 2) Light_idle in
  val_b (Light_read w') = val_b (Light_read Light_idle).
Proof.
  destruct (light_state_follows_toggle_parity [] 600 2 Light_idle Light_idle_bound)
    as [_ H].
  destruct (H Light_idle_armed ltac:(lia)) as (_ & _ & H2).
  apply H2. lia.
Defined.
